(** * UVM regression orchestrator ([utils/run_uvm_regression.py])

    A shallow embedding of the regression script and the properties of
    its specification.

    - Python text is a list of Unicode code points; the text methods
      and the fragment of the [re] module that the script uses are
      functions on such lists.
    - The operating system, the build system and the two simulators are
      an interface ([Sys]) whose calls thread an abstract world; a call
      answers with a value or with the text of the exception it raises.
    - The script runs in a state and exception monad.  The state also
      records the child processes started and the reports written, so
      that statements can speak of them.
    - Calls to [logging] have no effect on what the script computes and
      are left out.  Asynchronous exceptions ([KeyboardInterrupt]) are
      not modelled. *)

From Stdlib Require Import ZArith NArith Ascii String.
From stdpp Require Import base tactics option list sorting gmap.

Local Open Scope N_scope.

(** ** Python text *)

(** A Python [str] is a sequence of code points. *)
Definition char := N.
Definition str := list char.

(** A source literal; all literals of the script are ASCII. *)
Definition pystr (s : string) : str :=
  (fun a => N_of_ascii a) <$> list_ascii_of_string s.

Definition nl : char := 10.
Definition comma : char := 44.
Definition semicolon : char := 59.
Definition space : char := 32.
Definition colon : char := 58.
Definition slash : char := 47.
Definition underscore : char := 95.

(** [str.isspace] on one code point, which is also the class [\s] of
    the [re] module on text patterns. *)
Definition is_space (c : char) : bool :=
  ((9 <=? c) && (c <=? 13)) || ((28 <=? c) && (c <=? 32))
  || (c =? 133) || (c =? 160) || (c =? 5760)
  || ((8192 <=? c) && (c <=? 8202))
  || (c =? 8232) || (c =? 8233) || (c =? 8239) || (c =? 8287)
  || (c =? 12288).

(** The class [.] of the [re] module: anything but a newline. *)
Definition is_dot (c : char) : bool := negb (c =? nl).

(** [t.startswith(p)], returning what follows the prefix. *)
Fixpoint strip_prefix (p t : str) : option str :=
  match p, t with
  | [], _ => Some t
  | _ :: _, [] => None
  | a :: p', b :: t' => if a =? b then strip_prefix p' t' else None
  end.

Definition startswith (t p : str) : bool := bool_decide (is_Some (strip_prefix p t)).

Definition endswith (t p : str) : bool := startswith (reverse t) (reverse p).

(** [p in t] for text. *)
Fixpoint contains (p t : str) : bool :=
  startswith t p || match t with [] => false | _ :: t' => contains p t' end.

(** [t.lstrip()], [t.rstrip()] and [t.strip()]. *)
Fixpoint lstrip (t : str) : str :=
  match t with
  | c :: t' => if is_space c then lstrip t' else t
  | [] => []
  end.

Definition rstrip (t : str) : str := reverse (lstrip (reverse t)).

Definition strip (t : str) : str := rstrip (lstrip t).

(** [t.split(sep)] for a one-character separator: never an empty list. *)
Fixpoint split (sep : char) (t : str) : list str :=
  match t with
  | [] => [[]]
  | c :: t' =>
      if c =? sep then [] :: split sep t'
      else match split sep t' with
           | l :: ls => (c :: l) :: ls
           | [] => [[c]]
           end
  end.

(** [sep.join(parts)]. *)
Fixpoint join (sep : str) (parts : list str) : str :=
  match parts with
  | [] => []
  | [p] => p
  | p :: ps => p ++ sep ++ join sep ps
  end.

(** [t.replace(a, b)] for single characters. *)
Definition replace_char (a b : char) (t : str) : str :=
  (fun c => if c =? a then b else c) <$> t.

(** [t.replace(old, new)] for a non-empty [old]: occurrences are
    replaced left to right without overlap.  The fuel is the length of
    the text, which bounds the number of steps. *)
Fixpoint replace_fuel (fuel : nat) (old new t : str) : str :=
  match fuel with
  | O => t
  | S fuel' =>
      match strip_prefix old t with
      | Some t' => new ++ replace_fuel fuel' old new t'
      | None => match t with
                | [] => []
                | c :: t' => c :: replace_fuel fuel' old new t'
                end
      end
  end.

Definition replace (old new t : str) : str := replace_fuel (S (length t)) old new t.

(** Indexing from the end, [parts[-1]]; [None] is an [IndexError]. *)
Definition last_item {A} (l : list A) : option A := last l.

(** [str(n)] and [format(n, "x")] for integers. *)
Definition digit_char (d : N) : char :=
  if d <? 10 then 48 + d else 87 + d.

Fixpoint digits_fuel (fuel : nat) (base n : N) (acc : str) : str :=
  match fuel with
  | O => acc
  | S fuel' =>
      let acc' := digit_char (n mod base) :: acc in
      if n / base =? 0 then acc' else digits_fuel fuel' base (n / base) acc'
  end.

Definition N_digits (base n : N) : str := digits_fuel (S (N.to_nat (N.log2 n))) base n [].

Definition Z_format (base : N) (z : Z) : str :=
  match z with
  | Zneg p => 45 :: N_digits base (Npos p)
  | _ => N_digits base (Z.to_N z)
  end.

Definition str_of_int (z : Z) : str := Z_format 10 z.
Definition hex_of_int (z : Z) : str := Z_format 16 z.

(** Comparison of text, code point by code point, as [<=] on [str]. *)
Fixpoint str_leb (a b : str) : bool :=
  match a, b with
  | [], _ => true
  | _ :: _, [] => false
  | x :: a', y :: b' => if x =? y then str_leb a' b' else x <? y
  end.

Definition str_le (a b : str) : Prop := str_leb a b = true.

Global Instance str_le_dec : RelDecision str_le.
Proof. intros a b. unfold str_le. apply _. Defined.

(** [sorted(xs)] on text.  Python's sort is stable and uses [<] only;
    the order on text is total and antisymmetric, so every sorting
    algorithm returns the same list. *)
Definition sorted_str (l : list str) : list str := merge_sort str_le l.

(** Tuples [(a, b)] of text compare by the first component, then by the
    second. *)
Definition pair_leb (x y : str * str) : bool :=
  if bool_decide (x.1 = y.1) then str_leb x.2 y.2 else str_leb x.1 y.1.

Definition pair_le (x y : str * str) : Prop := pair_leb x y = true.

Global Instance pair_le_dec : RelDecision pair_le.
Proof. intros a b. unfold pair_le. apply _. Defined.

Definition sorted_pairs (l : list (str * str)) : list (str * str) :=
  merge_sort pair_le l.

(** [xs[:k]]: a negative [k] counts from the end. *)
Definition slice_to {A} (k : Z) (l : list A) : list A :=
  if (0 <=? k)%Z then take (Z.to_nat k) l
  else take (length l - Z.to_nat (- k))%nat l.

(** [os.path.join(a, b)] on POSIX. *)
Definition os_path_join (a b : str) : str :=
  if startswith b [slash] then b
  else if bool_decide (a = []) || endswith a [slash] then a ++ b
  else a ++ [slash] ++ b.

(** ** Policy tables *)

Definition DENYLIST : list str := pystr <$> [
  "//tests/cocotb/tutorial/counters:inst_cycle_counter_example";
  "//tests/cocotb/coralnpu_isa:perf_counters";
  "//tests/cocotb/rvv:vill_test";
  "//tests/cocotb:vector_store";
  "//tests/cocotb:vector_store_fault";
  "//third_party/riscv-tests:rv32ui-p-fence_i";
  "//third_party/riscv-tests:rv32ui-v-fence_i";
  "//tests/cocotb/rvv:vmsif_test";
  "//tests/cocotb/rvv:vmsbf_test";
  "//tests/cocotb/rvv/load_store:load_unit_masked";
  "//tests/cocotb/rvv/load_store:store_unit_masked"
]%string.

Definition SPIKE_DENYLIST : list str := pystr <$> [
  "//hw_sim:mailbox_example";
  "//tests/cocotb/exceptions:store_fault_0";
  "//tests/cocotb/rvv:rvv_add";
  "//tests/cocotb/rvv:rvv_load";
  "//tests/cocotb/rvv:vstart_store";
  "//tests/cocotb:registers";
  "//tests/cocotb:stress_test";
  "//tests/cocotb:wfi_slot_0";
  "//tests/cocotb:wfi_slot_1";
  "//tests/cocotb:wfi_slot_2";
  "//tests/cocotb:wfi_slot_3"
]%string.

(** Custom timeouts in nanoseconds, by target. *)
Definition TIMEOUT_MAP : gmap str Z :=
  <[pystr "//tests/cocotb/rvv/ml_ops:rvv_matmul" := 100000000%Z]>
  (<[pystr "//tests/cocotb/rvv/ml_ops:rvv_matmul_assembly" := 100000000%Z]> ∅).

Definition SPIKE_MEMORY_REGIONS : list (Z * Z) :=
  [(0x0, 0x2000); (0x10000, 0x8000); (0x20000000, 0x400000)]%Z.

Definition SPIKE_ISA : str := pystr "rv32imf_zve32x_zvl128b_zicsr_zifencei_zbb".

Definition get_spike_memory_map_str : str :=
  join (pystr ",")
    ((fun r : Z * Z => pystr "0x" ++ hex_of_int r.1 ++ pystr ":0x" ++ hex_of_int r.2)
       <$> SPIKE_MEMORY_REGIONS).

(** ** Verdicts *)

Inductive status := PASS | FAIL | BUILD_ARTIFACT_MISSING | EXEC_FAIL.

Global Instance status_eq_dec : EqDecision status.
Proof. solve_decision. Defined.

(** A simulation result [(status, reason, raw_log)]. *)
Definition result : Type := status * str * str.

(** ** Regular expressions of the [re] module

    The fragment the script uses: literals, character classes, greedy
    repetition of a class, sequence, alternation, negative lookahead and
    the [$] anchor under [re.MULTILINE].  Matching is by backtracking:
    [rmatch r k t] matches [r] at the front of the text [t] and hands
    what is left to the continuation [k]; a [None] from [k] makes the
    matcher try its next alternative, in the order of the [re] module. *)
Inductive re :=
| Lit (s : str)
| Cls (p : char → bool)
| Star (p : char → bool)
| Seq (a b : re)
| Alt (a b : re)
| NegLook (a : re)
| Eol.

(** Greedy [c*]: the longest run first, then shorter ones. *)
Fixpoint star {A} (p : char → bool) (k : str → option A) (t : str) : option A :=
  match t with
  | c :: t' =>
      if p c then
        match star p k t' with
        | Some a => Some a
        | None => k t
        end
      else k t
  | [] => k t
  end.

Fixpoint rmatch (A : Type) (r : re) (k : str → option A) (t : str) : option A :=
  match r with
  | Lit s =>
      match strip_prefix s t with
      | Some t' => k t'
      | None => None
      end
  | Cls p =>
      match t with
      | c :: t' => if p c then k t' else None
      | [] => None
      end
  | Star p => star p k t
  | Seq a b => rmatch A a (rmatch A b k) t
  | Alt a b =>
      match rmatch A a k t with
      | Some x => Some x
      | None => rmatch A b k t
      end
  | NegLook a =>
      match rmatch unit a (fun _ => Some ()) t with
      | Some _ => None
      | None => k t
      end
  | Eol =>
      match t with
      | [] => k t
      | c :: _ => if c =? nl then k t else None
      end
  end.

Arguments rmatch {A} r k t.

(** The lookahead [.*:\s+0\s*$] that recognises a zero count. *)
Definition zero_count_re : re :=
  Seq (Star is_dot)
    (Seq (Lit [colon])
       (Seq (Cls is_space)
          (Seq (Star is_space)
             (Seq (Lit (pystr "0")) (Seq (Star is_space) Eol))))).

(** Group 1 of the pattern:
    [UVM_(?:FATAL|ERROR)(?!.*:\s+0\s*$).*] *)
Definition uvm_group_re : re :=
  Seq (Lit (pystr "UVM_"))
    (Seq (Alt (Lit (pystr "FATAL")) (Lit (pystr "ERROR")))
       (Seq (NegLook zero_count_re) (Star is_dot))).

(** The whole pattern [^\s*(...)$] tried at a position where [^] holds;
    the answer is the text of group 1, which runs from the suffix [q]
    where the group starts to the suffix [e] where it ends. *)
Definition uvm_match_at (t : str) : option str :=
  rmatch (Star is_space)
    (fun q => rmatch uvm_group_re
       (fun e => rmatch Eol (fun _ => Some (take (length q - length e)%nat q)) e) q) t.

(** [re.search(pattern, t, re.MULTILINE)]: the start positions are tried
    from left to right, up to and including the end of the text; [^]
    holds at the start of the text and after each newline ([bol]). *)
Fixpoint search_from (bol : bool) (t : str) : option str :=
  match (if bol then uvm_match_at t else None) with
  | Some g => Some g
  | None =>
      match t with
      | [] => None
      | c :: t' => search_from (c =? nl) t'
      end
  end.

(** [uvm_err.group(1)] when the search succeeds. *)
Definition uvm_err (output : str) : option str := search_from true output.

(** ** Classification of the last attempt (the tail of [run_uvm]) *)

(** The two [replace] calls that make a reason fit a CSV field. *)
Definition sanitize (reason : str) : str :=
  replace_char nl space (replace_char comma semicolon reason).

Definition classify (returncode : Z) (output : str) : result :=
  let uvm_err := uvm_err output in
  if negb (returncode =? 0)%Z then
    let reason :=
      match uvm_err with
      | Some g => strip g
      | None =>
          if contains (pystr "AXI_DECERR") output then pystr "AXI_DECERR detected"
          else
            let lines := split nl (strip output) in
            pystr "Make failed: " ++
              (if bool_decide (lines ≠ []) then default [] (last_item lines)
               else pystr "Unknown")
      end in
    (FAIL, sanitize reason, output)
  else
    match uvm_err with
    | Some g => (FAIL, sanitize (strip g), output)
    | None => (PASS, pystr "None", output)
    end.


(** ** Exceptions *)

(** The exception classes the script tells apart.  [Exception] stands
    for every other subclass of Python's [Exception], with the text
    [str(e)]; [SystemExit] is what [sys.exit] raises and is not an
    [Exception], so no [except Exception] clause catches it. *)
Inductive exn :=
| CalledProcessError (text : str)
| TimeoutExpired (text : str)
| Exception (text : str)
| SystemExit (code : Z).

(** [str(e)] *)
Definition exn_text (e : exn) : str :=
  match e with
  | CalledProcessError t | TimeoutExpired t | Exception t => t
  | SystemExit c => str_of_int c
  end.

Definition is_Exception (e : exn) : bool :=
  match e with SystemExit _ => false | _ => true end.

Definition is_CalledProcessError (e : exn) : bool :=
  match e with CalledProcessError _ => true | _ => false end.

Definition is_TimeoutExpired (e : exn) : bool :=
  match e with TimeoutExpired _ => true | _ => false end.

(** How a Python computation ends. *)
Inductive outcome (A : Type) :=
| Ret (a : A)
| Raise (e : exn).
Arguments Ret {A} a.
Arguments Raise {A} e.

(** ** The operating system

    What an operating-system or library call answers: a value, or the
    text of the exception it raises. *)
Inductive res (A : Type) :=
| Ok (a : A)
| Err (text : str).
Arguments Ok {A} a.
Arguments Err {A} text.

(** What waiting for a child process answers. *)
Inductive wait_res :=
| Exited (returncode : Z)
| TimedOut
| WaitErr (text : str).

(** One [<rule>] element of the build system's XML answer: its [name]
    attribute, and the [value] of its first [label] child named
    [linker_script] if it has such a child. *)
Record rule := { rule_name : str; rule_linker_script : option str }.

(** One row of the CSV report. *)
Record row := { Target : str; Status : status; Reason : str; Log_Path : str }.

(** The calls the script makes, over an abstract world [W].  Queries
    leave the world as it is; the other calls return the world they
    leave behind.  Nothing is assumed about how the world reacts, so a
    file may appear or vanish between two calls. *)
Class Sys (W : Type) := {
  (** [os.path.exists], [os.path.isdir], [os.path.abspath] *)
  sys_exists : str → W → bool;
  sys_isdir : str → W → bool;
  sys_abspath : str → W → str;
  (** [os.environ.get(name)] *)
  sys_getenv : str → W → option str;
  (** [os.walk(d)] as the list of its [(root, files)] *)
  sys_walk : str → W → list (str * list str);
  (** [datetime.datetime.now().strftime(...)] *)
  sys_timestamp : W → str;
  (** [os.remove], [shutil.copy2], [os.chmod(path, 0o755)],
      [os.makedirs(path, exist_ok=True)] *)
  sys_remove : str → W → res unit * W;
  sys_copy2 : str → str → W → res unit * W;
  sys_chmod : str → W → res unit * W;
  sys_makedirs : str → W → res unit * W;
  (** [with open(path, "w") as f: f.write(text)] *)
  sys_write_text : str → str → W → res unit * W;
  (** the [csv.DictWriter] block: header and rows *)
  sys_write_csv : str → list row → W → res unit * W;
  (** [shutil.make_archive(base, "zip", root)] *)
  sys_make_archive : str → str → W → res unit * W;
  (** [ELFFile(open(path, "rb")).header.e_entry] *)
  sys_elf_entry : str → W → res Z * W;
  (** [tempfile.TemporaryDirectory(prefix=...)]: entering and leaving *)
  sys_mkdtemp : str → W → res str * W;
  sys_rmtree : str → W → res unit * W;
  (** [subprocess.run(cmd, env=...)] without [check]: the return code,
      stdout and stderr of the finished child; the second argument
      lists the variables added to the environment *)
  sys_run : list str → list (str * str) → W → res (Z * str * str) * W;
  (** [ET.fromstring(text).findall('rule')] with, for each element,
      [attrib['name']] and the [attrib['value']] of
      [find("label[@name='linker_script']")]; an error is a text that
      does not parse or an element without one of these attributes
      (the loop of [get_targets] has no effect before it reads them) *)
  xml_rules : str → res (list rule);
  (** [open(path, "w")] and the [close] of leaving its [with] block *)
  sys_open_w : str → W → res unit * W;
  sys_close : str → W → res unit * W;
  (** [subprocess.Popen(cmd, ...)] giving the child's pid,
      [process.wait(timeout)], [os.getpgid], [os.killpg(pg, SIGTERM)] *)
  sys_popen : list str → str → W → res Z * W;
  sys_wait : Z → Z → W → wait_res * W;
  sys_getpgid : Z → W → res Z * W;
  sys_killpg : Z → W → res unit * W;
}.

(** ** The monad of the script: state and exceptions

    The state is the world together with two records of what the
    script has done so far: the command lines of the child processes
    it started, oldest first, and the reports it wrote. *)
Record state (W : Type) := mkState {
  world : W;
  spawned : list (list str);
  reports : list (list row);
}.
Arguments mkState {W} world spawned reports.
Arguments world {W} s.
Arguments spawned {W} s.
Arguments reports {W} s.

Definition with_world {W} (w : W) (s : state W) : state W :=
  mkState w (spawned s) (reports s).

Definition M (W A : Type) : Type := state W → outcome A * state W.

Definition ret {W A} (a : A) : M W A := fun s => (Ret a, s).

Definition raise {W A} (e : exn) : M W A := fun s => (Raise e, s).

Definition bind {W A B} (m : M W A) (k : A → M W B) : M W B :=
  fun s =>
    match m s with
    | (Ret a, s') => k a s'
    | (Raise e, s') => (Raise e, s')
    end.

(** The notations [x ← m; k] and [m;; k] are those of the monad classes. *)
Global Instance M_ret {W} : MRet (M W) := λ A a, ret a.
Global Instance M_bind {W} : MBind (M W) := λ A B k m, bind m k.

(** [try: m  except <class> as e: h e] *)
Definition try_except {W A} (catches : exn → bool) (m : M W A) (h : exn → M W A) : M W A :=
  fun s =>
    match m s with
    | (Ret a, s') => (Ret a, s')
    | (Raise e, s') => if catches e then h e s' else (Raise e, s')
    end.

(** A query of the world. *)
Definition ask {W A} (f : W → A) : M W A := fun s => (Ret (f (world s)), s).

(** A call that changes the world; its error is an [Exception]. *)
Definition call {W A} (f : W → res A * W) : M W A :=
  fun s =>
    match f (world s) with
    | (Ok a, w) => (Ret a, with_world w s)
    | (Err t, w) => (Raise (Exception t), with_world w s)
    end.

(** Starting a child process is recorded. *)
Definition record_spawn {W} (cmd : list str) : M W unit :=
  fun s => (Ret (), mkState (world s) (spawned s ++ [cmd]) (reports s)).

(** A report that has been written is recorded. *)
Definition record_report {W} (rows : list row) : M W unit :=
  fun s => (Ret (), mkState (world s) (spawned s) (reports s ++ [rows])).

(** [for x in xs: body x], with the results collected. *)
Fixpoint for_each {W A B} (xs : list A) (body : A → M W B) : M W (list B) :=
  match xs with
  | [] => ret []
  | x :: xs' => b ← body x; bs ← for_each xs' body; ret (b :: bs)
  end.

(** [if b: m] as a statement. *)
Definition when_ {W} (b : bool) (m : M W unit) : M W unit :=
  if b then m else ret ().

(** Truth of an optional text, and of an optional integer. *)
Definition truthy (t : option str) : bool :=
  match t with Some (_ :: _) => true | _ => false end.

Definition truthy_int (n : option Z) : bool :=
  match n with Some z => negb (z =? 0)%Z | None => false end.

(** ** The script *)

Arguments pystr s%_string.

(** Command-line arguments ([parse_arguments]). *)
Record args := {
  arg_limit : option Z;
  arg_target : option str;
  arg_list_targets : bool;
  arg_check_spike_timeouts : bool;
  arg_skip_riscv_tests : bool;
  arg_mpact_root : option str;
  arg_mpact_riscv_root : option str;
  arg_mpact_commit : option str;
  arg_mpact_riscv_commit : option str;
}.

(** The default linker script of a target: [f"{pkg}:{name}.ld"] with
    the package and name that [get_targets] extracts. *)
Definition expected_linker_script (target_name_full : str) : str :=
  let '(pkg, name) :=
    if contains [colon] target_name_full then
      let parts := split colon target_name_full in
      (default [] (parts !! 0%nat), default [] (parts !! 1%nat))
    else
      (target_name_full, default [] (last_item (split slash target_name_full))) in
  pkg ++ pystr ":" ++ name ++ pystr ".ld".

(** The [for rule in root.findall('rule')] loop of [get_targets]. *)
Fixpoint collect_targets (rules : list rule) (targets : list str) : list str :=
  match rules with
  | [] => targets
  | rule :: rest =>
      let target_name_full := rule_name rule in
      if bool_decide (target_name_full ∈ DENYLIST) then collect_targets rest targets
      else
        match rule_linker_script rule with
        | Some linker_script =>
            if bool_decide (linker_script = expected_linker_script target_name_full)
            then collect_targets rest (targets ++ [target_name_full])
            else collect_targets rest targets
        | None => collect_targets rest targets
        end
  end.

(** The [for line in lines] loop of [get_elf_source_path]. *)
Fixpoint first_elf_line (lines : list str) : option str :=
  match lines with
  | [] => None
  | line :: rest =>
      if endswith line (pystr ".elf") then Some (strip line) else first_elf_line rest
  end.

(** The body of the innermost loop of [get_riscv_test_artifacts]. *)
Definition riscv_file_artifact (root f : str) : option (str * str) :=
  if endswith f (pystr ".dump") then None
  else if startswith f (pystr "rv32") then
    let full_path := os_path_join root f in
    let name := f in
    let pseudo_target := pystr "//third_party/riscv-tests:" ++ name in
    if bool_decide (pseudo_target ∈ DENYLIST) then None
    else Some (pseudo_target, full_path)
  else None.

(** [target.replace('//', '').replace(':', '_').replace('/', '_')] *)
Definition safe_target_name (target : str) : str :=
  replace_char slash underscore
    (replace_char colon underscore (replace (pystr "//") [] target)).

Definition max_retries : nat := 3.

(** The query of [get_targets]. *)
Definition query_cmd : list str :=
  pystr <$> ["bazel"; "query"; "kind(coralnpu_v2_binary, //...)"; "--output=xml"]%string.

(** The command line of the reference simulator. *)
Definition spike_cmd (spike_bin elf_path : str) (entry_point : Z) : list str :=
  [ spike_bin; pystr "-m" ++ get_spike_memory_map_str; pystr "--isa=" ++ SPIKE_ISA;
    pystr "--misaligned"; pystr "-l"; pystr "--log-commits";
    pystr "--pc=" ++ str_of_int entry_point; elf_path ].

Section Script.
Context {W : Type} `{!Sys W}.

(** [subprocess.run(cmd, ..., check=..., env=...)].  The call is
    recorded, whether or not the child can be started.  With [check],
    a non-zero return code raises [CalledProcessError]; the script
    never reads the text of that error, which is left empty here. *)
Definition subprocess_run (cmd : list str) (env : list (str * str)) (check : bool)
  : M W (Z * str * str) :=
  record_spawn cmd;;
  r ← call (sys_run cmd env);
  if check && negb (r.1.1 =? 0)%Z then raise (CalledProcessError [])
  else ret r.

(** A [with] statement: [leave] runs however the body ends, and an
    exception of [leave] replaces the way the body ended. *)
Definition with_ {A B} (enter : M W A) (leave : A → M W unit) (body : A → M W B) : M W B :=
  a ← enter;
  λ s,
    match body a s with
    | (Ret b, s') =>
        match leave a s' with
        | (Ret _, s'') => (Ret b, s'')
        | (Raise e, s'') => (Raise e, s'')
        end
    | (Raise e, s') =>
        match leave a s' with
        | (Ret _, s'') => (Raise e, s'')
        | (Raise e', s'') => (Raise e', s'')
        end
    end.

Definition get_targets (limit : option Z) (target : option str) : M W (list str) :=
  if truthy target then ret [default [] target]
  else
    let cmd := query_cmd in
    result ← subprocess_run cmd [] true;
    root ← call (λ w, (xml_rules result.1.2, w));
    let targets := collect_targets root [] in
    let targets := sorted_str targets in
    if truthy_int limit then ret (slice_to (default 0%Z limit) targets)
    else ret targets.

Definition build_targets (targets : list str) : M W bool :=
  let cmd := (pystr <$> ["bazel"; "build"]%string) ++ targets in
  try_except is_CalledProcessError
    (subprocess_run cmd [] true;; ret true)
    (λ _, ret false).

Definition get_elf_source_path (target : str) : M W (option str) :=
  let cmd := (pystr <$> ["bazel"; "cquery"; "--output=files"]%string) ++ [target] in
  try_except is_CalledProcessError
    (result ← subprocess_run cmd [] true;
     let lines := split nl (strip result.1.2) in
     ret (first_elf_line lines))
    (λ _, ret None).

Definition get_entry_point (elf_path : str) : M W Z :=
  try_except is_Exception (call (sys_elf_entry elf_path)) (λ _, ret 0%Z).

Definition build_simulator (mpact_root : str) (mpact_riscv_root : option str) : M W bool :=
  let env :=
    [(pystr "CORALNPU_MPACT", mpact_root)] ++
    (if truthy mpact_riscv_root
     then [(pystr "CORALNPU_MPACT_RISCV", default [] mpact_riscv_root)] else []) in
  let cmd := pystr <$> ["make"; "-C"; "tests/uvm"; "compile"]%string in
  try_except is_CalledProcessError
    (subprocess_run cmd env true;; ret true)
    (λ _, ret false).

Definition build_spike : M W (option str) :=
  let cmd := pystr <$> ["bazel"; "build"; "@riscv_isa_sim//:riscv_isa_sim"]%string in
  try_except is_CalledProcessError
    (subprocess_run cmd [] true;;
     p ← ask (sys_abspath (pystr "bazel-bin/external/riscv_isa_sim/riscv_isa_sim/bin/spike"));
     ret (Some p))
    (λ _, ret None).

(** [process.wait(timeout=...)] *)
Definition process_wait (pid timeout : Z) : M W Z :=
  λ s,
    match sys_wait pid timeout (world s) with
    | (Exited rc, w) => (Ret rc, with_world w s)
    | (TimedOut, w) => (Raise (TimeoutExpired []), with_world w s)
    | (WaitErr t, w) => (Raise (Exception t), with_world w s)
    end.

(** The body of the [with open(log_path, 'w')] block of
    [generate_spike_log]: [Some b] is a [return b] inside the block,
    [None] is reaching its end. *)
Definition spike_with_body (cmd : list str) (log_path : str) (timeout : Z)
  : M W (option bool) :=
  record_spawn cmd;;
  process ← call (sys_popen cmd log_path);
  r ← try_except is_TimeoutExpired
        (rc ← process_wait process timeout; ret (inr rc))
        (λ _,
           pg ← call (sys_getpgid process);
           call (sys_killpg pg);;
           process_wait process 5%Z;;
           ret (inl false));
  match r with
  | inl b => ret (Some b)
  | inr returncode =>
      if negb (returncode =? 0)%Z then ret (Some false) else ret None
  end.

(** [generate_spike_log].  The statements before the [try] (a log line
    and the command line) cannot raise for an integer entry point. *)
Definition generate_spike_log (spike_bin elf_path log_path : str)
    (entry_point timeout : Z) : M W bool :=
  let cmd := spike_cmd spike_bin elf_path entry_point in
  try_except is_Exception
    (r ← with_ (call (sys_open_w log_path)) (λ _, call (sys_close log_path))
           (λ _, spike_with_body cmd log_path timeout);
     match r with
     | Some b => ret b
     | None => ret true
     end)
    (λ _, ret false).

(** The retry loop of [run_uvm] over [range(1, max_retries + 1)].
    [last] holds the variables [result] and [output] of the previous
    iteration; the answer is [inl] for the [return] of the exception
    handler and [inr] for leaving the loop. *)
Fixpoint attempt_loop (cmd : list str) (env : list (str * str))
    (range : list nat) (last : option (Z * str))
  : M W (result + option (Z * str)) :=
  match range with
  | [] => ret (inr last)
  | attempt :: rest =>
      r ← try_except is_Exception
            (result ← subprocess_run cmd env false; ret (inr result))
            (λ e, ret (inl e));
      match r with
      | inl e => ret (inl (EXEC_FAIL, exn_text e, []))
      | inr (returncode, stdout, stderr) =>
          let output := stdout ++ stderr in
          if negb (returncode =? 0)%Z && contains (pystr "1-800-VERILOG") output then
            if (attempt <? max_retries)%nat
            then attempt_loop cmd env rest (Some (returncode, output))
            else ret (inr (Some (returncode, output)))
          else ret (inr (Some (returncode, output)))
      end
  end.

(** The command line of the device simulator; the world is asked
    for absolute paths. *)
Definition uvm_cmd (w : W) (elf_path : str) (spike_log_path target : option str) : list str :=
  let abs_elf_path := sys_abspath elf_path w in
  let cmd :=
    (pystr <$> ["make"; "-C"; "tests/uvm"; "run"; "UVM_VERBOSITY=UVM_HIGH"]%string)
    ++ [pystr "TEST_ELF=" ++ abs_elf_path] in
  let cmd :=
    match (if truthy target then TIMEOUT_MAP !! default [] target else None) with
    | Some timeout_ns => cmd ++ [pystr "TEST_TIMEOUT_NS=" ++ str_of_int timeout_ns]
    | None => cmd
    end in
  if truthy spike_log_path
  then cmd ++ [pystr "SPIKE_LOG=" ++ sys_abspath (default [] spike_log_path) w]
  else cmd.

(** [run_uvm].  The [try] around the classification has nothing to
    catch: [classify] is total.  A loop that ends with [result]
    unbound (which three attempts never do) would raise inside that
    [try]. *)
Definition run_uvm (elf_path : str) (spike_log_path target : option str)
    (mpact_root : str) : M W result :=
  found ← ask (sys_exists elf_path);
  if negb found then
    ret (BUILD_ARTIFACT_MISSING, pystr "ELF file not found", [])
  else
    let env := [(pystr "CORALNPU_MPACT", mpact_root)] in
    cmd ← ask (λ w, uvm_cmd w elf_path spike_log_path target);
    r ← attempt_loop cmd env (seq 1 max_retries) None;
    match r with
    | inl exec_fail => ret exec_fail
    | inr (Some (returncode, output)) => ret (classify returncode output)
    | inr None =>
        ret (EXEC_FAIL, pystr "local variable 'output' referenced before assignment", [])
    end.

Definition get_riscv_test_artifacts : M W (list (str * str)) :=
  let target := pystr "//third_party/riscv-tests:all_files" in
  let cmd := [pystr "bazel"; pystr "cquery"; target; pystr "--output=files"] in
  r ← try_except is_CalledProcessError
        (result ← subprocess_run cmd [] true; ret (Some result))
        (λ _, ret None);
  match r with
  | None => ret []
  | Some result =>
      let dirs := split nl (strip result.1.2) in
      w ← ask id;
      let artifacts :=
        d ← dirs;
        let d := strip d in
        if negb (sys_isdir d w) then []
        else
          '(root, files) ← sys_walk d w;
          omap (riscv_file_artifact root) files in
      ret (sorted_pairs artifacts)
  end.

(** The loop of [prepare_tests] over the standard targets. *)
Fixpoint resolve_standard (target : option str) (standard_targets : list str)
    (tests_to_run : list (str * str)) : M W (list (str * str)) :=
  match standard_targets with
  | [] => ret tests_to_run
  | t :: rest =>
      if truthy target && negb (bool_decide (default [] target = t))
      then resolve_standard target rest tests_to_run
      else
        elf ← get_elf_source_path t;
        if truthy elf
        then resolve_standard target rest (tests_to_run ++ [(t, default [] elf)])
        else resolve_standard target rest tests_to_run
  end.

Definition prepare_tests (a : args) (standard_targets : list str)
  : M W (list (str * str)) :=
  let real_targets :=
    filter (λ t, ¬ startswith t (pystr "//third_party/riscv-tests:")) standard_targets in
  let targets_to_build :=
    if negb (arg_skip_riscv_tests a)
    then real_targets ++ [pystr "//third_party/riscv-tests:all_files"]
    else real_targets in
  build_targets targets_to_build;;
  tests_to_run ←
    (if negb (arg_skip_riscv_tests a) then
       riscv_tests ← get_riscv_test_artifacts;
       ret (filter (λ p : str * str,
                      ¬ (truthy (arg_target a) ∧ default [] (arg_target a) ≠ p.1))
              riscv_tests)
     else ret []);
  tests_to_run ← resolve_standard (arg_target a) standard_targets tests_to_run;
  if truthy_int (arg_limit a)
  then ret (slice_to (default 0%Z (arg_limit a)) tests_to_run)
  else ret tests_to_run.

(** What the two loops over the test cases do with the artifact of
    one test case before the simulators run: a fresh copy in the
    temporary directory, made executable. *)
Definition copy_artifact (src_elf dest_elf : str) : M W unit :=
  stale ← ask (sys_exists dest_elf);
  when_ stale (call (sys_remove dest_elf));;
  call (sys_copy2 src_elf dest_elf);;
  call (sys_chmod dest_elf).

(** The [if spike_bin:] block of [run_full_regression], giving
    [spike_log_path]. *)
Definition spike_stage (spike_bin target safe_name elf_to_run temp_elf_dir logs_dir : str)
    (entry_point : Z) : M W (option str) :=
  if truthy (Some spike_bin) then
    if bool_decide (target ∈ SPIKE_DENYLIST) then ret None
    else
      let spike_log_name := safe_name ++ pystr ".spike.log" in
      let temp_spike_log := os_path_join temp_elf_dir spike_log_name in
      stale ← ask (sys_exists temp_spike_log);
      when_ stale (call (sys_remove temp_spike_log));;
      spike_ok ← generate_spike_log spike_bin elf_to_run temp_spike_log entry_point 30%Z;
      written ← ask (sys_exists temp_spike_log);
      if (written : bool) then
        let dest_name := if (spike_ok : bool) then spike_log_name else spike_log_name ++ pystr ".fail" in
        call (sys_copy2 temp_spike_log (os_path_join logs_dir dest_name));;
        ret (if spike_ok then Some temp_spike_log else None)
      else ret None
  else ret None.

(** One iteration of the loop of [run_full_regression], up to the
    values of [status], [reason] and [log]. *)
Definition process_test (spike_bin mpact_root temp_elf_dir logs_dir : str)
    (test : str * str) : M W result :=
  let '(target, src_elf) := test in
  found ← (if truthy (Some src_elf) then ask (sys_exists src_elf) else ret false);
  if (found : bool) then
    let safe_name := safe_target_name target ++ pystr ".elf" in
    let dest_elf := os_path_join temp_elf_dir safe_name in
    try_except is_Exception
      (copy_artifact src_elf dest_elf;;
       let elf_to_run := dest_elf in
       entry_point ← get_entry_point elf_to_run;
       spike_log_path ←
         spike_stage spike_bin target safe_name elf_to_run temp_elf_dir logs_dir entry_point;
       run_uvm elf_to_run spike_log_path (Some target) mpact_root)
      (λ e, ret (FAIL, pystr "Copy/Setup failed: " ++ exn_text e, exn_text e))
  else
    ret (FAIL, pystr "ELF source not found (Build failed?)", []).

(** The loop of [run_full_regression]: [results] is the list of rows
    and [last_status] the variable [status], unbound ([None]) until
    the first test case is processed. *)
Fixpoint regression_loop (spike_bin mpact_root temp_elf_dir logs_dir : str)
    (tests_to_run : list (str * str)) (results : list row) (last_status : option status)
  : M W (list row * option status) :=
  match tests_to_run with
  | [] => ret (results, last_status)
  | test :: rest =>
      '(status', reason, log) ← process_test spike_bin mpact_root temp_elf_dir logs_dir test;
      let log_filename := safe_target_name test.1 ++ pystr ".log" in
      let log_path := os_path_join logs_dir log_filename in
      call (sys_write_text log_path log);;
      let results := results ++ [
        {| Target := test.1; Status := status'; Reason := reason;
           Log_Path := os_path_join (pystr "logs") log_filename |} ] in
      regression_loop spike_bin mpact_root temp_elf_dir logs_dir rest results (Some status')
  end.

Definition run_full_regression (tests_to_run : list (str * str)) (spike_bin mpact_root : str)
    (mpact_riscv_root : option str) (temp_elf_dir : str) : M W unit :=
  built ← build_simulator mpact_root mpact_riscv_root;
  if negb built then raise (SystemExit 1)
  else
    timestamp ← ask sys_timestamp;
    let output_dir := pystr "uvm_regression_" ++ timestamp in
    let logs_dir := os_path_join output_dir (pystr "logs") in
    call (sys_makedirs logs_dir);;
    '(results, status) ←
      regression_loop spike_bin mpact_root temp_elf_dir logs_dir tests_to_run [] None;
    let csv_file := os_path_join output_dir (pystr "uvm_results.csv") in
    call (sys_write_csv csv_file results);;
    record_report results;;
    let zip_filename := output_dir in
    call (sys_make_archive zip_filename output_dir);;
    match status with
    | None => raise (Exception (pystr "local variable 'status' referenced before assignment"))
    | Some FAIL => raise (SystemExit 1)
    | Some _ => ret ()
    end.

(** The loop of [run_spike_timeout_check], giving [failed_targets]. *)
Fixpoint spike_check_loop (spike_bin temp_elf_dir : str) (tests_to_run : list (str * str))
    (failed_targets : list str) : M W (list str) :=
  match tests_to_run with
  | [] => ret failed_targets
  | (target, src_elf) :: rest =>
      found ← (if truthy (Some src_elf) then ask (sys_exists src_elf) else ret false);
      if (found : bool) then
        let safe_name := safe_target_name target ++ pystr ".elf" in
        let dest_elf := os_path_join temp_elf_dir safe_name in
        failed ← try_except is_Exception
          (copy_artifact src_elf dest_elf;;
           entry_point ← get_entry_point dest_elf;
           let temp_spike_log := os_path_join temp_elf_dir (safe_name ++ pystr ".spike.log") in
           ok ← generate_spike_log spike_bin dest_elf temp_spike_log entry_point 10%Z;
           ret (negb ok))
          (λ _, ret true);
        spike_check_loop spike_bin temp_elf_dir rest
          (if (failed : bool) then failed_targets ++ [target] else failed_targets)
      else spike_check_loop spike_bin temp_elf_dir rest failed_targets
  end.

Definition run_spike_timeout_check (tests_to_run : list (str * str))
    (spike_bin temp_elf_dir : str) : M W unit :=
  spike_check_loop spike_bin temp_elf_dir tests_to_run [];;
  ret ().

Definition checkout_git_commit (repo_root commit : str) : M W unit :=
  is_repo ← ask (sys_isdir (os_path_join repo_root (pystr ".git")));
  if negb is_repo then raise (SystemExit 1)
  else
    try_except is_CalledProcessError
      (subprocess_run [pystr "git"; pystr "-C"; repo_root; pystr "fetch"] [] true;;
       subprocess_run [pystr "git"; pystr "-C"; repo_root; pystr "checkout"; commit] [] true;;
       ret ())
      (λ _, raise (SystemExit 1)).

Definition get_mpact_configs (a : args) : M W (str * option str) :=
  mpact_root ←
    (if truthy (arg_mpact_root a) then ask (sys_abspath (default [] (arg_mpact_root a)))
     else v ← ask (sys_getenv (pystr "CORALNPU_MPACT"));
          ret (default (pystr "/tmp/copybara-mpact") v));
  mpact_riscv_root ←
    (if truthy (arg_mpact_riscv_root a)
     then p ← ask (sys_abspath (default [] (arg_mpact_riscv_root a))); ret (Some p)
     else ask (sys_getenv (pystr "CORALNPU_MPACT_RISCV")));
  ret (mpact_root, mpact_riscv_root).

(** [main] after [parse_arguments]. *)
Definition main (a : args) : M W unit :=
  '(mpact_root, mpact_riscv_root) ← get_mpact_configs a;
  when_ (truthy (arg_mpact_commit a))
    (checkout_git_commit mpact_root (default [] (arg_mpact_commit a)));;
  when_ (truthy (arg_mpact_riscv_commit a) && truthy mpact_riscv_root)
    (checkout_git_commit (default [] mpact_riscv_root)
       (default [] (arg_mpact_riscv_commit a)));;
  standard_targets ← get_targets (arg_limit a) (arg_target a);
  if arg_list_targets a then ret ()
  else
    tests_to_run ← prepare_tests a standard_targets;
    spike_bin ← build_spike;
    usable ← (if truthy spike_bin then ask (sys_exists (default [] spike_bin)) else ret false);
    if negb usable then raise (SystemExit 1)
    else
      let spike_bin := default [] spike_bin in
      with_ (call (sys_mkdtemp (pystr "uvm_reg_"))) (λ d, call (sys_rmtree d))
        (λ temp_elf_dir,
           if arg_check_spike_timeouts a
           then run_spike_timeout_check tests_to_run spike_bin temp_elf_dir
           else run_full_regression tests_to_run spike_bin mpact_root mpact_riscv_root
                  temp_elf_dir).

End Script.

(** The exit status of the process for the way [main] ends: a normal
    return is 0, [sys.exit(n)] is [n], an uncaught exception is 1. *)
Definition exit_status (o : outcome unit) : Z :=
  match o with
  | Ret _ => 0
  | Raise (SystemExit code) => code
  | Raise _ => 1
  end.

(** ** A scripted world

    A small instance of [Sys] on which the script can be run: the set
    of existing paths, and the answers of the child processes in the
    order in which they are started.  It serves the worked examples;
    the general statements hold in every instance. *)
Record scenario := {
  sc_rules : list rule;
  sc_walk : list (str * list (str * list str));
  sc_copy_error : str → option str;
}.

Record sim_world := mkSim {
  sim_files : list str;
  sim_runs : list (res (Z * str * str));
  sim_waits : list wait_res;
}.

Fixpoint assoc {A} (k : str) (l : list (str * A)) : option A :=
  match l with
  | [] => None
  | (k', a) :: l' => if bool_decide (k' = k) then Some a else assoc k l'
  end.

Definition sim_add (p : str) (w : sim_world) : sim_world :=
  mkSim (p :: sim_files w) (sim_runs w) (sim_waits w).

Definition sim_sys (sc : scenario) : Sys sim_world := {|
  sys_exists p w := bool_decide (p ∈ sim_files w);
  sys_isdir d w := bool_decide (d ∈ (sc_walk sc).*1);
  sys_abspath p w := if startswith p [slash] then p else pystr "/w/" ++ p;
  sys_getenv _ _ := None;
  sys_walk d w := default [] (assoc d (sc_walk sc));
  sys_timestamp _ := pystr "20260101_000000";
  sys_remove p w :=
    (Ok (), mkSim (filter (λ q, q ≠ p) (sim_files w)) (sim_runs w) (sim_waits w));
  sys_copy2 a b w :=
    match sc_copy_error sc a with
    | Some t => (Err t, w)
    | None => (Ok (), sim_add b w)
    end;
  sys_chmod _ w := (Ok (), w);
  sys_makedirs _ w := (Ok (), w);
  sys_write_text p _ w := (Ok (), sim_add p w);
  sys_write_csv p _ w := (Ok (), sim_add p w);
  sys_make_archive _ _ w := (Ok (), w);
  sys_elf_entry _ w := (Ok 0%Z, w);
  sys_mkdtemp prefix w := (Ok (pystr "/tmp/" ++ prefix), w);
  sys_rmtree _ w := (Ok (), w);
  sys_run _ _ w :=
    match sim_runs w with
    | r :: rest => (r, mkSim (sim_files w) rest (sim_waits w))
    | [] => (Ok (0%Z, [], []), w)
    end;
  xml_rules _ := Ok (sc_rules sc);
  sys_open_w p w := (Ok (), sim_add p w);
  sys_close _ w := (Ok (), w);
  sys_popen _ _ w := (Ok 4242%Z, w);
  sys_wait _ _ w :=
    match sim_waits w with
    | r :: rest => (r, mkSim (sim_files w) (sim_runs w) rest)
    | [] => (Exited 0, w)
    end;
  sys_getpgid pid w := (Ok pid, w);
  sys_killpg _ w := (Ok (), w);
|}.

Definition no_copy_error : str → option str := λ _, None.

(** ** The classifier read line by line

    The specification describes the search of [run_uvm] as a scan of
    the lines of the output.  The definitions below follow that
    description and do not mention regular expressions; that they agree
    with [uvm_err] is proved further down. *)

(** The text of a line up to its end, and what follows (the newline
    included). *)
Fixpoint line_head (t : str) : str :=
  match t with
  | c :: t' => if c =? nl then [] else c :: line_head t'
  | [] => []
  end.

Fixpoint line_tail (t : str) : str :=
  match t with
  | c :: t' => if c =? nl then t else line_tail t'
  | [] => []
  end.

(** What follows the error or fatal marker, for a text that starts
    with it. *)
Definition after_marker (t : str) : option str :=
  match strip_prefix (pystr "UVM_FATAL") t with
  | Some x => Some x
  | None => strip_prefix (pystr "UVM_ERROR") t
  end.

(** Only whitespace up to the end of the line. *)
Fixpoint blank_to_eol (t : str) : bool :=
  match t with
  | [] => true
  | c :: t' => (c =? nl) || (is_space c && blank_to_eol t')
  end.

(** After a colon: whitespace, then [0], then only whitespace up to
    the end of a line. *)
Definition zero_after_colon (t : str) : bool :=
  match t with
  | c :: _ =>
      is_space c &&
      match lstrip t with
      | z :: b => (z =? 48) && blank_to_eol b
      | [] => false
      end
  | [] => false
  end.

(** The text, from some colon of its first line on, reports a zero
    count. *)
Fixpoint zero_count (t : str) : bool :=
  match t with
  | [] => false
  | c :: t' => ((c =? colon) && zero_after_colon t') || (negb (c =? nl) && zero_count t')
  end.

(** The text that follows a line: each later line after its newline. *)
Definition following (rest : list str) : str :=
  concat ((λ l, nl :: l) <$> rest).

(** The first line that, after its leading whitespace, starts with the
    marker and does not report a zero count. *)
Fixpoint first_error_line (lines : list str) : option str :=
  match lines with
  | [] => None
  | l :: rest =>
      match after_marker (lstrip l) with
      | Some x =>
          if zero_count (x ++ following rest) then first_error_line rest
          else Some l
      | None => first_error_line rest
      end
  end.

(** *** The classifier as the specification words it

    Section 4.5 of the specification, read literally: an error line is
    a line that contains the marker and whose trailing count is not
    zero; and the reason of the fallback is the last line of the output
    that is not empty. *)
Definition spec_error_line (l : str) : bool :=
  (contains (pystr "UVM_FATAL") l || contains (pystr "UVM_ERROR") l)
  && negb (zero_count l).

Definition spec_first_error_line (output : str) : option str :=
  snd <$> list_find (λ l, spec_error_line l = true) (split nl output).

Definition spec_last_nonempty_line (output : str) : option str :=
  last (filter (λ l, l ≠ []) (split nl output)).

Definition spec_classify (returncode : Z) (output : str) : status * str :=
  match spec_first_error_line output with
  | Some l => (FAIL, strip l)
  | None =>
      if (returncode =? 0)%Z then (PASS, pystr "None")
      else if contains (pystr "AXI_DECERR") output then (FAIL, pystr "decode error detected")
      else (FAIL, default (pystr "Unknown") (spec_last_nonempty_line output))
  end.

(** ** Reading an attempt of the runner

    What the answer of one start of the simulator means for the retry
    loop of [run_uvm]: whether another attempt follows (when this is
    not the last one), how the loop ends otherwise, and the result
    that [run_uvm] then returns. *)
Definition retryable (o : res (Z * str * str)) : bool :=
  match o with
  | Ok (returncode, stdout, stderr) =>
      negb (returncode =? 0)%Z && contains (pystr "1-800-VERILOG") (stdout ++ stderr)
  | Err _ => false
  end.

Definition attempt_end (o : res (Z * str * str)) : result + option (Z * str) :=
  match o with
  | Ok (returncode, stdout, stderr) => inr (Some (returncode, stdout ++ stderr))
  | Err t => inl (EXEC_FAIL, t, [])
  end.

Definition attempt_result (o : res (Z * str * str)) : result :=
  match o with
  | Ok (returncode, stdout, stderr) => classify returncode (stdout ++ stderr)
  | Err t => (EXEC_FAIL, t, [])
  end.

(** ** Reading a run of the reference simulator

    The one way for [generate_spike_log] to succeed: the log opens,
    the child starts, it exits by itself within the timeout with
    return code 0, and the log closes. *)
Definition spike_succeeds {W} `{!Sys W} (w : W) (cmd : list str) (log_path : str)
    (timeout : Z) : bool :=
  match sys_open_w log_path w with
  | (Ok _, w1) =>
      match sys_popen cmd log_path w1 with
      | (Ok pid, w2) =>
          match sys_wait pid timeout w2 with
          | (Exited returncode, w3) =>
              match sys_close log_path w3 with
              | (Ok _, _) => (returncode =? 0)%Z
              | (Err _, _) => false
              end
          | _ => false
          end
      | (Err _, _) => false
      end
  | (Err _, _) => false
  end.

(** ** Reading the build graph

    The entries that the catalog is specified to keep: not denylisted,
    and declaring the default linker script. *)
Definition kept (r : rule) : Prop :=
  (rule_name r ∉ DENYLIST)
  ∧ rule_linker_script r = Some (expected_linker_script (rule_name r)).

(** ** Frame conditions

    A computation keeps the reports when it leaves the record of the
    written reports as it found it, however it ends. *)
Definition keeps_reports {W A} (m : M W A) : Prop :=
  ∀ s, reports (m s).2 = reports s.

(** ** Worked runs on the scripted world *)

Definition default_args : args := {|
  arg_limit := None; arg_target := None; arg_list_targets := false;
  arg_check_spike_timeouts := false; arg_skip_riscv_tests := false;
  arg_mpact_root := None; arg_mpact_riscv_root := None;
  arg_mpact_commit := None; arg_mpact_riscv_commit := None |}.

Definition spike_path : str :=
  pystr "/w/bazel-bin/external/riscv_isa_sim/riscv_isa_sim/bin/spike".

Definition zero_summary : str := pystr "UVM_ERROR :    0" ++ [nl].

(** An output with nothing but zero counts after the marker. *)
Definition zero_summary_output : str :=
  pystr "UVM_INFO ok" ++ [nl] ++ pystr "UVM_ERROR :    0" ++ [nl]
  ++ pystr "UVM_FATAL :    0" ++ [nl].

(** *** A run with a failed build

    The build graph has three targets with the default linker script
    ([//t:a], [//t:b], [//t:c]), one with another script, one without
    the attribute and one that is denylisted; the conformance suite
    has one test, one denylisted test and a dump.  The build fails in
    part: the artifact of [//t:a] is missing and no artifact is listed
    for [//t:c].  The simulator passes the tests it is given. *)
Definition failed_build : scenario := {|
  sc_rules := [
    {| rule_name := pystr "//t:b"; rule_linker_script := Some (pystr "//t:b.ld") |};
    {| rule_name := pystr "//t:a"; rule_linker_script := Some (pystr "//t:a.ld") |};
    {| rule_name := pystr "//t:c"; rule_linker_script := Some (pystr "//t:c.ld") |};
    {| rule_name := pystr "//t:custom"; rule_linker_script := Some (pystr "//t:other.ld") |};
    {| rule_name := pystr "//tests/cocotb:vector_store";
       rule_linker_script := Some (pystr "//tests/cocotb:vector_store.ld") |};
    {| rule_name := pystr "//t:plain"; rule_linker_script := None |} ];
  sc_walk := [
    (pystr "/out/riscv",
     [(pystr "/out/riscv",
       [pystr "rv32ui-p-add"; pystr "rv32ui-p-fence_i"; pystr "rv32ui-p-add.dump"])]) ];
  sc_copy_error := no_copy_error |}.

Definition failed_build_start : state sim_world :=
  mkState
    (mkSim
       [pystr "/out/riscv/rv32ui-p-add"; pystr "/out/b.elf"; spike_path]
       [ Ok (0%Z, pystr "<query>", []);                     (* bazel query *)
         Ok (1%Z, [], pystr "ERROR: build failed");         (* bazel build *)
         Ok (0%Z, pystr "/out/riscv" ++ [nl], []);          (* cquery all_files *)
         Ok (0%Z, pystr "/out/a.elf" ++ [nl], []);          (* cquery //t:a *)
         Ok (0%Z, pystr "/out/b.elf" ++ [nl], []);          (* cquery //t:b *)
         Ok (0%Z, pystr "/out/c.map" ++ [nl], []);          (* cquery //t:c *)
         Ok (0%Z, [], []);                                  (* bazel build spike *)
         Ok (0%Z, [], []);                                  (* make compile *)
         Ok (0%Z, zero_summary, []);                        (* make run rv32ui-p-add *)
         Ok (0%Z, zero_summary, []) ]                       (* make run //t:b *)
       [])
    [] [].

Definition failed_build_rows : list row := [
  {| Target := pystr "//third_party/riscv-tests:rv32ui-p-add"; Status := PASS;
     Reason := pystr "None"; Log_Path := pystr "logs/third_party_riscv-tests_rv32ui-p-add.log" |};
  {| Target := pystr "//t:a"; Status := FAIL;
     Reason := pystr "ELF source not found (Build failed?)";
     Log_Path := pystr "logs/t_a.log" |};
  {| Target := pystr "//t:b"; Status := PASS;
     Reason := pystr "None"; Log_Path := pystr "logs/t_b.log" |} ].

(** *** A run with nothing to test

    [--target //t:a --skip-riscv-tests] when the build of the target
    fails and no artifact is listed for it. *)
Definition nothing_to_test_args : args := {|
  arg_limit := None; arg_target := Some (pystr "//t:a"); arg_list_targets := false;
  arg_check_spike_timeouts := false; arg_skip_riscv_tests := true;
  arg_mpact_root := None; arg_mpact_riscv_root := None;
  arg_mpact_commit := None; arg_mpact_riscv_commit := None |}.

Definition nothing_to_test_start : state sim_world :=
  mkState
    (mkSim [spike_path]
       [ Ok (1%Z, [], pystr "ERROR: build failed");         (* bazel build *)
         Ok (0%Z, [], []);                                  (* cquery //t:a *)
         Ok (0%Z, [], []);                                  (* bazel build spike *)
         Ok (0%Z, [], []) ]                                 (* make compile *)
       [])
    [] [].

(** *** A run with an artifact that cannot be copied

    The conformance suite has one test, in a file whose name has a
    comma; copying it fails. *)
Definition copy_error_text : str :=
  pystr "[Errno 13] Permission denied: '/out/riscv/rv32ui-p-a,b'".

Definition unreadable_artifact : scenario := {|
  sc_rules := [];
  sc_walk := [ (pystr "/out/riscv", [(pystr "/out/riscv", [pystr "rv32ui-p-a,b"])]) ];
  sc_copy_error := λ p,
    if bool_decide (p = pystr "/out/riscv/rv32ui-p-a,b") then Some copy_error_text else None |}.

Definition unreadable_artifact_start : state sim_world :=
  mkState
    (mkSim [pystr "/out/riscv/rv32ui-p-a,b"; spike_path]
       [ Ok (0%Z, pystr "<query>", []);                     (* bazel query *)
         Ok (0%Z, [], []);                                  (* bazel build *)
         Ok (0%Z, pystr "/out/riscv" ++ [nl], []);          (* cquery all_files *)
         Ok (0%Z, [], []);                                  (* bazel build spike *)
         Ok (0%Z, [], []) ]                                 (* make compile *)
       [])
    [] [].

(** *** Runs of the simulation runner alone *)

(** Three attempts that all end with the license marker. *)
Definition license_failure : res (Z * str * str) :=
  Ok (1%Z, pystr "Failed to obtain license, call 1-800-VERILOG" ++ [nl], []).

Definition license_start : state sim_world :=
  mkState
    (mkSim [pystr "/tmp/t.elf"] [license_failure; license_failure; license_failure] [])
    [] [].

(** A world in which the build system lists no executable image. *)
Definition unresolved_start : state sim_world :=
  mkState (mkSim [] [Ok (0%Z, pystr "/out/c.map" ++ [nl], [])] []) [] [].

(** ** More frame conditions

    A computation does not exit when every exception it raises is an
    [Exception], which an [except Exception] clause catches.  It starts
    only [P] when every child process it starts has a command line in
    [P]. *)
Definition no_exit {W A} (m : M W A) : Prop :=
  ∀ s e s', m s = (Raise e, s') → is_Exception e = true.

Definition spawns_only {W A} (P : list str → Prop) (m : M W A) : Prop :=
  ∀ s, ∃ cmds, spawned (m s).2 = spawned s ++ cmds ∧ Forall P cmds.

Global Instance kept_dec r : Decision (kept r).
Proof. unfold kept. apply _. Defined.

(** The kinds of child processes that the script starts. *)
Definition is_git (cmd : list str) : Prop := head cmd = Some (pystr "git").

Definition is_bazel (cmd : list str) : Prop := head cmd = Some (pystr "bazel").

(** A use of the makefile of the device simulator, to build it or to
    run it: [make -C tests/uvm ...]. *)
Definition is_uvm_make (cmd : list str) : Prop :=
  take 3 cmd = pystr <$> ["make"; "-C"; "tests/uvm"]%string.

(** A start of the reference simulator [spike_bin]. *)
Definition is_spike_run (spike_bin : str) (cmd : list str) : Prop :=
  ∃ elf_path entry_point, cmd = spike_cmd spike_bin elf_path entry_point.

(** The arguments of a run of the timeout check, and of a listing. *)
Definition check_spike_timeouts_args : args :=
  {| arg_limit := None; arg_target := None; arg_list_targets := false;
     arg_check_spike_timeouts := true; arg_skip_riscv_tests := false;
     arg_mpact_root := None; arg_mpact_riscv_root := None;
     arg_mpact_commit := None; arg_mpact_riscv_commit := None |}.

Definition list_targets_args : args :=
  {| arg_limit := None; arg_target := None; arg_list_targets := true;
     arg_check_spike_timeouts := false; arg_skip_riscv_tests := false;
     arg_mpact_root := None; arg_mpact_riscv_root := None;
     arg_mpact_commit := None; arg_mpact_riscv_commit := None |}.

(** A computation exits with [code] only when every [sys.exit] that
    ends it has that status. *)
Definition exits_with (code : Z) {W A} (m : M W A) : Prop :=
  ∀ s c s', m s = (Raise (SystemExit c), s') → c = code.

(** *** A run of one target

    [--target //t:b --skip-riscv-tests]: the target builds, its
    artifact is there and the simulator passes it. *)
Definition single_target_args : args :=
  {| arg_limit := None; arg_target := Some (pystr "//t:b"); arg_list_targets := false;
     arg_check_spike_timeouts := false; arg_skip_riscv_tests := true;
     arg_mpact_root := None; arg_mpact_riscv_root := None;
     arg_mpact_commit := None; arg_mpact_riscv_commit := None |}.

Definition single_target_start : state sim_world :=
  mkState
    (mkSim [pystr "/out/b.elf"; spike_path]
       [ Ok (0%Z, [], []);                                  (* bazel build *)
         Ok (0%Z, pystr "/out/b.elf" ++ [nl], []);          (* cquery //t:b *)
         Ok (0%Z, [], []);                                  (* bazel build spike *)
         Ok (0%Z, [], []);                                  (* make compile *)
         Ok (0%Z, zero_summary, []) ]                       (* make run //t:b *)
       [])
    [] [].

(** The run with a failed build, limited to two test cases. *)
Definition limit_two_args : args :=
  {| arg_limit := Some 2%Z; arg_target := None; arg_list_targets := false;
     arg_check_spike_timeouts := false; arg_skip_riscv_tests := false;
     arg_mpact_root := None; arg_mpact_riscv_root := None;
     arg_mpact_commit := None; arg_mpact_riscv_commit := None |}.

(** *** Worlds for single steps *)

(** The build system lists the directory of the conformance suite. *)
Definition suite_scan_start : state sim_world :=
  mkState (mkSim [] [Ok (0%Z, pystr "/out/riscv" ++ [nl], [])] []) [] [].

(** The build system lists an executable image. *)
Definition resolved_start : state sim_world :=
  mkState (mkSim [] [Ok (0%Z, pystr "/out/b.elf" ++ [nl], [])] []) [] [].

(** A checkout [/m] of the simulator sources, in which [git fetch]
    works and [git checkout] fails. *)
Definition git_repo : scenario := {|
  sc_rules := [];
  sc_walk := [ (pystr "/m/.git", []) ];
  sc_copy_error := no_copy_error |}.

Definition checkout_fails_start : state sim_world :=
  mkState
    (mkSim [] [ Ok (0%Z, [], []); Ok (1%Z, [], pystr "error: pathspec 'abc'") ] [])
    [] [].

(** A test case of a target of [SPIKE_DENYLIST] whose artifact is
    there and passes. *)
Definition spike_denylisted_start : state sim_world :=
  mkState (mkSim [pystr "/out/r.elf"] [Ok (0%Z, zero_summary, [])] []) [] [].

(** * Properties *)

(** ** Sanity checks of the text operations and of the classifier *)

Example split_example :
  split nl (pystr "a" ++ [nl] ++ pystr "b" ++ [nl]) = [pystr "a"; pystr "b"; []].
Proof. reflexivity. Qed.

Example replace_example :
  replace (pystr "//") [] (pystr "//tests/cocotb:align_test") = pystr "tests/cocotb:align_test".
Proof. reflexivity. Qed.

Example str_of_int_example : str_of_int 100000000 = pystr "100000000" ∧ hex_of_int 8192 = pystr "2000" ∧ hex_of_int 0 = pystr "0".
Proof. done. Qed.

Example classify_ex1 :
  classify 0 (pystr "UVM_INFO ok" ++ [nl] ++ pystr "UVM_ERROR :    0" ++ [nl] ++ pystr "UVM_FATAL :    0" ++ [nl])
  = (PASS, pystr "None", pystr "UVM_INFO ok" ++ [nl] ++ pystr "UVM_ERROR :    0" ++ [nl] ++ pystr "UVM_FATAL :    0" ++ [nl]).
Proof. reflexivity. Qed.

Example classify_ex2 :
  (classify 0 (pystr "x" ++ [nl] ++ pystr "  UVM_ERROR f.sv(1) @ 10: a,b  " ++ [nl] ++ pystr "UVM_FATAL z")).1.2
  = pystr "UVM_ERROR f.sv(1) @ 10: a;b".
Proof. reflexivity. Qed.

Example classify_ex3 :
  (classify 2 (pystr "make: *** [run] Error 2" ++ [nl])).1.2 = pystr "Make failed: make: *** [run] Error 2"
  ∧ (classify 2 []).1.2 = pystr "Make failed: "
  ∧ (classify 2 (pystr "UVM_ERROR x:" ++ [nl] ++ pystr " 0")).1.2 = pystr "Make failed:  0".
Proof. done. Qed.

(** ** Text lemmas *)

Lemma is_space_nl : is_space nl = true.
Proof. reflexivity. Qed.

Lemma strip_prefix_app (a b t : str) :
  strip_prefix (a ++ b) t = strip_prefix a t ≫= strip_prefix b.
Proof.
  revert t. induction a as [|x a IH]; intros t; simpl.
  - by destruct b.
  - destruct t as [|y t]; [done|]. destruct (x =? y); [apply IH | done].
Qed.

Lemma strip_prefix_Some (p t x : str) :
  strip_prefix p t = Some x ↔ t = p ++ x.
Proof.
  revert t. induction p as [|a p IH]; intros t; simpl.
  - split; [by intros [= ->] | by intros ->].
  - destruct t as [|b t]; [split; [done | discriminate]|].
    destruct (N.eqb_spec a b) as [->|Hne].
    + rewrite IH. split; [by intros -> | by intros [= ->]].
    + split; [done | intros [= ? ?]; done].
Qed.

Lemma lstrip_idemp (t : str) : lstrip (lstrip t) = lstrip t.
Proof.
  induction t as [|c t IH]; simpl; [done|].
  destruct (is_space c) eqn:E; [done|]. simpl. by rewrite E.
Qed.

Lemma strip_lstrip (t : str) : strip (lstrip t) = strip t.
Proof. unfold strip. by rewrite lstrip_idemp. Qed.

Lemma line_head_tail (t : str) : line_head t ++ line_tail t = t.
Proof.
  induction t as [|c t IH]; simpl; [done|].
  destruct (c =? nl); simpl; [done | by rewrite IH].
Qed.

Lemma line_tail_eol (t : str) : line_tail t = [] ∨ ∃ u, line_tail t = nl :: u.
Proof.
  induction t as [|c t IH]; simpl; [by left|].
  destruct (N.eqb_spec c nl) as [->|]; [right; eauto | done].
Qed.

Lemma line_head_app (l f : str) :
  nl ∉ l → (f = [] ∨ ∃ u, f = nl :: u) → line_head (l ++ f) = l.
Proof.
  intros Hl Hf. induction l as [|c l IH]; simpl.
  - by destruct Hf as [->|[u ->]].
  - apply not_elem_of_cons in Hl as [Hc Hl].
    destruct (N.eqb_spec c nl) as [->|]; [done|]. by rewrite IH.
Qed.

(** ** The regular expression, step by step *)

Lemma star_is_space_lstrip {A} (k : str → option A) (t : str) :
  (∀ c u, is_space c = true → k (c :: u) = None) →
  star is_space k t = k (lstrip t).
Proof.
  intros Hk. induction t as [|c t IH]; simpl; [done|].
  destruct (is_space c) eqn:E; [|done].
  rewrite IH, (Hk c t E). by destruct (k (lstrip t)).
Qed.

Lemma star_is_dot_eol {A} (k : str → option A) (t : str) :
  is_Some (k (line_tail t)) → star is_dot k t = k (line_tail t).
Proof.
  intros Hk. induction t as [|c t IH]; cbn [star line_tail] in *; [done|].
  unfold is_dot at 1. destruct (c =? nl); cbn [negb]; [done|].
  rewrite (IH Hk). by destruct Hk as [a ->].
Qed.

Lemma star_blank_to_eol (t : str) :
  star is_space (rmatch Eol (λ _, Some ())) t = if blank_to_eol t then Some () else None.
Proof.
  induction t as [|c t IH]; cbn [star blank_to_eol]; [done|].
  destruct (is_space c) eqn:E; cbn [andb].
  - rewrite IH. destruct (blank_to_eol t); [by rewrite orb_true_r|].
    rewrite orb_false_r. cbn [rmatch]. by destruct (c =? nl).
  - rewrite orb_false_r. cbn [rmatch]. by destruct (c =? nl).
Qed.

Lemma zero_after_colon_spec (t : str) :
  rmatch (Seq (Cls is_space)
            (Seq (Star is_space) (Seq (Lit (pystr "0")) (Seq (Star is_space) Eol))))
    (λ _, Some ()) t
  = if zero_after_colon t then Some () else None.
Proof.
  destruct t as [|c t]; [done|]. cbn [rmatch zero_after_colon lstrip].
  destruct (is_space c) eqn:E; [|done]. cbn [andb].
  rewrite star_is_space_lstrip.
  - destruct (lstrip t) as [|z b]; [done|]. cbn [strip_prefix pystr list_ascii_of_string fmap list_fmap].
    change (N_of_ascii "0") with 48.
    rewrite (N.eqb_sym 48 z). destruct (z =? 48); [|done]. cbn [andb].
    apply star_blank_to_eol.
  - intros c' u E'. cbn [rmatch strip_prefix pystr list_ascii_of_string fmap list_fmap].
    change (N_of_ascii "0") with 48.
    destruct (N.eqb_spec 48 c') as [<-|]; [discriminate E' | done].
Qed.

Lemma zero_count_spec (t : str) :
  rmatch zero_count_re (λ _, Some ()) t = if zero_count t then Some () else None.
Proof.
  unfold zero_count_re. cbn [rmatch].
  induction t as [|c t IH]; [done|].
  cbn [star zero_count]. unfold is_dot at 1.
  assert (Hk : rmatch (Lit [colon])
            (rmatch (Seq (Cls is_space)
               (Seq (Star is_space) (Seq (Lit (pystr "0")) (Seq (Star is_space) Eol))))
               (λ _, Some ())) (c :: t)
          = if (c =? colon) && zero_after_colon t then Some () else None).
  { cbn [rmatch strip_prefix]. rewrite (N.eqb_sym colon c).
    destruct (c =? colon); [|done]. apply zero_after_colon_spec. }
  cbn [rmatch] in Hk, IH. 
  destruct (N.eqb_spec c nl) as [->|Hnl]; cbn [negb andb].
  - rewrite Hk. cbn. done.
  - rewrite IH, Hk.
    destruct ((c =? colon) && zero_after_colon t); cbn; by destruct (zero_count t) as [|] eqn:?.
Qed.

Lemma line_head_app_l (m x : str) : nl ∉ m → line_head (m ++ x) = m ++ line_head x.
Proof.
  intros Hm. induction m as [|c m IH]; [done|]. simpl.
  apply not_elem_of_cons in Hm as [Hc Hm].
  destruct (N.eqb_spec c nl) as [->|]; [done|]. by rewrite IH.
Qed.

Lemma take_line_head (m x : str) :
  nl ∉ m →
  take (length (m ++ x) - length (line_tail x)) (m ++ x) = line_head (m ++ x).
Proof.
  intros Hm. rewrite (line_head_app_l _ _ Hm).
  assert (m ++ x = (m ++ line_head x) ++ line_tail x) as ->.
  { by rewrite <- (assoc_L (++)), line_head_tail. }
  by rewrite length_app, Nat.add_sub, take_app_length.
Qed.

Lemma after_marker_Some (q x : str) :
  after_marker q = Some x →
  (q = pystr "UVM_FATAL" ++ x ∨ q = pystr "UVM_ERROR" ++ x).
Proof.
  unfold after_marker.
  destruct (strip_prefix (pystr "UVM_FATAL") q) as [y|] eqn:E.
  - intros [= ->]. left. by apply strip_prefix_Some.
  - intros E'. right. by apply strip_prefix_Some.
Qed.

Lemma after_marker_line_head (q x : str) :
  after_marker q = Some x →
  take (length q - length (line_tail x)) q = line_head q.
Proof.
  intros [-> | ->]%after_marker_Some; apply take_line_head;
    apply (bool_decide_unpack _); by vm_compute.
Qed.

(** The pattern tried at the start of a line: what [^\s*(...)$] gives
    there. *)
Lemma uvm_match_at_spec (t : str) :
  uvm_match_at t =
    match after_marker (lstrip t) with
    | Some x => if zero_count x then None else Some (line_head (lstrip t))
    | None => None
    end.
Proof.
  unfold uvm_match_at. cbn [rmatch].
  rewrite star_is_space_lstrip.
  2:{ intros c u E. unfold uvm_group_re. cbn [rmatch].
      cbn [strip_prefix pystr list_ascii_of_string fmap list_fmap].
      change (N_of_ascii "U") with 85.
      destruct (N.eqb_spec 85 c) as [<-|]; [discriminate E | done]. }
  generalize (lstrip t). clear t. intros q.
  pose proof (after_marker_line_head q) as Hhead.
  unfold after_marker in *. unfold uvm_group_re. cbn [rmatch].
  change (pystr "UVM_FATAL") with (pystr "UVM_" ++ pystr "FATAL") in *.
  change (pystr "UVM_ERROR") with (pystr "UVM_" ++ pystr "ERROR") in *.
  rewrite !strip_prefix_app in *.
  destruct (strip_prefix (pystr "UVM_") q) as [q1|]; [|done]. cbn [mbind option_bind] in *.
  assert (Hk : ∀ x, (∀ y, Some x = Some y → take (length q - length (line_tail y)) q = line_head q) →
     match rmatch zero_count_re (λ _, Some ()) x with
     | Some _ => None
     | None => star is_dot
         (λ e, rmatch Eol (λ _, Some (take (length q - length e) q)) e) x
     end = if zero_count x then None else Some (line_head q)).
  { intros x Hx. rewrite zero_count_spec. destruct (zero_count x); [done|].
    rewrite star_is_dot_eol.
    - cbn [rmatch]. rewrite (Hx x eq_refl).
      by destruct (line_tail_eol x) as [-> | [u ->]].
    - cbn [rmatch]. by destruct (line_tail_eol x) as [-> | [u ->]]. }
  cbn [rmatch] in Hk.
  destruct (strip_prefix (pystr "FATAL") q1) as [x|] eqn:EF.
  - assert (strip_prefix (pystr "ERROR") q1 = None) as ->.
    { apply strip_prefix_Some in EF as ->. done. }
    rewrite (Hk x Hhead). by destruct (zero_count x).
  - destruct (strip_prefix (pystr "ERROR") q1) as [x|] eqn:EE; [|done].
    apply (Hk x Hhead).
Qed.

(** ** From the search to the lines *)

Lemma lstrip_app_blank (l f : str) : lstrip l = [] → lstrip (l ++ f) = lstrip f.
Proof.
  induction l as [|c l IH]; simpl; [done|].
  destruct (is_space c); [done | discriminate].
Qed.

Lemma lstrip_app_nonblank (l f : str) : lstrip l ≠ [] → lstrip (l ++ f) = lstrip l ++ f.
Proof.
  induction l as [|c l IH]; simpl; [done|].
  destruct (is_space c); [done | done].
Qed.

Lemma lstrip_suffix (l : str) : lstrip l `suffix_of` l.
Proof.
  induction l as [|c l IH]; simpl; [done|].
  destruct (is_space c); [by apply suffix_cons_r | done].
Qed.

Lemma lstrip_no_nl (l : str) : nl ∉ l → nl ∉ lstrip l.
Proof.
  intros Hl Hin. apply Hl.
  destruct (lstrip_suffix l) as [k ->]. apply elem_of_app. by right.
Qed.

Lemma strip_prefix_app_r (m a f : str) :
  nl ∉ m → (f = [] ∨ ∃ u, f = nl :: u) →
  strip_prefix m (a ++ f) = (λ x, x ++ f) <$> strip_prefix m a.
Proof.
  intros Hm Hf. revert a. induction m as [|x m IH]; intros a; [done|].
  apply not_elem_of_cons in Hm as [Hx Hm].
  destruct a as [|b a]; simpl.
  - destruct Hf as [->|[u ->]]; [done|]. simpl.
    by destruct (N.eqb_spec x nl) as [->|].
  - destruct (x =? b); [by apply IH | done].
Qed.

Lemma after_marker_app_r (a f : str) :
  (f = [] ∨ ∃ u, f = nl :: u) →
  after_marker (a ++ f) = (λ x, x ++ f) <$> after_marker a.
Proof.
  intros Hf. unfold after_marker.
  rewrite !strip_prefix_app_r by (done || apply (bool_decide_unpack _); by vm_compute).
  by destruct (strip_prefix (pystr "UVM_FATAL") a).
Qed.

Lemma following_eol (rest : list str) : following rest = [] ∨ ∃ u, following rest = nl :: u.
Proof. destruct rest as [|l rest]; [by left | right; by eexists]. Qed.

Lemma search_from_true (t : str) :
  search_from true t =
    match uvm_match_at t with
    | Some g => Some g
    | None => search_from false t
    end.
Proof. destruct t as [|c t]; cbn [search_from]; by destruct (uvm_match_at _). Qed.

(** With [^] false, the search moves to the start of the next line. *)
Lemma search_from_skip_line (l : str) (rest : list str) :
  nl ∉ l →
  search_from false (l ++ following rest) =
    match rest with
    | [] => None
    | l' :: rest' => search_from true (l' ++ following rest')
    end.
Proof.
  intros Hl. induction l as [|c l IH].
  - destruct rest as [|l' rest']; [done|]. reflexivity.
  - apply not_elem_of_cons in Hl as [Hc Hl].
    cbn [app search_from]. destruct (N.eqb_spec c nl) as [->|]; [done|].
    by apply IH.
Qed.

Lemma first_error_line_cons (l : str) (rest : list str) :
  first_error_line (l :: rest) =
    match after_marker (lstrip l) with
    | Some x =>
        if zero_count (x ++ following rest) then first_error_line rest else Some l
    | None => first_error_line rest
    end.
Proof. reflexivity. Qed.

Lemma search_from_lines (rest : list str) (l : str) :
  nl ∉ l → Forall (λ l', nl ∉ l') rest →
  search_from true (l ++ following rest) = lstrip <$> first_error_line (l :: rest).
Proof.
  revert l. induction rest as [|l' rest' IH]; intros l Hl Hrest.
  - (* the last line *)
    rewrite search_from_true, search_from_skip_line, uvm_match_at_spec by done.
    rewrite first_error_line_cons. cbn [first_error_line following fmap list_fmap concat].
    rewrite !app_nil_r.
    destruct (after_marker (lstrip l)) as [x|] eqn:E; [|done].
    rewrite ?app_nil_r. destruct (zero_count x); [done|]. cbn.
    f_equal. rewrite <- (app_nil_r (lstrip l)) at 1.
    apply line_head_app; [by apply lstrip_no_nl | by left].
  - apply Forall_cons in Hrest as [Hl' Hrest'].
    specialize (IH l' Hl' Hrest').
    rewrite search_from_true, search_from_skip_line, uvm_match_at_spec by done.
    rewrite first_error_line_cons.
    set (R := first_error_line (l' :: rest')) in *.
    destruct (decide (lstrip l = [])) as [Hblank|Hnonblank].
    + (* a blank line: the leading whitespace runs into the next line *)
      rewrite lstrip_app_blank by done.
      change (following (l' :: rest')) with (nl :: (l' ++ following rest')).
      change (lstrip (nl :: l' ++ following rest')) with (lstrip (l' ++ following rest')).
      rewrite Hblank. change (after_marker []) with (@None str). cbv iota.
      rewrite <- IH, (search_from_true (l' ++ following rest')), uvm_match_at_spec.
      by destruct (after_marker _) as [x|]; [destruct (zero_count x)|].
    + rewrite lstrip_app_nonblank by done.
      rewrite after_marker_app_r by apply following_eol.
      destruct (after_marker (lstrip l)) as [x|] eqn:E; cbn [fmap option_fmap option_map]; [|done].
      destruct (zero_count (x ++ following (l' :: rest'))); [done|]. cbn.
      f_equal. apply line_head_app; [by apply lstrip_no_nl | right; by eexists].
Qed.

Lemma split_lines (t : str) :
  ∃ l rest, (split nl t = l :: rest) ∧ (t = l ++ following rest)
            ∧ (nl ∉ l) ∧ Forall (λ l', nl ∉ l') rest.
Proof.
  induction t as [|c t (l & rest & Hs & Ht & Hl & Hrest)].
  - exists [], []. split_and!; [done | done | apply not_elem_of_nil | done].
  - cbn [split]. rewrite Hs. destruct (N.eqb_spec c nl) as [->|Hc].
    + exists [], (l :: rest). split_and!; [done | | apply not_elem_of_nil | by constructor].
      by rewrite Ht at 1.
    + exists (c :: l), rest. split_and!; [done | by rewrite Ht at 1 | | done].
      by apply not_elem_of_cons.
Qed.

(** The search of [run_uvm] finds the first error line of the output,
    from its first character that is not whitespace. *)
Lemma uvm_err_lines (output : str) :
  uvm_err output = lstrip <$> first_error_line (split nl output).
Proof.
  destruct (split_lines output) as (l & rest & -> & Ht & Hl & Hrest).
  unfold uvm_err. rewrite Ht at 1. by apply search_from_lines.
Qed.

(** ** The classifier *)

Lemma replace_char_id (a b : char) (t : str) : a ∉ t → replace_char a b t = t.
Proof.
  induction t as [|c t IH]; [done|]. intros [Hc Ht]%not_elem_of_cons.
  unfold replace_char in *. cbn. rewrite (IH Ht).
  by destruct (N.eqb_spec c a) as [->|].
Qed.

Lemma replace_char_app (a b : char) (t u : str) :
  replace_char a b (t ++ u) = replace_char a b t ++ replace_char a b u.
Proof. apply fmap_app. Qed.

Lemma replace_char_elem (a b c : char) (t : str) :
  c ∈ replace_char a b t → c = b ∨ c ∈ t.
Proof.
  unfold replace_char. intros (d & -> & Hd)%list_elem_of_fmap.
  destruct (d =? a); [by left | by right].
Qed.

Lemma lstrip_elem (c : char) (t : str) : c ∈ lstrip t → c ∈ t.
Proof.
  intros H. destruct (lstrip_suffix t) as [k Hk]. rewrite Hk.
  apply elem_of_app. by right.
Qed.

Lemma strip_elem (c : char) (t : str) : c ∈ strip t → c ∈ t.
Proof.
  unfold strip, rstrip. rewrite elem_of_reverse.
  intros H%lstrip_elem. rewrite elem_of_reverse in H. by apply lstrip_elem.
Qed.

Lemma lstrip_head (t w : str) (c : char) : lstrip t = c :: w → is_space c = false.
Proof.
  induction t as [|d t IH]; simpl; [done|].
  destruct (is_space d) eqn:E; [done|]. by intros [= <- _].
Qed.

(** The reason of a detected error: one line, so only commas are
    replaced. *)
Lemma sanitize_line (l : str) :
  nl ∉ l → sanitize (strip l) = replace_char comma semicolon (strip l).
Proof.
  intros Hl. unfold sanitize. apply replace_char_id.
  intros [H|H%strip_elem]%replace_char_elem; [discriminate H | done].
Qed.

Lemma first_error_line_elem (ls : list str) (l : str) :
  first_error_line ls = Some l → l ∈ ls.
Proof.
  induction ls as [|l' ls IH]; [done|]. rewrite first_error_line_cons.
  destruct (after_marker (lstrip l')) as [x|].
  - destruct (zero_count _).
    + intros ?. apply elem_of_cons. right. by apply IH.
    + intros [= ->]. apply elem_of_cons. by left.
  - intros ?. apply elem_of_cons. right. by apply IH.
Qed.

Lemma split_no_nl (t l : str) : l ∈ split nl t → nl ∉ l.
Proof.
  destruct (split_lines t) as (l0 & rest & -> & _ & Hl0 & Hrest).
  intros [->|Hin]%elem_of_cons; [done|].
  by eapply Forall_forall in Hrest.
Qed.

(** A zero count on the line itself is a zero count for the search,
    whatever follows the line. *)
Lemma blank_to_eol_app (b f : str) :
  (f = [] ∨ ∃ u, f = nl :: u) → blank_to_eol b = true → blank_to_eol (b ++ f) = true.
Proof.
  intros Hf. induction b as [|c b IH]; simpl.
  - by destruct Hf as [->|[u ->]].
  - destruct (c =? nl); [done|]. simpl.
    destruct (is_space c); [by apply IH | done].
Qed.

Lemma zero_after_colon_app (t f : str) :
  (f = [] ∨ ∃ u, f = nl :: u) →
  zero_after_colon t = true → zero_after_colon (t ++ f) = true.
Proof.
  intros Hf. destruct t as [|c t]; [done|].
  unfold zero_after_colon. cbn [app].
  destruct (is_space c) eqn:E; [|done]. cbn [andb].
  change (c :: t ++ f) with ((c :: t) ++ f).
  destruct (lstrip (c :: t)) as [|z b] eqn:El; [done|].
  rewrite lstrip_app_nonblank by (by rewrite El). rewrite El. cbn [app].
  destruct (z =? 48); [|done]. cbn [andb]. by apply blank_to_eol_app.
Qed.

Lemma zero_count_app (x f : str) :
  (f = [] ∨ ∃ u, f = nl :: u) → zero_count x = true → zero_count (x ++ f) = true.
Proof.
  intros Hf. induction x as [|c x IH]; [done|]. cbn [app zero_count].
  intros [[Hc Hz]%andb_true_iff | [Hc Hz]%andb_true_iff]%orb_true_iff.
  - by rewrite Hc, (zero_after_colon_app _ _ Hf Hz).
  - by rewrite Hc, (IH Hz), orb_true_r.
Qed.

Lemma first_error_line_None (ls : list str) :
  (∀ l x, l ∈ ls → after_marker (lstrip l) = Some x → zero_count x = true) →
  first_error_line ls = None.
Proof.
  induction ls as [|l ls IH]; [done|]. intros H. rewrite first_error_line_cons.
  rewrite IH by (intros l' x ?; apply H; by apply elem_of_cons; right).
  destruct (after_marker (lstrip l)) as [x|] eqn:E; [|done].
  rewrite zero_count_app; [done | apply following_eol |].
  eapply H; [|done]. apply elem_of_cons. by left.
Qed.

(** [classify] on a zero return code, line by line. *)
Lemma classify_zero_lines (output : str) :
  classify 0 output =
    match first_error_line (split nl output) with
    | Some l => (FAIL, replace_char comma semicolon (strip l), output)
    | None => (PASS, pystr "None", output)
    end.
Proof.
  unfold classify. cbn [Z.eqb negb]. rewrite uvm_err_lines.
  destruct (first_error_line (split nl output)) as [l|] eqn:E; [|done]. cbn.
  rewrite strip_lstrip, sanitize_line; [done|].
  eapply split_no_nl, first_error_line_elem, E.
Qed.

Lemma last_split_nonempty (t : str) :
  t ≠ [] → last t ≠ Some nl →
  ∃ line, last (split nl t) = Some line ∧ line ≠ [].
Proof.
  induction t as [|c t IH]; [done|]. intros _ Hlast.
  destruct (split_lines t) as (l & rest & Hs & _).
  cbn [split]. rewrite Hs. destruct t as [|d t].
  - injection Hs as <- <-. cbn in Hlast.
    destruct (N.eqb_spec c nl) as [->|]; [done|]. by exists [c].
  - destruct IH as (line & Hline & Hne); [done | done |].
    rewrite Hs in Hline. exists (if c =? nl then line else
                                  match rest with [] => c :: l | _ => line end).
    destruct (c =? nl); [done|].
    destruct rest as [|l' rest]; [done | by split].
Qed.

Lemma strip_last (t : str) (c : char) : last (strip t) = Some c → is_space c = false.
Proof.
  unfold strip, rstrip. rewrite last_reverse.
  destruct (lstrip (reverse (lstrip t))) as [|d w] eqn:E; [done|].
  intros [= ->]. by eapply lstrip_head.
Qed.

Lemma last_elem {A} (l : list A) (x : A) : last l = Some x → x ∈ l.
Proof.
  intros H. apply last_Some in H as [l' ->]. apply elem_of_app. right. by left.
Qed.

(** [classify] on a non-zero return code when the search finds
    nothing. *)
Lemma classify_nonzero_fallback (returncode : Z) (output : str) :
  returncode ≠ 0%Z → first_error_line (split nl output) = None →
  contains (pystr "AXI_DECERR") output = false → strip output ≠ [] →
  ∃ line, last (split nl (strip output)) = Some line ∧ line ≠ [] ∧
    classify returncode output
    = (FAIL, pystr "Make failed: " ++ replace_char comma semicolon line, output).
Proof.
  intros Hrc Hnone Haxi Hstrip.
  destruct (last_split_nonempty (strip output)) as (line & Hline & Hne); [done | |].
  { intros H%strip_last. discriminate H. }
  exists line. split_and!; [done | done |].
  unfold classify. rewrite uvm_err_lines, Hnone. cbn [fmap option_fmap option_map].
  apply Z.eqb_neq in Hrc as ->. cbn [negb]. rewrite Haxi.
  unfold last_item. rewrite Hline. cbn [default].
  rewrite bool_decide_true by (intros H; by rewrite H in Hline).
  f_equal. f_equal. unfold sanitize. rewrite !replace_char_app.
  change (replace_char comma semicolon (pystr "Make failed: ")) with (pystr "Make failed: ").
  change (replace_char nl space (pystr "Make failed: ")) with (pystr "Make failed: ").
  f_equal. apply replace_char_id.
  intros [H|H]%replace_char_elem; [discriminate H|].
  apply (split_no_nl (strip output) line); [by apply last_elem | done].
Qed.




(** C3 (amended).  With a non-zero exit code and no error line: if
    the output contains [AXI_DECERR], the status is [FAIL] and the
    reason is ["AXI_DECERR detected"]; otherwise, when the output is
    not blank, the status is [FAIL] and the reason is
    ["Make failed: "] followed by the last line of the output stripped
    of surrounding whitespace (a line that is not empty), with each
    comma replaced by a semicolon. *)
Theorem classify_nonzero_no_error (returncode : Z) (output : str) :
  returncode ≠ 0%Z →
  first_error_line (split nl output) = None →
  (contains (pystr "AXI_DECERR") output = true →
     classify returncode output = (FAIL, pystr "AXI_DECERR detected", output))
  ∧ (contains (pystr "AXI_DECERR") output = false → strip output ≠ [] →
     ∃ line, last (split nl (strip output)) = Some line ∧ line ≠ [] ∧
       classify returncode output
       = (FAIL, pystr "Make failed: " ++ replace_char comma semicolon line, output)).
Proof.
  intros Hrc Hnone. split; [|by apply classify_nonzero_fallback].
  intros Haxi. unfold classify. rewrite uvm_err_lines, Hnone.
  cbn [fmap option_fmap option_map].
  apply Z.eqb_neq in Hrc as ->. cbn [negb]. by rewrite Haxi.
Qed.

(** C3 (amended) on a decode error and on a failure of the harness. *)
Lemma classify_nonzero_no_error_witness :
  classify 2 (pystr "AXI_DECERR at 0x100") = (FAIL, pystr "AXI_DECERR detected", pystr "AXI_DECERR at 0x100")
  ∧ ∃ line, last (split nl (strip (pystr "make: *** [run] Error 2" ++ [nl])))
            = Some line ∧ line ≠ [] ∧
      classify 2 (pystr "make: *** [run] Error 2" ++ [nl])
      = (FAIL, pystr "Make failed: " ++ replace_char comma semicolon line,
         pystr "make: *** [run] Error 2" ++ [nl]).
Proof.
  split.
  - apply (classify_nonzero_no_error 2 (pystr "AXI_DECERR at 0x100")); by vm_compute.
  - apply (classify_nonzero_no_error 2 (pystr "make: *** [run] Error 2" ++ [nl]));
      by vm_compute.
Defined.

(** C3 as the claim words it fails: the fallback reason carries the
    prefix ["Make failed: "], and the decode marker has its own
    wording. *)
Lemma classify_nonzero_no_error_counterexample :
  let output := pystr "boom" in
  let decode := pystr "AXI_DECERR" in
  spec_classify 1 output = (FAIL, pystr "boom")
  ∧ (classify 1 output).1 = (FAIL, pystr "Make failed: boom")
  ∧ (classify 1 output).1 ≠ spec_classify 1 output
  ∧ (classify 1 decode).1 = (FAIL, pystr "AXI_DECERR detected")
  ∧ (classify 1 decode).1 ≠ spec_classify 1 decode.
Proof. by vm_compute. Qed.

(** ** The simulation runner *)

(** Unfolding of the monad operations, leaving the calls of the world
    in place. *)
Ltac munfold :=
  cbv beta iota zeta delta
    [mbind M_bind bind mret M_ret ret raise ask call record_spawn record_report
     try_except when_ with_world
     is_Exception is_CalledProcessError is_TimeoutExpired andb negb];
  cbn [world spawned reports fst snd].

Section Runner.
Context {W : Type} `{!Sys W}.

Lemma bind_run {A B} (m : M W A) (k : A → M W B) (s : state W) :
  (m ≫= k) s =
    match m s with
    | (Ret a, s') => k a s'
    | (Raise e, s') => (Raise e, s')
    end.
Proof. reflexivity. Qed.

Lemma ask_bind {A B} (f : W → A) (k : A → M W B) (s : state W) :
  (ask f ≫= k) s = k (f (world s)) s.
Proof. reflexivity. Qed.

(** One pass through the [try] block of the retry loop. *)
Lemma attempt_step (cmd : list str) (env : list (str * str)) (s : state W) :
  try_except is_Exception
    (result ← subprocess_run cmd env false; ret (inr result))
    (λ e, ret (inl e)) s
  = match sys_run cmd env (world s) with
    | (Ok r, w) =>
        (Ret (inr r), mkState w (spawned s ++ [cmd]) (reports s))
    | (Err t, w) =>
        (Ret (inl (Exception t)), mkState w (spawned s ++ [cmd]) (reports s))
    end.
Proof.
  unfold subprocess_run. munfold.
  destruct (sys_run cmd env (world s)) as [[r|t] w]; by munfold.
Qed.

(** C7.  When the artifact does not exist, [run_uvm] returns
    [BUILD_ARTIFACT_MISSING] at once: it does not raise, and it leaves
    the state as it found it - the world has not been touched and no
    child process has been started. *)
Theorem run_uvm_missing_artifact (elf_path : str) (spike_log_path target : option str)
    (mpact_root : str) (s : state W) :
  sys_exists elf_path (world s) = false →
  run_uvm elf_path spike_log_path target mpact_root s
  = (Ret (BUILD_ARTIFACT_MISSING, pystr "ELF file not found", []), s)
  ∧ spawned (run_uvm elf_path spike_log_path target mpact_root s).2 = spawned s.
Proof.
  intros Hmissing.
  assert (run_uvm elf_path spike_log_path target mpact_root s
          = (Ret (BUILD_ARTIFACT_MISSING, pystr "ELF file not found", []), s)) as ->; [|done].
  unfold run_uvm. munfold. by rewrite Hmissing.
Qed.

(** The retry loop over [range(1, 4)], attempt by attempt. *)
Lemma attempt_loop_three (cmd : list str) (env : list (str * str)) (s : state W) :
  let '(o1, w1) := sys_run cmd env (world s) in
  let '(o2, w2) := sys_run cmd env w1 in
  let '(o3, w3) := sys_run cmd env w2 in
  attempt_loop cmd env (seq 1 max_retries) None s =
    if negb (retryable o1)
    then (Ret (attempt_end o1), mkState w1 (spawned s ++ [cmd]) (reports s))
    else if negb (retryable o2)
    then (Ret (attempt_end o2), mkState w2 (spawned s ++ [cmd; cmd]) (reports s))
    else (Ret (attempt_end o3), mkState w3 (spawned s ++ [cmd; cmd; cmd]) (reports s)).
Proof.
  cbn [seq max_retries attempt_loop].
  change (1 <? max_retries)%nat with true. change (2 <? max_retries)%nat with true.
  cbv iota.
  rewrite bind_run, attempt_step.
  destruct (sys_run cmd env (world s)) as [[[[rc1 out1] err1]|t1] w1].
  2:{ by destruct (sys_run cmd env w1) as [o2 w2], (sys_run cmd env w2) as [o3 w3]. }
  cbn [retryable attempt_end].
  destruct (negb (rc1 =? 0)%Z && contains (pystr "1-800-VERILOG") (out1 ++ err1)).
  2:{ by destruct (sys_run cmd env w1) as [o2 w2], (sys_run cmd env w2) as [o3 w3]. }
  rewrite bind_run, attempt_step. cbn [world spawned reports].
  destruct (sys_run cmd env w1) as [[[[rc2 out2] err2]|t2] w2].
  2:{ destruct (sys_run cmd env w2) as [o3 w3]. cbn. by rewrite <- (assoc_L (++)). }
  cbn [retryable attempt_end].
  destruct (negb (rc2 =? 0)%Z && contains (pystr "1-800-VERILOG") (out2 ++ err2)).
  2:{ destruct (sys_run cmd env w2) as [o3 w3]. cbn. by rewrite <- (assoc_L (++)). }
  rewrite bind_run, attempt_step. cbn [world spawned reports].
  destruct (sys_run cmd env w2) as [[[[rc3 out3] err3]|t3] w3]; cbn [negb];
    rewrite <- !(assoc_L (++)); [|done].
  by destruct (negb (rc3 =? 0)%Z && contains (pystr "1-800-VERILOG") (out3 ++ err3)).
Qed.

(** C4.  [run_uvm] on an artifact that exists starts the simulator
    at most three times.  Writing [o1], [o2], [o3] for what the first,
    second and third start would answer: a second attempt is made
    exactly when the first ended with a non-zero return code and the
    license marker in its output, a third one exactly when the second
    did so too, and there is no fourth.  The result is that of the
    last attempt made - the classification of its return code and
    output (for an attempt that raised, [EXEC_FAIL] with the text of
    the exception) - also when all three attempts fail with the
    license marker. *)
Theorem run_uvm_retry (elf_path : str) (spike_log_path target : option str)
    (mpact_root : str) (s : state W) :
  sys_exists elf_path (world s) = true →
  let cmd := uvm_cmd (world s) elf_path spike_log_path target in
  let env := [(pystr "CORALNPU_MPACT", mpact_root)] in
  let '(o1, w1) := sys_run cmd env (world s) in
  let '(o2, w2) := sys_run cmd env w1 in
  let '(o3, w3) := sys_run cmd env w2 in
  run_uvm elf_path spike_log_path target mpact_root s =
    if negb (retryable o1)
    then (Ret (attempt_result o1), mkState w1 (spawned s ++ [cmd]) (reports s))
    else if negb (retryable o2)
    then (Ret (attempt_result o2), mkState w2 (spawned s ++ [cmd; cmd]) (reports s))
    else (Ret (attempt_result o3), mkState w3 (spawned s ++ [cmd; cmd; cmd]) (reports s)).
Proof.
  intros Hfound cmd env.
  pose proof (attempt_loop_three cmd env s) as Hloop.
  unfold run_uvm. rewrite ask_bind, Hfound. cbn [negb].
  rewrite ask_bind. fold cmd env. rewrite bind_run.
  destruct (sys_run cmd env (world s)) as [o1 w1].
  destruct (sys_run cmd env w1) as [o2 w2].
  destruct (sys_run cmd env w2) as [o3 w3].
  rewrite Hloop.
  destruct (retryable o1); cbn [negb].
  - destruct (retryable o2); cbn [negb].
    + by destruct o3 as [[[rc out] err]|t].
    + by destruct o2 as [[[rc out] err]|t].
  - by destruct o1 as [[[rc out] err]|t].
Qed.

(** C10.  [generate_spike_log] always returns a boolean and never
    raises, whatever the calls it makes answer: the log that cannot be
    opened, the child that cannot be started, the wait that times out
    or raises, the failure to signal the process group, the close that
    fails all end in [False].  It returns [True] only when every call
    succeeded and the child exited by itself with return code 0. *)
Theorem generate_spike_log_total (spike_bin elf_path log_path : str)
    (entry_point timeout : Z) (s : state W) :
  ∃ s',
    generate_spike_log spike_bin elf_path log_path entry_point timeout s
    = (Ret (spike_succeeds (world s) (spike_cmd spike_bin elf_path entry_point)
              log_path timeout), s').
Proof.
  unfold generate_spike_log, spike_succeeds, with_, spike_with_body, process_wait.
  generalize (spike_cmd spike_bin elf_path entry_point). intros cmd.
  munfold.
  destruct (sys_open_w log_path (world s)) as [[[]|t0] w1]; munfold; [|by eexists].
  destruct (sys_popen cmd log_path w1) as [[pid|t1] w2]; munfold.
  2:{ destruct (sys_close log_path w2) as [[[]|t2] w3]; by eexists. }
  destruct (sys_wait pid timeout w2) as [[rc| |t2] w3]; munfold.
  - destruct (rc =? 0)%Z; munfold;
      destruct (sys_close log_path w3) as [[[]|t3] w4]; by eexists.
  - destruct (sys_getpgid pid w3) as [[pg|t3] w4]; munfold.
    2:{ destruct (sys_close log_path w4) as [[[]|t4] w5]; by eexists. }
    destruct (sys_killpg pg w4) as [[[]|t4] w5]; munfold.
    2:{ destruct (sys_close log_path w5) as [[[]|t5] w6]; by eexists. }
    destruct (sys_wait pid 5 w5) as [[rc'| |t5] w6]; munfold;
      destruct (sys_close log_path w6) as [[[]|t6] w7]; by eexists.
  - destruct (sys_close log_path w3) as [[[]|t3] w4]; by eexists.
Qed.

End Runner.

(** ** The order on text and sorting *)

Global Instance str_le_total : Total str_le.
Proof.
  intros a. unfold str_le. induction a as [|x a IH]; intros [|y b]; cbn; auto.
  rewrite (N.eqb_sym y x). destruct (N.eqb_spec x y) as [->|Hne]; [apply IH|].
  destruct (N.ltb_spec x y), (N.ltb_spec y x); auto; lia.
Qed.

Global Instance str_le_trans : Transitive str_le.
Proof.
  intros a. unfold str_le. induction a as [|x a IH]; intros [|y b] [|z c]; cbn; try done.
  destruct (N.eqb_spec x y) as [->|Hxy].
  - destruct (N.eqb_spec y z); [apply IH | done].
  - destruct (N.eqb_spec y z) as [->|Hyz].
    + destruct (N.eqb_spec x z); [done | done].
    + intros Hlt1%N.ltb_lt Hlt2%N.ltb_lt.
      destruct (N.eqb_spec x z) as [->|]; [lia | apply N.ltb_lt; lia].
Qed.

Lemma sorted_str_elem (l : list str) (t : str) : t ∈ sorted_str l ↔ t ∈ l.
Proof. unfold sorted_str. by rewrite merge_sort_Permutation. Qed.

Lemma sorted_str_sorted (l : list str) : StronglySorted str_le (sorted_str l).
Proof. apply StronglySorted_merge_sort; apply _. Qed.

Lemma slice_to_take {A} (k : Z) (l : list A) : ∃ n, slice_to k l = take n l.
Proof. unfold slice_to. destruct (0 <=? k)%Z; eauto. Qed.

Lemma slice_to_elem {A} (k : Z) (l : list A) (x : A) : x ∈ slice_to k l → x ∈ l.
Proof. destruct (slice_to_take k l) as [n ->]. apply subseteq_take. Qed.

Lemma slice_to_sorted (k : Z) (l : list str) :
  StronglySorted str_le l → StronglySorted str_le (slice_to k l).
Proof.
  destruct (slice_to_take k l) as [n ->]. rewrite <- (take_drop n l) at 1.
  apply StronglySorted_app_1_l.
Qed.

(** ** The target catalog *)

Lemma collect_targets_elem (rules : list rule) (acc : list str) (t : str) :
  t ∈ collect_targets rules acc ↔ t ∈ acc ∨ ∃ r, r ∈ rules ∧ rule_name r = t ∧ kept r.
Proof.
  revert acc. induction rules as [|r rules IH]; intros acc; cbn [collect_targets].
  - split; [by left | intros [?|(r & []%elem_of_nil & _)]; done].
  - assert (Hcons : (∃ r', r' ∈ r :: rules ∧ rule_name r' = t ∧ kept r')
                    ↔ (rule_name r = t ∧ kept r)
                      ∨ ∃ r', r' ∈ rules ∧ rule_name r' = t ∧ kept r').
    { split.
      - intros (r' & [->|Hin]%elem_of_cons & Hn & Hk); [by left | right; eauto].
      - intros [[Hn Hk] | (r' & Hin & Hn & Hk)].
        + exists r. split; [by left | done].
        + exists r'. split; [by right | done]. }
    rewrite Hcons. unfold kept at 1.
    case_bool_decide as Hdeny.
    { rewrite IH. split; [intros [?|?]; auto | intros [?|[[_ [? _]]|?]]; auto; done]. }
    destruct (rule_linker_script r) as [ls|] eqn:Els.
    2:{ rewrite IH. split; [intros [?|?]; auto | intros [?|[[_ [_ ?]]|?]]; auto; done]. }
    case_bool_decide as Hls.
    + rewrite IH, elem_of_app, list_elem_of_singleton. subst ls.
      split; [intros [[?|?]|?]; auto | intros [?|[[? _]|?]]; auto].
    + rewrite IH. split; [intros [?|?]; auto | intros [?|[[_ [_ ?]]|?]]; auto].
      congruence.
Qed.

Lemma NoDup_fmap_inj {A B} (f : A → B) (l : list A) (x y : A) :
  NoDup (f <$> l) → x ∈ l → y ∈ l → f x = f y → x = y.
Proof.
  induction l as [|a l IH]; [by intros _ []%elem_of_nil|].
  rewrite fmap_cons, NoDup_cons. intros [Ha Hl].
  intros [->|Hx]%elem_of_cons [->|Hy]%elem_of_cons Hf; [done | | | by apply IH].
  - destruct Ha. rewrite Hf. apply list_elem_of_fmap. eauto.
  - destruct Ha. rewrite <- Hf. apply list_elem_of_fmap. eauto.
Qed.

Section Catalog.
Context {W : Type} `{!Sys W}.

(** What a successful discovery returns, in terms of the answer of
    the build system. *)
Lemma get_targets_Ret (limit : option Z) (target : option str) (s s' : state W)
    (targets : list str) :
  truthy target = false →
  get_targets limit target s = (Ret targets, s') →
  ∃ stdout stderr w rules,
    sys_run query_cmd [] (world s) = (Ok (0%Z, stdout, stderr), w)
    ∧ xml_rules stdout = Ok rules
    ∧ targets = (if truthy_int limit then slice_to (default 0%Z limit) else id)
                  (sorted_str (collect_targets rules [])).
Proof.
  intros Htarget. unfold get_targets. rewrite Htarget.
  unfold subprocess_run. fold query_cmd. munfold.
  destruct (sys_run query_cmd [] (world s)) as [[[[rc out] err]|t] w]; munfold; [|done].
  destruct (rc =? 0)%Z eqn:Hrc; munfold; [|done].
  apply Z.eqb_eq in Hrc as ->.
  destruct (xml_rules out) as [rules|t] eqn:Hxml; munfold; [|done].
  destruct (truthy_int limit); munfold; intros [= <- <-]; by eexists _, _, _, _.
Qed.

(** Discovery leaves the denylisted targets out. *)
Lemma get_targets_denylist (limit : option Z) (target : option str) (s s' : state W)
    (targets : list str) :
  truthy target = false →
  get_targets limit target s = (Ret targets, s') →
  ∀ t, t ∈ targets → t ∉ DENYLIST.
Proof.
  intros Htarget Hrun t Ht.
  destruct (get_targets_Ret _ _ _ _ _ Htarget Hrun) as (_ & _ & _ & rules & _ & _ & ->).
  assert (t ∈ collect_targets rules []) as Hin.
  { apply sorted_str_elem. destruct (truthy_int limit); [by eapply slice_to_elem | done]. }
  apply collect_targets_elem in Hin as [[]%elem_of_nil | (r & _ & <- & [? _])]. done.
Qed.


(** What the scan of the conformance suite returns. *)
Lemma get_riscv_test_artifacts_Ret (s s' : state W) (artifacts : list (str * str)) :
  get_riscv_test_artifacts s = (Ret artifacts, s') →
  ∀ p, p ∈ artifacts → p.1 ∉ DENYLIST.
Proof.
  unfold get_riscv_test_artifacts, subprocess_run. munfold.
  destruct (sys_run _ [] (world s)) as [[[[rc out] err]|t] w]; munfold; [|done].
  destruct (rc =? 0)%Z; munfold; intros [= <- <-] p; [|by intros []%elem_of_nil].
  unfold sorted_pairs. rewrite merge_sort_Permutation.
  intros (d & Hp & _)%list_elem_of_bind.
  destruct (sys_isdir (strip d) w); [|by apply elem_of_nil in Hp]. cbn [negb] in Hp.
  apply list_elem_of_bind in Hp as ([root files] & Hp & _).
  apply list_elem_of_omap in Hp as (f & _ & Hf).
  unfold riscv_file_artifact in Hf.
  destruct (endswith f (pystr ".dump")); [done|].
  destruct (startswith f (pystr "rv32")); [|done].
  case_bool_decide as Hdeny; [done|]. by injection Hf as <-.
Qed.

End Catalog.

(** ** Which parts of the script write a report *)

Create HintDb keeps discriminated.

Section Frames.
Context {W : Type} `{!Sys W}.

Lemma keeps_ret {A} (a : A) : keeps_reports (W := W) (ret a).
Proof. done. Qed.

Lemma keeps_raise {A} (e : exn) : keeps_reports (W := W) (A := A) (raise e).
Proof. done. Qed.

Lemma keeps_ask {A} (f : W → A) : keeps_reports (ask f).
Proof. done. Qed.

Lemma keeps_call {A} (f : W → res A * W) : keeps_reports (call f).
Proof. intros s. unfold call. by destruct (f (world s)) as [[a|t] w]. Qed.

Lemma keeps_record_spawn (cmd : list str) : keeps_reports (W := W) (record_spawn cmd).
Proof. done. Qed.

Lemma keeps_bind {A B} (m : M W A) (k : A → M W B) :
  keeps_reports m → (∀ a, keeps_reports (k a)) → keeps_reports (m ≫= k).
Proof.
  intros Hm Hk s. rewrite bind_run. specialize (Hm s).
  destruct (m s) as [[a|e] s1]; [|done]. rewrite Hk. done.
Qed.

Lemma keeps_try_except {A} (catches : exn → bool) (m : M W A) (h : exn → M W A) :
  keeps_reports m → (∀ e, keeps_reports (h e)) → keeps_reports (try_except catches m h).
Proof.
  intros Hm Hh s. unfold try_except. specialize (Hm s).
  destruct (m s) as [[a|e] s1]; [done|].
  destruct (catches e); [|done]. by rewrite Hh.
Qed.

Lemma keeps_with {A B} (enter : M W A) (leave : A → M W unit) (body : A → M W B) :
  keeps_reports enter → (∀ a, keeps_reports (leave a)) → (∀ a, keeps_reports (body a)) →
  keeps_reports (with_ enter leave body).
Proof.
  intros He Hl Hb. unfold with_. apply keeps_bind; [done|]. intros a s.
  specialize (Hb a s). specialize (Hl a).
  destruct (body a s) as [[b|e] s1]; specialize (Hl s1);
    destruct (leave a s1) as [[[]|e'] s2]; cbn in *; congruence.
Qed.

Lemma keeps_when (b : bool) (m : M W unit) : keeps_reports m → keeps_reports (when_ b m).
Proof. by destruct b. Qed.

Lemma keeps_process_wait (pid timeout : Z) : keeps_reports (process_wait pid timeout).
Proof. intros s. unfold process_wait. by destruct (sys_wait _ _ _) as [[| |] w]. Qed.

End Frames.

#[export] Hint Resolve keeps_ret keeps_raise keeps_ask keeps_call keeps_record_spawn
  keeps_process_wait : keeps.

(** One step of a frame proof: the shape of the computation decides. *)
Ltac keeps_step :=
  lazymatch goal with
  | |- keeps_reports (_ ≫= _) => apply keeps_bind; [|intros ?]
  | |- keeps_reports (try_except _ _ _) => apply keeps_try_except; [|intros ?]
  | |- keeps_reports (with_ _ _ _) => apply keeps_with; [|intros ?|intros ?]
  | |- keeps_reports (when_ _ _) => apply keeps_when
  | |- keeps_reports (if ?b then _ else _) => destruct b
  | |- keeps_reports (match ?x with _ => _ end) => destruct x
  | |- keeps_reports (let _ := _ in _) => cbv zeta
  | |- _ => solve [eauto with keeps]
  end.

Ltac keeps := repeat keeps_step.

Section ScriptFrames.
Context {W : Type} `{!Sys W}.

Lemma keeps_subprocess_run cmd env check : keeps_reports (subprocess_run cmd env check).
Proof. unfold subprocess_run. keeps. Qed.
Hint Resolve keeps_subprocess_run : keeps.

Lemma keeps_get_targets limit target : keeps_reports (get_targets limit target).
Proof. unfold get_targets. keeps. Qed.

Lemma keeps_build_targets targets : keeps_reports (build_targets targets).
Proof. unfold build_targets. keeps. Qed.

Lemma keeps_get_elf_source_path target : keeps_reports (get_elf_source_path target).
Proof. unfold get_elf_source_path. keeps. Qed.

Lemma keeps_get_entry_point elf_path : keeps_reports (get_entry_point elf_path).
Proof. unfold get_entry_point. keeps. Qed.

Lemma keeps_build_simulator a b : keeps_reports (build_simulator a b).
Proof. unfold build_simulator. keeps. Qed.

Lemma keeps_build_spike : keeps_reports build_spike.
Proof. unfold build_spike. keeps. Qed.

Lemma keeps_generate_spike_log a b c d e : keeps_reports (generate_spike_log a b c d e).
Proof. unfold generate_spike_log, spike_with_body. keeps. Qed.

Lemma keeps_attempt_loop cmd env range last : keeps_reports (attempt_loop cmd env range last).
Proof.
  revert last. induction range as [|attempt rest IH]; intros last; cbn [attempt_loop]; keeps.
Qed.
Hint Resolve keeps_get_targets keeps_build_targets keeps_get_elf_source_path
  keeps_get_entry_point keeps_build_simulator keeps_build_spike keeps_generate_spike_log
  keeps_attempt_loop : keeps.

Lemma keeps_run_uvm a b c d : keeps_reports (run_uvm a b c d).
Proof. unfold run_uvm. keeps. Qed.

Lemma keeps_get_riscv_test_artifacts : keeps_reports get_riscv_test_artifacts.
Proof. unfold get_riscv_test_artifacts. keeps. Qed.
Hint Resolve keeps_run_uvm keeps_get_riscv_test_artifacts : keeps.

Lemma keeps_resolve_standard target std acc : keeps_reports (resolve_standard target std acc).
Proof.
  revert acc. induction std as [|t rest IH]; intros acc; cbn [resolve_standard]; keeps.
Qed.
Hint Resolve keeps_resolve_standard : keeps.

Lemma keeps_prepare_tests a std : keeps_reports (prepare_tests a std).
Proof. unfold prepare_tests. keeps. Qed.

Lemma keeps_copy_artifact a b : keeps_reports (copy_artifact a b).
Proof. unfold copy_artifact. keeps. Qed.
Hint Resolve keeps_prepare_tests keeps_copy_artifact : keeps.

Lemma keeps_spike_stage a b c d e f g : keeps_reports (spike_stage a b c d e f g).
Proof. unfold spike_stage. keeps. Qed.
Hint Resolve keeps_spike_stage : keeps.

Lemma keeps_process_test a b c d test : keeps_reports (process_test a b c d test).
Proof. unfold process_test. keeps. Qed.
Hint Resolve keeps_process_test : keeps.

Lemma keeps_regression_loop a b c d tests results last :
  keeps_reports (regression_loop a b c d tests results last).
Proof.
  revert results last. induction tests as [|test rest IH]; intros results last;
    cbn [regression_loop]; keeps.
Qed.

Lemma keeps_spike_check_loop a b tests failed : keeps_reports (spike_check_loop a b tests failed).
Proof.
  revert failed. induction tests as [|test rest IH]; intros failed;
    cbn [spike_check_loop]; keeps.
Qed.
Hint Resolve keeps_regression_loop keeps_spike_check_loop : keeps.

Lemma keeps_run_spike_timeout_check a b c : keeps_reports (run_spike_timeout_check a b c).
Proof. unfold run_spike_timeout_check. keeps. Qed.

Lemma keeps_checkout_git_commit a b : keeps_reports (checkout_git_commit a b).
Proof. unfold checkout_git_commit. keeps. Qed.

Lemma keeps_get_mpact_configs a : keeps_reports (get_mpact_configs a).
Proof. unfold get_mpact_configs. keeps. Qed.

End ScriptFrames.

(** ** The pipeline, from discovery to the report *)

Section Pipeline.
Context {W : Type} `{!Sys W}.

Lemma bind_inv {A B} (m : M W A) (k : A → M W B) (s s' : state W) (o : outcome B) :
  (m ≫= k) s = (o, s') →
  (∃ e, m s = (Raise e, s') ∧ o = Raise e)
  ∨ (∃ a s1, m s = (Ret a, s1) ∧ k a s1 = (o, s')).
Proof.
  rewrite bind_run. destruct (m s) as [[a|e] s1].
  - intros Hk. right. eauto.
  - intros [= <- <-]. left. eauto.
Qed.

Lemma bind_Ret_inv {A B} (m : M W A) (k : A → M W B) (s s' : state W) (b : B) :
  (m ≫= k) s = (Ret b, s') →
  ∃ a s1, m s = (Ret a, s1) ∧ k a s1 = (Ret b, s').
Proof. intros [(e & _ & [=]) | H]%bind_inv. done. Qed.

Lemma keeps_run {A} (m : M W A) (s s' : state W) (o : outcome A) :
  keeps_reports m → m s = (o, s') → reports s' = reports s.
Proof. intros Hm Hrun. specialize (Hm s). by rewrite Hrun in Hm. Qed.

(** The test cases are conformance-suite artifacts or standard
    targets. *)
Lemma resolve_standard_Ret (target : option str) (std : list str)
    (acc tests : list (str * str)) (s s' : state W) :
  resolve_standard target std acc s = (Ret tests, s') →
  ∀ p, p ∈ tests → p ∈ acc ∨ p.1 ∈ std.
Proof.
  revert acc s. induction std as [|t rest IH]; intros acc s; cbn [resolve_standard].
  - intros [= <- <-] p Hp. by left.
  - destruct (truthy target && negb (bool_decide (default [] target = t))).
    + intros Hrun p Hp. destruct (IH _ _ Hrun p Hp); [by left|].
      right. by apply elem_of_cons; right.
    + intros (elf & s1 & _ & Hrun)%bind_Ret_inv p Hp.
      destruct (truthy elf).
      * destruct (IH _ _ Hrun p Hp) as [[?| ->%list_elem_of_singleton]%elem_of_app|?].
        -- by left.
        -- right. by apply elem_of_cons; left.
        -- right. by apply elem_of_cons; right.
      * destruct (IH _ _ Hrun p Hp); [by left|].
        right. by apply elem_of_cons; right.
Qed.

Lemma prepare_tests_Ret (a : args) (std : list str) (tests : list (str * str))
    (s s' : state W) :
  prepare_tests a std s = (Ret tests, s') →
  ∀ p, p ∈ tests → p.1 ∈ std ∨ p.1 ∉ DENYLIST.
Proof.
  unfold prepare_tests.
  intros (_ & s1 & _ & (riscv & s2 & Hriscv & (all & s3 & Hstd & Hlimit)%bind_Ret_inv)
            %bind_Ret_inv)%bind_Ret_inv p Hp.
  assert (p ∈ all) as Hall.
  { destruct (truthy_int (arg_limit a)); injection Hlimit as <- <-; [|done].
    by eapply slice_to_elem. }
  destruct (resolve_standard_Ret _ _ _ _ _ _ Hstd p Hall) as [Hin|?]; [|by left].
  right. destruct (negb (arg_skip_riscv_tests a)).
  - apply bind_Ret_inv in Hriscv as (arts & s4 & Harts & [= <- <-]).
    apply list_elem_of_filter in Hin as [_ Hin].
    by eapply get_riscv_test_artifacts_Ret.
  - injection Hriscv as <- <-. by apply elem_of_nil in Hin.
Qed.

(** The variable [status] after the loop is the status of the last
    row. *)
Lemma regression_loop_status (spike_bin mpact_root temp_elf_dir logs_dir : str)
    (tests : list (str * str)) (results results' : list row)
    (last last' : option status) (s s' : state W) :
  last = Status <$> last_item results →
  regression_loop spike_bin mpact_root temp_elf_dir logs_dir tests results last s
  = (Ret (results', last'), s') →
  last' = Status <$> last_item results'.
Proof.
  revert results last s. induction tests as [|test rest IH]; intros results last s Hlast;
    cbn [regression_loop].
  - by intros [= <- <- <-].
  - intros ([[st reason] log] & s1 & _ & (_ & s2 & _ & Hrun)%bind_Ret_inv)%bind_Ret_inv.
    eapply IH, Hrun. unfold last_item. by rewrite last_snoc.
Qed.

(** Each test case gives one row, in order. *)
Lemma regression_loop_Ret (spike_bin mpact_root temp_elf_dir logs_dir : str)
    (tests : list (str * str)) (results results' : list row)
    (last last' : option status) (s s' : state W) :
  regression_loop spike_bin mpact_root temp_elf_dir logs_dir tests results last s
  = (Ret (results', last'), s') →
  Target <$> results' = (Target <$> results) ++ tests.*1.
Proof.
  revert results last s. induction tests as [|test rest IH]; intros results last s;
    cbn [regression_loop].
  - intros [= <- <- <-]. by rewrite app_nil_r.
  - intros ([[st reason] log] & s1 & _ & (_ & s2 & _ & Hrun)%bind_Ret_inv)%bind_Ret_inv.
    apply IH in Hrun as ->. by rewrite fmap_app, <- (assoc_L (++)).
Qed.

Lemma with_inv {A B} (enter : M W A) (leave : A → M W unit) (body : A → M W B)
    (s s' : state W) (o : outcome B) :
  (∀ a, keeps_reports (leave a)) →
  with_ enter leave body s = (o, s') →
  (∃ e, enter s = (Raise e, s'))
  ∨ (∃ a s1 o1 s2, enter s = (Ret a, s1) ∧ body a s1 = (o1, s2)
                   ∧ reports s' = reports s2).
Proof.
  intros Hleave. unfold with_.
  intros [(e & He & _) | (a & s1 & He & Hrun)]%bind_inv; [left; eauto|].
  right. exists a, s1. specialize (Hleave a).
  destruct (body a s1) as [o1 s2]. exists o1, s2. split_and!; [done | done |].
  specialize (Hleave s2).
  destruct o1 as [b|e]; destruct (leave a s2) as [[[]|e'] s3];
    injection Hrun as <- <-; done.
Qed.

(** [run_full_regression] writes at most one report, with one row
    for each test case it was given. *)
Lemma run_full_regression_report (tests : list (str * str)) (spike_bin mpact_root : str)
    (mpact_riscv_root : option str) (temp_elf_dir : str) (s s' : state W)
    (o : outcome unit) :
  run_full_regression tests spike_bin mpact_root mpact_riscv_root temp_elf_dir s = (o, s') →
  reports s' = reports s
  ∨ ∃ rows, reports s' = reports s ++ [rows] ∧ Target <$> rows = tests.*1.
Proof.
  unfold run_full_regression.
  intros [(e & Hb & _) | (built & s1 & Hb & Hrun)]%bind_inv.
  { left. eapply keeps_run, Hb. apply keeps_build_simulator. }
  apply keeps_run in Hb as <-; [|apply keeps_build_simulator].
  destruct built; cbn [negb] in Hrun; [|injection Hrun as <- <-; by left].
  rewrite ask_bind in Hrun. cbv zeta in Hrun.
  apply bind_inv in Hrun as [(e & Hm & _) | ([] & s2 & Hm & Hrun)].
  { left. eapply keeps_run, Hm. apply keeps_call. }
  apply keeps_run in Hm as <-; [|apply keeps_call].
  apply bind_inv in Hrun as [(e & Hl & _) | ([results st] & s3 & Hl & Hrun)].
  { left. eapply keeps_run, Hl. apply keeps_regression_loop. }
  pose proof (regression_loop_Ret _ _ _ _ _ _ _ _ _ _ _ Hl) as Hrows.
  apply keeps_run in Hl as <-; [|apply keeps_regression_loop].
  apply bind_inv in Hrun as [(e & Hc & _) | ([] & s4 & Hc & Hrun)].
  { left. eapply keeps_run, Hc. apply keeps_call. }
  apply keeps_run in Hc as <-; [|apply keeps_call].
  apply bind_inv in Hrun as [(e & [=] & _) | ([] & s5 & [= <-] & Hrun)].
  apply bind_inv in Hrun as [(e & Ha & _) | ([] & s6 & Ha & Hrun)].
  - right. exists results. split; [|done].
    eapply keeps_run in Ha as ->; [done | apply keeps_call].
  - right. exists results. split; [|done].
    eapply keeps_run in Ha; [|apply keeps_call]. cbn in Ha.
    destruct st as [[]|]; by injection Hrun as <- <-.
Qed.

(** A normal return of [run_full_regression], which gives the exit
    status 0, says that a report was written and that its last row is
    not [FAIL]; it says nothing of the rows before. *)
Lemma run_full_regression_normal_return (tests : list (str * str))
    (spike_bin mpact_root : str) (mpact_riscv_root : option str) (temp_elf_dir : str)
    (s s' : state W) :
  run_full_regression tests spike_bin mpact_root mpact_riscv_root temp_elf_dir s
  = (Ret (), s') →
  ∃ rows r, reports s' = reports s ++ [rows] ∧ last_item rows = Some r ∧ Status r ≠ FAIL.
Proof.
  unfold run_full_regression.
  intros (built & s1 & Hb & Hrun)%bind_Ret_inv.
  apply keeps_run in Hb as <-; [|apply keeps_build_simulator].
  destruct built; [|done]. cbn [negb] in Hrun.
  rewrite ask_bind in Hrun. cbv zeta in Hrun.
  apply bind_Ret_inv in Hrun as ([] & s2 & Hm & Hrun).
  apply keeps_run in Hm as <-; [|apply keeps_call].
  apply bind_Ret_inv in Hrun as ([results st] & s3 & Hl & Hrun).
  pose proof (regression_loop_status _ _ _ _ _ _ _ _ _ _ _ eq_refl Hl) as Hst.
  apply keeps_run in Hl as <-; [|apply keeps_regression_loop].
  apply bind_Ret_inv in Hrun as ([] & s4 & Hc & Hrun).
  apply keeps_run in Hc as <-; [|apply keeps_call].
  apply bind_Ret_inv in Hrun as ([] & s5 & [= <-] & Hrun).
  apply bind_Ret_inv in Hrun as ([] & s6 & Ha & Hrun).
  eapply keeps_run in Ha; [|apply keeps_call]. cbn in Ha.
  exists results. destruct (last_item results) as [r|]; cbn in Hst; subst st; [|done].
  exists r. destruct (Status r) eqn:E; try done; injection Hrun as <-; by rewrite Ha.
Qed.

(** What [main] leaves in the record of the written reports. *)
Lemma main_report (a : args) (s s' : state W) (o : outcome unit) :
  truthy (arg_target a) = false →
  main a s = (o, s') →
  reports s' = reports s
  ∨ ∃ rows, reports s' = reports s ++ [rows] ∧ ∀ r, r ∈ rows → Target r ∉ DENYLIST.
Proof.
  intros Htarget. unfold main.
  intros [(e & Hc & _) | ([mpact_root mpact_riscv_root] & s1 & Hc & Hrun)]%bind_inv.
  { left. eapply keeps_run, Hc. apply keeps_get_mpact_configs. }
  apply keeps_run in Hc as <-; [|apply keeps_get_mpact_configs].
  apply bind_inv in Hrun as [(e & Hc & _) | ([] & s2 & Hc & Hrun)].
  { left. eapply keeps_run, Hc. apply keeps_when, keeps_checkout_git_commit. }
  apply keeps_run in Hc as <-; [|apply keeps_when, keeps_checkout_git_commit].
  apply bind_inv in Hrun as [(e & Hc & _) | ([] & s3 & Hc & Hrun)].
  { left. eapply keeps_run, Hc. apply keeps_when, keeps_checkout_git_commit. }
  apply keeps_run in Hc as <-; [|apply keeps_when, keeps_checkout_git_commit].
  apply bind_inv in Hrun as [(e & Hc & _) | (std & s4 & Hstd & Hrun)].
  { left. eapply keeps_run, Hc. apply keeps_get_targets. }
  pose proof (get_targets_denylist _ _ _ _ _ Htarget Hstd) as Hdeny.
  apply keeps_run in Hstd as <-; [|apply keeps_get_targets].
  destruct (arg_list_targets a); [injection Hrun as <- <-; by left|].
  apply bind_inv in Hrun as [(e & Hc & _) | (tests & s5 & Htests & Hrun)].
  { left. eapply keeps_run, Hc. apply keeps_prepare_tests. }
  pose proof (prepare_tests_Ret _ _ _ _ _ Htests) as Hfrom.
  apply keeps_run in Htests as <-; [|apply keeps_prepare_tests].
  apply bind_inv in Hrun as [(e & Hc & _) | (spike_bin & s6 & Hc & Hrun)].
  { left. eapply keeps_run, Hc. apply keeps_build_spike. }
  apply keeps_run in Hc as <-; [|apply keeps_build_spike].
  apply bind_inv in Hrun as [(e & Hc & _) | (usable & s7 & Hc & Hrun)].
  { left. eapply keeps_run, Hc. destruct (truthy spike_bin); [apply keeps_ask | apply keeps_ret]. }
  apply keeps_run in Hc as <-;
    [|destruct (truthy spike_bin); [apply keeps_ask | apply keeps_ret]].
  destruct usable; cbn [negb] in Hrun; [|injection Hrun as <- <-; by left].
  apply with_inv in Hrun as [(e & Hc) | (d & s8 & o1 & s9 & Hc & Hbody & ->)];
    [| |intros ?; apply keeps_call].
  { left. eapply keeps_run, Hc. apply keeps_call. }
  apply keeps_run in Hc as <-; [|apply keeps_call].
  destruct (arg_check_spike_timeouts a).
  { left. eapply keeps_run, Hbody. apply keeps_run_spike_timeout_check. }
  apply run_full_regression_report in Hbody as [->|(rows & -> & Hrows)]; [by left|].
  right. exists rows. split; [done|]. intros r Hr.
  assert (Target r ∈ tests.*1) as (p & -> & Hp)%list_elem_of_fmap.
  { rewrite <- Hrows. apply list_elem_of_fmap. eauto. }
  destruct (Hfrom p Hp) as [Hin|?]; [by apply Hdeny | done].
Qed.

End Pipeline.

(** ** The orchestrator *)

Section Orchestrator.
Context {W : Type} `{!Sys W}.

(** C8.  With no single-target override, discovery returns no
    denylisted target (so [--list-targets], which prints what
    discovery returned, shows none); the scan of the conformance suite
    returns no artifact whose pseudo-target is denylisted; and a
    report written by [main] has no row for a denylisted target. *)
Theorem denylist_excluded :
  (∀ limit target (s s' : state W) targets,
     truthy target = false →
     get_targets limit target s = (Ret targets, s') →
     ∀ t, t ∈ DENYLIST → t ∉ targets)
  ∧ (∀ (s s' : state W) artifacts,
       get_riscv_test_artifacts s = (Ret artifacts, s') →
       ∀ p, p ∈ artifacts → p.1 ∉ DENYLIST)
  ∧ (∀ a (s s' : state W) o,
       truthy (arg_target a) = false →
       main a s = (o, s') →
       ∀ rows, rows ∈ reports s' →
         rows ∈ reports s ∨ ∀ r, r ∈ rows → Target r ∉ DENYLIST).
Proof.
  split_and!.
  - intros limit target s s' targets Htarget Hrun t Hdeny Ht.
    by eapply get_targets_denylist.
  - apply get_riscv_test_artifacts_Ret.
  - intros a s s' o Htarget Hrun rows Hrows.
    destruct (main_report a s s' o Htarget Hrun) as [Heq | (rows' & Heq & Hdeny)];
      rewrite Heq in Hrows; [by left|].
    apply elem_of_app in Hrows as [?| ->%list_elem_of_singleton]; [by left | by right].
Qed.

(** C2 (amended).  A test case whose artifact does not exist when
    its turn comes does not stop the run: processing it raises
    nothing and starts no child process, its row has the status
    [FAIL] and the reason ["ELF source not found (Build failed?)"],
    and the loop goes on with the next test case once the (empty) log
    of this one is written.  A standard target for which no artifact
    path is found is left out of the test cases, so it has no row. *)
Theorem missing_artifact_row (spike_bin mpact_root temp_elf_dir logs_dir target src_elf : str)
    (rest : list (str * str)) (results : list row) (last : option status) (s : state W) :
  sys_exists src_elf (world s) = false →
  process_test spike_bin mpact_root temp_elf_dir logs_dir (target, src_elf) s
  = (Ret (FAIL, pystr "ELF source not found (Build failed?)", []), s)
  ∧ regression_loop spike_bin mpact_root temp_elf_dir logs_dir
      ((target, src_elf) :: rest) results last s
    = (call (sys_write_text
               (os_path_join logs_dir (safe_target_name target ++ pystr ".log")) []);;
       regression_loop spike_bin mpact_root temp_elf_dir logs_dir rest
         (results ++ [ {| Target := target; Status := FAIL;
                          Reason := pystr "ELF source not found (Build failed?)";
                          Log_Path := os_path_join (pystr "logs")
                                        (safe_target_name target ++ pystr ".log") |} ])
         (Some FAIL)) s
  ∧ (∀ override std acc elf s1,
       truthy override = false →
       get_elf_source_path target s = (Ret elf, s1) → truthy elf = false →
       resolve_standard override (target :: std) acc s
       = resolve_standard override std acc s1).
Proof.
  intros Hmissing.
  assert (Hone : process_test spike_bin mpact_root temp_elf_dir logs_dir (target, src_elf) s
                 = (Ret (FAIL, pystr "ELF source not found (Build failed?)", []), s)).
  { unfold process_test. destruct src_elf as [|c src]; [done|].
    cbn [truthy]. by rewrite ask_bind, Hmissing. }
  split_and!; [done | |].
  - cbn [regression_loop]. rewrite bind_run, Hone. done.
  - intros override std acc elf s1 Hover Hpath Helf. cbn [resolve_standard].
    rewrite Hover. cbn [andb]. by rewrite bind_run, Hpath, Helf.
Qed.

End Orchestrator.

(** A reason that comes out of the classifier has no comma and no
    newline. *)
Lemma replace_char_gone (a b : char) (t : str) : a ≠ b → a ∉ replace_char a b t.
Proof.
  intros Hab (c & Hc & _)%list_elem_of_fmap.
  destruct (N.eqb_spec c a); congruence.
Qed.

Lemma sanitize_clean (reason : str) : (comma ∉ sanitize reason) ∧ (nl ∉ sanitize reason).
Proof.
  unfold sanitize. split; [|by apply replace_char_gone].
  intros [H|H]%replace_char_elem; [discriminate H|].
  by apply replace_char_gone in H.
Qed.

Lemma classify_reason_clean (returncode : Z) (output : str) :
  (comma ∉ (classify returncode output).1.2) ∧ (nl ∉ (classify returncode output).1.2).
Proof.
  unfold classify. destruct (negb (returncode =? 0)%Z); [apply sanitize_clean|].
  destruct (uvm_err output); [apply sanitize_clean|].
  split; apply (bool_decide_unpack _); by vm_compute.
Qed.

(** ** Worked runs *)

Example expected_linker_script_examples :
  expected_linker_script (pystr "//tests/cocotb:align_test") = pystr "//tests/cocotb:align_test.ld"
  ∧ expected_linker_script (pystr "//hw_sim") = pystr "//hw_sim:hw_sim.ld".
Proof. by vm_compute. Qed.

Example memory_map_example :
  get_spike_memory_map_str = pystr "0x0:0x2000,0x10000:0x8000,0x20000000:0x400000".
Proof. by vm_compute. Qed.

(** The run with a failed build, from the first query to the exit
    status. *)
Lemma failed_build_run :
  ∃ s', main (Sys0 := sim_sys failed_build) default_args failed_build_start = (Ret (), s')
        ∧ reports s' = [failed_build_rows].
Proof. eexists. split; by vm_compute. Qed.

(** C7 on the run with a failed build: the artifact of [//t:a] is
    missing. *)
Lemma run_uvm_missing_artifact_witness :
  run_uvm (Sys0 := sim_sys failed_build) (pystr "/out/a.elf") None (Some (pystr "//t:a"))
    (pystr "/tmp/copybara-mpact") failed_build_start
  = (Ret (BUILD_ARTIFACT_MISSING, pystr "ELF file not found", []), failed_build_start)
  ∧ spawned (run_uvm (Sys0 := sim_sys failed_build) (pystr "/out/a.elf") None
               (Some (pystr "//t:a")) (pystr "/tmp/copybara-mpact") failed_build_start).2
    = spawned failed_build_start.
Proof.
  apply (run_uvm_missing_artifact (Sys0 := sim_sys failed_build)). reflexivity.
Defined.

(** C4 on three attempts that all end with the license marker: three
    starts, and the result of the third. *)
Lemma run_uvm_retry_witness :
  let cmd := uvm_cmd (Sys0 := sim_sys failed_build) (world license_start)
               (pystr "/tmp/t.elf") None None in
  run_uvm (Sys0 := sim_sys failed_build) (pystr "/tmp/t.elf") None None
    (pystr "/tmp/copybara-mpact") license_start
  = (Ret (attempt_result license_failure),
     mkState (mkSim [pystr "/tmp/t.elf"] [] []) [cmd; cmd; cmd] []).
Proof.
  apply (run_uvm_retry (Sys0 := sim_sys failed_build) (pystr "/tmp/t.elf") None None
           (pystr "/tmp/copybara-mpact") license_start).
  reflexivity.
Defined.


(** C8 on the run with a failed build: neither discovery nor the
    report has a denylisted target. *)
Lemma denylist_excluded_witness :
  (∀ t, t ∈ DENYLIST → t ∉ [pystr "//t:a"; pystr "//t:b"; pystr "//t:c"])
  ∧ (∀ r, r ∈ failed_build_rows → Target r ∉ DENYLIST).
Proof.
  destruct (denylist_excluded (Sys0 := sim_sys failed_build)) as (Hdiscovery & _ & Hreport).
  split.
  - eapply (Hdiscovery None None failed_build_start); [reflexivity | by vm_compute].
  - destruct failed_build_run as (s' & Hrun & Hrows).
    destruct (Hreport default_args failed_build_start s' (Ret ()) eq_refl Hrun failed_build_rows)
      as [[]%elem_of_nil | Hclean]; [|done].
    rewrite Hrows. by left.
Defined.

(** C2 as the claim words it fails: on the run with a failed build,
    discovery returns [//t:a] and [//t:c]; the row of [//t:a], whose
    artifact is missing, has the status [FAIL], and [//t:c], for which
    no artifact is listed, has no row. *)
Lemma missing_artifact_row_counterexample :
  ∃ s1 s',
    get_targets (Sys0 := sim_sys failed_build) None None failed_build_start
    = (Ret [pystr "//t:a"; pystr "//t:b"; pystr "//t:c"], s1)
    ∧ main (Sys0 := sim_sys failed_build) default_args failed_build_start = (Ret (), s')
    ∧ reports s' = [failed_build_rows]
    ∧ ¬ (∃ r, r ∈ failed_build_rows ∧ Target r = pystr "//t:a"
              ∧ Status r = BUILD_ARTIFACT_MISSING)
    ∧ ¬ (∃ r, r ∈ failed_build_rows ∧ Target r = pystr "//t:c").
Proof.
  eexists _, _. split_and!; [by vm_compute | by vm_compute | by vm_compute | |].
  - intros (r & Hr & _ & Hs). unfold failed_build_rows in Hr.
    repeat (apply elem_of_cons in Hr as [->|Hr]); try (by apply elem_of_nil in Hr);
      discriminate Hs.
  - intros (r & Hr & Ht). unfold failed_build_rows in Hr.
    repeat (apply elem_of_cons in Hr as [->|Hr]); try (by apply elem_of_nil in Hr);
      by vm_compute in Ht.
Qed.

(** C2 (amended) on a missing artifact and on a target for which no
    artifact is listed. *)
Lemma missing_artifact_row_witness :
  process_test (Sys0 := sim_sys failed_build) spike_path (pystr "/m") (pystr "/tmp/d")
    (pystr "out/logs") (pystr "//t:a", pystr "/out/a.elf") unresolved_start
  = (Ret (FAIL, pystr "ELF source not found (Build failed?)", []), unresolved_start)
  ∧ resolve_standard (Sys0 := sim_sys failed_build) None [pystr "//t:c"] [] unresolved_start
    = (Ret [], mkState (mkSim [] [] [])
                 [[pystr "bazel"; pystr "cquery"; pystr "--output=files"; pystr "//t:c"]] []).
Proof.
  split.
  - apply (missing_artifact_row (Sys0 := sim_sys failed_build) spike_path (pystr "/m")
             (pystr "/tmp/d") (pystr "out/logs") (pystr "//t:a") (pystr "/out/a.elf")
             [] [] None unresolved_start).
    reflexivity.
  - destruct (missing_artifact_row (Sys0 := sim_sys failed_build) spike_path (pystr "/m")
                (pystr "/tmp/d") (pystr "out/logs") (pystr "//t:c") (pystr "/out/c.elf")
                [] [] None unresolved_start eq_refl) as (_ & _ & Hdrop).
    rewrite (Hdrop None [] [] None
               (mkState (mkSim [] [] [])
                  [[pystr "bazel"; pystr "cquery"; pystr "--output=files"; pystr "//t:c"]] []));
      by vm_compute.
Defined.

(** C1: the exit status looks at the last test case only.  On the run
    with a failed build the report has a [FAIL] row and the exit status
    is 0; on the run with nothing to test the report has no row and the
    exit status is 1. *)
Theorem exit_status_of_last_row :
  (∃ s', main (Sys0 := sim_sys failed_build) default_args failed_build_start = (Ret (), s')
         ∧ reports s' = [failed_build_rows]
         ∧ (∃ r, r ∈ failed_build_rows ∧ Status r = FAIL)
         ∧ exit_status (Ret ()) = 0%Z)
  ∧ (∃ e s', main (Sys0 := sim_sys failed_build) nothing_to_test_args nothing_to_test_start
             = (Raise e, s')
             ∧ reports s' = [[]]
             ∧ exit_status (Raise e) = 1%Z).
Proof.
  split.
  - eexists. split_and!; [by vm_compute | by vm_compute | | done].
    eexists. split; [apply elem_of_cons; right; apply elem_of_cons; by left | done].
  - eexists _, _. split_and!; by vm_compute.
Qed.

(** C6: the text of an exception goes into the report as it is.  On
    the run with an artifact that cannot be copied, the reason of the
    row has a comma. *)
Theorem exception_reason_not_sanitized :
  ∃ o s' r,
    main (Sys0 := sim_sys unreadable_artifact) default_args unreadable_artifact_start = (o, s')
    ∧ reports s' = [[r]]
    ∧ Status r = FAIL
    ∧ Reason r = pystr "Copy/Setup failed: " ++ copy_error_text
    ∧ comma ∈ Reason r.
Proof.
  eexists _, _, _. split_and!; [by vm_compute | by vm_compute | done | by vm_compute |].
  apply (bool_decide_unpack _). by vm_compute.
Qed.

(** The same holds for [EXEC_FAIL]: the reason is the text of the
    exception raised when the simulator is started. *)
Lemma exec_fail_reason (text : str) :
  attempt_result (Err text) = (EXEC_FAIL, text, []).
Proof. reflexivity. Qed.

(** * Further properties of the script *)

(** ** The classifier, continued *)

Lemma first_error_line_Some (ls : list str) (l : str) :
  first_error_line ls = Some l →
  l ∈ ls ∧ ∃ x, after_marker (lstrip l) = Some x.
Proof.
  induction ls as [|l' ls IH]; [done|]. rewrite first_error_line_cons.
  destruct (after_marker (lstrip l')) as [x|] eqn:E.
  - destruct (zero_count _).
    + intros [? ?]%IH. split; [by apply elem_of_cons; right | done].
    + intros [= ->]. split; [by apply elem_of_cons; left | eauto].
  - intros [? ?]%IH. split; [by apply elem_of_cons; right | done].
Qed.

Lemma lstrip_app_head (u v : str) (c : char) :
  is_space c = false → ∃ w, lstrip (u ++ c :: v) = w ++ c :: v.
Proof.
  intros Hc. induction u as [|d u [w IH]]; cbn [app lstrip].
  - rewrite Hc. by exists [].
  - destruct (is_space d); [by exists w | by exists (d :: u)].
Qed.

(** Trimming on the right keeps a prefix that ends with a character
    that is not whitespace. *)
Lemma rstrip_keeps_prefix (a b : str) (c : char) :
  is_space c = false → ∃ w, rstrip ((a ++ [c]) ++ b) = (a ++ [c]) ++ w.
Proof.
  intros Hc. unfold rstrip. rewrite !reverse_app, reverse_singleton. cbn [app].
  destruct (lstrip_app_head (reverse b) (reverse a) c Hc) as [w ->].
  exists (reverse w).
  by rewrite reverse_app, reverse_cons, reverse_involutive.
Qed.

Lemma strip_prefix_app_same (m x : str) : strip_prefix m (m ++ x) = Some x.
Proof. by apply strip_prefix_Some. Qed.

(** The reason of a detected error starts with the marker. *)
Lemma error_reason_marker (l x : str) :
  after_marker (lstrip l) = Some x →
  startswith (replace_char comma semicolon (strip l)) (pystr "UVM_FATAL") = true
  ∨ startswith (replace_char comma semicolon (strip l)) (pystr "UVM_ERROR") = true.
Proof.
  intros [Hm|Hm]%after_marker_Some; unfold strip; rewrite Hm; [left|right].
  - destruct (rstrip_keeps_prefix (pystr "UVM_FATA") x 76 eq_refl) as [w Hw].
    change (pystr "UVM_FATA" ++ [76]) with (pystr "UVM_FATAL") in Hw. rewrite Hw.
    rewrite replace_char_app. unfold startswith.
    change (replace_char comma semicolon (pystr "UVM_FATAL")) with (pystr "UVM_FATAL").
    rewrite strip_prefix_app_same. by apply bool_decide_eq_true.
  - destruct (rstrip_keeps_prefix (pystr "UVM_ERRO") x 82 eq_refl) as [w Hw].
    change (pystr "UVM_ERRO" ++ [82]) with (pystr "UVM_ERROR") in Hw. rewrite Hw.
    rewrite replace_char_app. unfold startswith.
    change (replace_char comma semicolon (pystr "UVM_ERROR")) with (pystr "UVM_ERROR").
    rewrite strip_prefix_app_same. by apply bool_decide_eq_true.
Qed.




(** X3.  Every reason that the classification returns fits a CSV
    field: it has no comma and no newline. *)
Theorem classify_reason_sanitized (returncode : Z) (output : str) :
  (comma ∉ (classify returncode output).1.2) ∧ (nl ∉ (classify returncode output).1.2).
Proof.
  unfold classify. destruct (negb (returncode =? 0)%Z); [apply sanitize_clean|].
  destruct (uvm_err output); [apply sanitize_clean|].
  split; apply (bool_decide_unpack _); by vm_compute.
Qed.

(** ** The simulation runner, continued *)

Lemma classify_status (returncode : Z) (output : str) :
  (classify returncode output).1.1 = PASS ∨ (classify returncode output).1.1 = FAIL.
Proof.
  unfold classify. destruct (negb (returncode =? 0)%Z); [by right|].
  destruct (uvm_err output); [by right | by left].
Qed.

Lemma classify_log (returncode : Z) (output : str) : (classify returncode output).2 = output.
Proof.
  unfold classify. destruct (negb (returncode =? 0)%Z); [done|].
  by destruct (uvm_err output).
Qed.

Section RunnerMore.
Context {W : Type} `{!Sys W}.

(** Every way [run_uvm] ends. *)
Lemma run_uvm_result (elf_path : str) (spike_log_path target : option str)
    (mpact_root : str) (s : state W) :
  ∃ r s' n,
    run_uvm elf_path spike_log_path target mpact_root s = (Ret r, s')
    ∧ (n ≤ 3)%nat
    ∧ spawned s' = spawned s ++ replicate n (uvm_cmd (world s) elf_path spike_log_path target)
    ∧ reports s' = reports s
    ∧ ((n = 0%nat ∧ sys_exists elf_path (world s) = false
        ∧ r = (BUILD_ARTIFACT_MISSING, pystr "ELF file not found", []))
       ∨ ((1 ≤ n)%nat ∧ sys_exists elf_path (world s) = true
          ∧ ∃ o, r = attempt_result o)).
Proof.
  destruct (sys_exists elf_path (world s)) eqn:Hfound.
  - set (cmd := uvm_cmd (world s) elf_path spike_log_path target).
    set (env := [(pystr "CORALNPU_MPACT", mpact_root)]).
    pose proof (attempt_loop_three cmd env s) as Hloop.
    unfold run_uvm. rewrite ask_bind, Hfound. cbn [negb].
    rewrite ask_bind. fold cmd env. rewrite bind_run.
    destruct (sys_run cmd env (world s)) as [o1 w1].
    destruct (sys_run cmd env w1) as [o2 w2].
    destruct (sys_run cmd env w2) as [o3 w3].
    rewrite Hloop.
    destruct (retryable o1); cbn [negb].
    + destruct (retryable o2); cbn [negb].
      * exists (attempt_result o3), (mkState w3 (spawned s ++ [cmd; cmd; cmd]) (reports s)), 3%nat.
        split_and!; [by destruct o3 as [[[rc out] err]|t] | lia | done | done |].
        right. split_and!; [lia | done | eauto].
      * exists (attempt_result o2), (mkState w2 (spawned s ++ [cmd; cmd]) (reports s)), 2%nat.
        split_and!; [by destruct o2 as [[[rc out] err]|t] | lia | done | done |].
        right. split_and!; [lia | done | eauto].
    + exists (attempt_result o1), (mkState w1 (spawned s ++ [cmd]) (reports s)), 1%nat.
      split_and!; [by destruct o1 as [[[rc out] err]|t] | lia | done | done |].
      right. split_and!; [lia | done | eauto].
  - exists (BUILD_ARTIFACT_MISSING, pystr "ELF file not found", []), s, 0%nat.
    split_and!; [|lia|by rewrite app_nil_r|done|by left].
    unfold run_uvm. munfold. by rewrite Hfound.
Qed.


(** X5.  A reason that [run_uvm] returns has no comma and no newline,
    unless the status is [EXEC_FAIL], where the reason is the text of
    the exception as it is. *)
Theorem run_uvm_reason_sanitized (elf_path : str) (spike_log_path target : option str)
    (mpact_root : str) (s s' : state W) (status : status) (reason log : str) :
  run_uvm elf_path spike_log_path target mpact_root s = (Ret (status, reason, log), s') →
  status ≠ EXEC_FAIL →
  (comma ∉ reason) ∧ (nl ∉ reason).
Proof.
  intros Hrun Hst.
  destruct (run_uvm_result elf_path spike_log_path target mpact_root s)
    as (r & s1 & n & Hrun' & _ & _ & _ & Hcase).
  rewrite Hrun in Hrun'. injection Hrun' as <- <-.
  destruct Hcase as [(_ & _ & [= -> -> ->]) | (_ & _ & [[[[rc out] err]|t] Ho])].
  - split; apply (bool_decide_unpack _); by vm_compute.
  - cbn in Ho. pose proof (classify_reason_clean rc (out ++ err)) as Hclean.
    by rewrite <- Ho in Hclean.
  - by injection Ho as -> -> ->.
Qed.

End RunnerMore.

Lemma run_uvm_reason_sanitized_witness :
  (attempt_result license_failure).1.2
  = pystr "Make failed: Failed to obtain license; call 1-800-VERILOG"
  ∧ (comma ∉ (attempt_result license_failure).1.2)
  ∧ (nl ∉ (attempt_result license_failure).1.2).
Proof.
  split; [by vm_compute|].
  eapply (run_uvm_reason_sanitized (Sys0 := sim_sys failed_build) (pystr "/tmp/t.elf") None None
            (pystr "/tmp/copybara-mpact") license_start _
            (attempt_result license_failure).1.1 _ (attempt_result license_failure).2).
  - by vm_compute.
  - by vm_compute.
Defined.

(** ** Which parts of the script can end the process, and what they start *)

Create HintDb no_exit discriminated.
Create HintDb spawns discriminated.

Section Effects.
Context {W : Type} `{!Sys W}.

Lemma no_exit_ret {A} (a : A) : no_exit (W := W) (ret a).
Proof. by intros s e s' [=]. Qed.

Lemma no_exit_raise {A} (e : exn) : is_Exception e = true → no_exit (W := W) (A := A) (raise e).
Proof. by intros He s e' s' [= <- _]. Qed.

Lemma no_exit_ask {A} (f : W → A) : no_exit (ask f).
Proof. by intros s e s' [=]. Qed.

Lemma no_exit_call {A} (f : W → res A * W) : no_exit (call f).
Proof.
  intros s e s'. unfold call. destruct (f (world s)) as [[a|t] w]; [done|].
  by intros [= <- _].
Qed.

Lemma no_exit_record_spawn (cmd : list str) : no_exit (W := W) (record_spawn cmd).
Proof. by intros s e s' [=]. Qed.

Lemma no_exit_bind {A B} (m : M W A) (k : A → M W B) :
  no_exit m → (∀ a, no_exit (k a)) → no_exit (m ≫= k).
Proof.
  intros Hm Hk s e s'. rewrite bind_run.
  destruct (m s) as [[a|e'] s1] eqn:E.
  - apply Hk.
  - intros [= <- <-]. by eapply Hm.
Qed.

Lemma no_exit_try_except {A} (catches : exn → bool) (m : M W A) (h : exn → M W A) :
  no_exit m → (∀ e, no_exit (h e)) → no_exit (try_except catches m h).
Proof.
  intros Hm Hh s e s'. unfold try_except.
  destruct (m s) as [[a|e'] s1] eqn:E; [done|].
  destruct (catches e'); [apply Hh|]. intros [= <- <-]. by eapply Hm.
Qed.

Lemma no_exit_with {A B} (enter : M W A) (leave : A → M W unit) (body : A → M W B) :
  no_exit enter → (∀ a, no_exit (leave a)) → (∀ a, no_exit (body a)) →
  no_exit (with_ enter leave body).
Proof.
  intros He Hl Hb. unfold with_. apply no_exit_bind; [done|]. intros a s e s'.
  specialize (Hb a s). specialize (Hl a).
  destruct (body a s) as [[b|e1] s1]; specialize (Hl s1);
    destruct (leave a s1) as [[[]|e2] s2]; intros [= <- <-]; eauto.
Qed.

Lemma no_exit_when (b : bool) (m : M W unit) : no_exit m → no_exit (when_ b m).
Proof. destruct b; [done|]. intros _. apply no_exit_ret. Qed.

Lemma no_exit_process_wait (pid timeout : Z) : no_exit (process_wait pid timeout).
Proof.
  intros s e s'. unfold process_wait.
  destruct (sys_wait _ _ _) as [[| |] w]; [done | |]; by intros [= <- _].
Qed.

(** A computation that always returns does not exit. *)
Lemma no_exit_total {A} (m : M W A) : (∀ s, ∃ a s', m s = (Ret a, s')) → no_exit m.
Proof. intros Hm s e s' Hrun. destruct (Hm s) as (a & s1 & Hret). congruence. Qed.

(** An [except Exception] clause with a handler that returns makes a
    computation that does not exit return. *)
Lemma try_except_total {A} (m : M W A) (h : exn → M W A) :
  no_exit m → (∀ e s, ∃ a s', h e s = (Ret a, s')) →
  ∀ s, ∃ a s', try_except is_Exception m h s = (Ret a, s').
Proof.
  intros Hm Hh s. unfold try_except. destruct (m s) as [[a|e] s1] eqn:E; [eauto|].
  rewrite (Hm _ _ _ E). apply Hh.
Qed.

Lemma spawns_ret {A} P (a : A) : spawns_only (W := W) P (ret a).
Proof. intros s. exists []. by rewrite app_nil_r. Qed.

Lemma spawns_raise {A} P (e : exn) : spawns_only (W := W) (A := A) P (raise e).
Proof. intros s. exists []. by rewrite app_nil_r. Qed.

Lemma spawns_ask {A} P (f : W → A) : spawns_only P (ask f).
Proof. intros s. exists []. by rewrite app_nil_r. Qed.

Lemma spawns_call {A} P (f : W → res A * W) : spawns_only P (call f).
Proof.
  intros s. exists []. rewrite app_nil_r. unfold call.
  by destruct (f (world s)) as [[a|t] w].
Qed.

Lemma spawns_record_spawn (P : list str → Prop) (cmd : list str) :
  P cmd → spawns_only (W := W) P (record_spawn cmd).
Proof. intros Hc s. exists [cmd]. split; [done | by constructor]. Qed.

Lemma spawns_bind {A B} P (m : M W A) (k : A → M W B) :
  spawns_only P m → (∀ a, spawns_only P (k a)) → spawns_only P (m ≫= k).
Proof.
  intros Hm Hk s. rewrite bind_run. destruct (Hm s) as (l1 & H1 & HP1).
  destruct (m s) as [[a|e] s1]; cbn [snd] in *; [|eauto].
  destruct (Hk a s1) as (l2 & H2 & HP2). exists (l1 ++ l2).
  rewrite H2, H1, (assoc_L (++)). split; [done | by apply Forall_app].
Qed.

Lemma spawns_try_except {A} P (catches : exn → bool) (m : M W A) (h : exn → M W A) :
  spawns_only P m → (∀ e, spawns_only P (h e)) → spawns_only P (try_except catches m h).
Proof.
  intros Hm Hh s. unfold try_except. destruct (Hm s) as (l1 & H1 & HP1).
  destruct (m s) as [[a|e] s1]; cbn [snd] in *; [eauto|].
  destruct (catches e); [|eauto].
  destruct (Hh e s1) as (l2 & H2 & HP2). exists (l1 ++ l2).
  rewrite H2, H1, (assoc_L (++)). split; [done | by apply Forall_app].
Qed.

Lemma spawns_with {A B} P (enter : M W A) (leave : A → M W unit) (body : A → M W B) :
  spawns_only P enter → (∀ a, spawns_only P (leave a)) → (∀ a, spawns_only P (body a)) →
  spawns_only P (with_ enter leave body).
Proof.
  intros He Hl Hb. unfold with_. apply spawns_bind; [done|]. intros a s.
  destruct (Hb a s) as (l1 & H1 & HP1).
  destruct (body a s) as [o1 s1]; cbn [snd] in *.
  destruct (Hl a s1) as (l2 & H2 & HP2).
  exists (l1 ++ l2). split; [|by apply Forall_app].
  rewrite (assoc_L (++)), <- H1, <- H2.
  by destruct o1, (leave a s1) as [[[]|e2] s2].
Qed.

Lemma spawns_when P (b : bool) (m : M W unit) : spawns_only P m → spawns_only P (when_ b m).
Proof. destruct b; [done|]. intros _. apply spawns_ret. Qed.

Lemma spawns_process_wait P (pid timeout : Z) : spawns_only P (process_wait pid timeout).
Proof.
  intros s. exists []. rewrite app_nil_r. unfold process_wait.
  by destruct (sys_wait _ _ _) as [[| |] w].
Qed.

Lemma spawns_subprocess_run (P : list str → Prop) cmd env check :
  P cmd → spawns_only P (subprocess_run cmd env check).
Proof.
  intros Hc. unfold subprocess_run.
  apply spawns_bind; [by apply spawns_record_spawn|]. intros _.
  apply spawns_bind; [apply spawns_call|]. intros r.
  destruct (check && _); [apply spawns_raise | apply spawns_ret].
Qed.

Lemma spawns_run {A} P (m : M W A) (s s' : state W) (o : outcome A) :
  spawns_only P m → m s = (o, s') → ∃ cmds, spawned s' = spawned s ++ cmds ∧ Forall P cmds.
Proof. intros Hm Hrun. specialize (Hm s). by rewrite Hrun in Hm. Qed.

End Effects.

#[export] Hint Resolve no_exit_ret no_exit_ask no_exit_call no_exit_record_spawn
  no_exit_process_wait : no_exit.
#[export] Hint Resolve spawns_ret spawns_raise spawns_ask spawns_call spawns_process_wait
  : spawns.

Ltac no_exit_step :=
  lazymatch goal with
  | |- no_exit (_ ≫= _) => apply no_exit_bind; [|intros ?]
  | |- no_exit (try_except _ _ _) => apply no_exit_try_except; [|intros ?]
  | |- no_exit (with_ _ _ _) => apply no_exit_with; [|intros ?|intros ?]
  | |- no_exit (when_ _ _) => apply no_exit_when
  | |- no_exit (raise _) => apply no_exit_raise; reflexivity
  | |- no_exit (if ?b then _ else _) => destruct b
  | |- no_exit (match ?x with _ => _ end) => destruct x
  | |- no_exit (let _ := _ in _) => cbv zeta
  | |- _ => solve [eauto with no_exit]
  end.

Ltac no_exit := repeat no_exit_step.

Ltac spawns_step :=
  lazymatch goal with
  | |- spawns_only _ (_ ≫= _) => apply spawns_bind; [|intros ?]
  | |- spawns_only _ (try_except _ _ _) => apply spawns_try_except; [|intros ?]
  | |- spawns_only _ (with_ _ _ _) => apply spawns_with; [|intros ?|intros ?]
  | |- spawns_only _ (when_ _ _) => apply spawns_when
  | |- spawns_only _ (if ?b then _ else _) => destruct b
  | |- spawns_only _ (match ?x with _ => _ end) => destruct x
  | |- spawns_only _ (let _ := _ in _) => cbv zeta
  | |- _ => solve [eauto with spawns]
  end.

Ltac spawns := repeat spawns_step.

(** ** The regression loop, continued *)

Section PipelineMore.
Context {W : Type} `{!Sys W}.

Lemma no_exit_subprocess_run cmd env check : no_exit (subprocess_run cmd env check).
Proof. unfold subprocess_run. no_exit. Qed.

Lemma no_exit_build_simulator a b : no_exit (build_simulator a b).
Proof. unfold build_simulator. cbv zeta. no_exit; apply no_exit_subprocess_run. Qed.

Lemma no_exit_get_entry_point elf_path : no_exit (get_entry_point elf_path).
Proof. unfold get_entry_point. no_exit. Qed.

Lemma no_exit_generate_spike_log a b c d e : no_exit (generate_spike_log a b c d e).
Proof. unfold generate_spike_log, spike_with_body. cbv zeta. no_exit. Qed.

Lemma no_exit_copy_artifact a b : no_exit (copy_artifact a b).
Proof. unfold copy_artifact. no_exit. Qed.

Lemma no_exit_run_uvm a b c d : no_exit (run_uvm a b c d).
Proof.
  apply no_exit_total. intros s.
  destruct (run_uvm_result a b c d s) as (r & s' & _ & Hrun & _). eauto.
Qed.

Lemma no_exit_spike_stage a b c d e f g : no_exit (spike_stage a b c d e f g).
Proof. unfold spike_stage. cbv zeta. no_exit; apply no_exit_generate_spike_log. Qed.

(** A test case always gives a result: what goes wrong while it is
    prepared or run is caught and becomes the reason of its row. *)
Lemma process_test_returns (spike_bin mpact_root temp_elf_dir logs_dir : str)
    (test : str * str) (s : state W) :
  ∃ r s', process_test spike_bin mpact_root temp_elf_dir logs_dir test s = (Ret r, s')
          ∧ reports s' = reports s.
Proof.
  assert (∃ r s', process_test spike_bin mpact_root temp_elf_dir logs_dir test s = (Ret r, s'))
    as (r & s' & Hrun).
  { destruct test as [target src_elf]. unfold process_test. rewrite bind_run.
    destruct (if truthy (Some src_elf) then ask (sys_exists src_elf) else ret false)
      as [[[]|e] s1] eqn:E.
    - apply try_except_total; [|intros; eauto].
      no_exit; auto using no_exit_copy_artifact, no_exit_get_entry_point,
        no_exit_spike_stage, no_exit_run_uvm.
    - eauto.
    - by destruct (truthy (Some src_elf)). }
  exists r, s'. split; [done|]. eapply keeps_run, Hrun. apply keeps_process_test.
Qed.

Lemma no_exit_regression_loop a b c d tests results last :
  no_exit (regression_loop a b c d tests results last).
Proof.
  revert results last. induction tests as [|test rest IH]; intros results last;
    cbn [regression_loop]; [apply no_exit_ret|].
  apply no_exit_bind.
  - apply no_exit_total. intros s.
    destruct (process_test_returns a b c d test s) as (r & s' & Hrun & _). eauto.
  - intros [[st reason] log]. apply no_exit_bind; [apply no_exit_call | intros _; apply IH].
Qed.

(** The process does not exit from inside a computation that does not
    exit. *)
Lemma no_exit_run {A} (m : M W A) (s s' : state W) (code : Z) :
  no_exit m → m s = (Raise (SystemExit code), s') → False.
Proof. intros Hm Hrun. by apply Hm in Hrun. Qed.

(** X7.  When every log file can be written, the loop of
    [run_full_regression] goes through all the test cases, whatever
    happens to each of them: it returns the rows it was given followed
    by one row for each test case, in order, each with the target and
    the relative path [logs/<safe name>.log] of its log.  It writes no
    report itself. *)
Theorem regression_loop_total (spike_bin mpact_root temp_elf_dir logs_dir : str)
    (tests_to_run : list (str * str)) (results : list row) (last : option status)
    (s : state W) :
  (∀ p t w, ∃ w', sys_write_text p t w = (Ok (), w')) →
  ∃ rows last' s',
    regression_loop spike_bin mpact_root temp_elf_dir logs_dir tests_to_run results last s
    = (Ret (results ++ rows, last'), s')
    ∧ Target <$> rows = tests_to_run.*1
    ∧ Log_Path <$> rows
      = (λ t, os_path_join (pystr "logs") (safe_target_name t ++ pystr ".log"))
          <$> tests_to_run.*1
    ∧ reports s' = reports s.
Proof.
  intros Hwrite. revert results last s.
  induction tests_to_run as [|test rest IH]; intros results last s; cbn [regression_loop].
  - exists [], last, s. by rewrite app_nil_r.
  - destruct (process_test_returns spike_bin mpact_root temp_elf_dir logs_dir test s)
      as ([[st reason] log] & s1 & Hone & Hrep1).
    rewrite bind_run, Hone. cbv zeta.
    set (log_path := os_path_join logs_dir (safe_target_name test.1 ++ pystr ".log")).
    destruct (Hwrite log_path log (world s1)) as [w2 Hw].
    rewrite bind_run. unfold call at 1. rewrite Hw.
    set (r := {| Target := test.1; Status := st; Reason := reason;
                 Log_Path := os_path_join (pystr "logs")
                               (safe_target_name test.1 ++ pystr ".log") |}).
    destruct (IH (results ++ [r]) (Some st) (with_world w2 s1))
      as (rows & last' & s' & Hrun & Htargets & Hlogs & Hrep).
    exists (r :: rows), last', s'. split_and!.
    + rewrite Hrun. by rewrite <- (assoc_L (++)).
    + cbn. by rewrite Htargets.
    + cbn. by rewrite Hlogs.
    + by rewrite Hrep.
Qed.

(** X8.  When [run_full_regression] ends the process with
    [sys.exit], the exit status is 1, and either the build of the
    simulator failed - then nothing else was done: no test case was
    run and no report written - or the report was written and its last
    row is [FAIL]. *)
Theorem run_full_regression_exit (tests_to_run : list (str * str))
    (spike_bin mpact_root : str) (mpact_riscv_root : option str) (temp_elf_dir : str)
    (s s' : state W) (code : Z) :
  run_full_regression tests_to_run spike_bin mpact_root mpact_riscv_root temp_elf_dir s
  = (Raise (SystemExit code), s') →
  code = 1%Z
  ∧ (build_simulator mpact_root mpact_riscv_root s = (Ret false, s')
     ∨ ∃ rows r, reports s' = reports s ++ [rows]
                 ∧ last_item rows = Some r ∧ Status r = FAIL).
Proof.
  unfold run_full_regression.
  intros [(e & Hb & [= <-]) | (built & s1 & Hb & Hrun)]%bind_inv.
  { by apply no_exit_run in Hb; [|apply no_exit_build_simulator]. }
  destruct built; cbn [negb] in Hrun; [|injection Hrun as <- <-; by split; [|left]].
  apply keeps_run in Hb as <-; [|apply keeps_build_simulator].
  rewrite ask_bind in Hrun. cbv zeta in Hrun.
  apply bind_inv in Hrun as [(e & Hm & [= <-]) | ([] & s2 & Hm & Hrun)].
  { by apply no_exit_run in Hm; [|apply no_exit_call]. }
  apply keeps_run in Hm as <-; [|apply keeps_call].
  apply bind_inv in Hrun as [(e & Hl & [= <-]) | ([results st] & s3 & Hl & Hrun)].
  { by apply no_exit_run in Hl; [|apply no_exit_regression_loop]. }
  pose proof (regression_loop_status _ _ _ _ _ _ _ _ _ _ _ eq_refl Hl) as Hst.
  apply keeps_run in Hl as <-; [|apply keeps_regression_loop].
  apply bind_inv in Hrun as [(e & Hc & [= <-]) | ([] & s4 & Hc & Hrun)].
  { by apply no_exit_run in Hc; [|apply no_exit_call]. }
  apply keeps_run in Hc as <-; [|apply keeps_call].
  apply bind_inv in Hrun as [(e & [=] & _) | ([] & s5 & [= <-] & Hrun)].
  apply bind_inv in Hrun as [(e & Ha & [= <-]) | ([] & s6 & Ha & Hrun)].
  { by apply no_exit_run in Ha; [|apply no_exit_call]. }
  eapply keeps_run in Ha; [|apply keeps_call]. cbn in Ha.
  destruct (last_item results) as [r|] eqn:Hlast; cbn in Hst; subst st; [|done].
  destruct (Status r) eqn:E; try done. injection Hrun as <- <-.
  split; [done|]. right. exists results, r. by rewrite Ha.
Qed.

End PipelineMore.

Lemma regression_loop_total_witness :
  ∃ rows last' s',
    regression_loop (Sys0 := sim_sys failed_build) spike_path (pystr "/tmp/copybara-mpact")
      (pystr "/tmp/uvm_reg_") (pystr "out/logs")
      [(pystr "//tests:a", pystr "/out/a.elf"); (pystr "//tests/b:c", pystr "/out/c.elf")]
      [] None (mkState (mkSim [] [] []) [] [])
    = (Ret ([] ++ rows, last'), s')
    ∧ Target <$> rows = [pystr "//tests:a"; pystr "//tests/b:c"]
    ∧ Log_Path <$> rows
      = (λ t, os_path_join (pystr "logs") (safe_target_name t ++ pystr ".log"))
          <$> [pystr "//tests:a"; pystr "//tests/b:c"]
    ∧ reports s' = [].
Proof.
  apply (regression_loop_total (Sys0 := sim_sys failed_build) spike_path
           (pystr "/tmp/copybara-mpact") (pystr "/tmp/uvm_reg_") (pystr "out/logs")
           [(pystr "//tests:a", pystr "/out/a.elf"); (pystr "//tests/b:c", pystr "/out/c.elf")]
           [] None (mkState (mkSim [] [] []) [] [])).
  intros p t w. eexists. reflexivity.
Defined.

Lemma run_full_regression_exit_witness :
  1%Z = 1%Z
  ∧ (build_simulator (Sys0 := sim_sys failed_build) (pystr "/tmp/copybara-mpact") None
       (mkState (mkSim [] [Ok (2%Z, [], pystr "compile error")] []) [] [])
     = (Ret false,
        mkState (mkSim [] [] [])
          [pystr <$> ["make"; "-C"; "tests/uvm"; "compile"]%string] [])
     ∨ ∃ rows r,
         reports (mkState (mkSim [] [] [])
                    [pystr <$> ["make"; "-C"; "tests/uvm"; "compile"]%string] [])
         = reports (mkState (mkSim [] [Ok (2%Z, [], pystr "compile error")] []) [] [])
           ++ [rows]
         ∧ last_item rows = Some r ∧ Status r = FAIL).
Proof.
  apply (run_full_regression_exit (Sys0 := sim_sys failed_build)
           [(pystr "//tests:a", pystr "/out/a.elf")] spike_path (pystr "/tmp/copybara-mpact")
           None (pystr "/tmp/uvm_reg_")).
  by vm_compute.
Defined.

(** ** The child processes of each part of the script *)

Section Children.
Context {W : Type} `{!Sys W}.

Lemma spawns_mono {A} (P Q : list str → Prop) (m : M W A) :
  (∀ c, P c → Q c) → spawns_only P m → spawns_only Q m.
Proof.
  intros HPQ Hm s. destruct (Hm s) as (cmds & Hs & HP). exists cmds.
  split; [done|]. eapply Forall_impl; eauto.
Qed.

(** A computation that starts only what nothing is starts nothing. *)
Lemma spawns_none {A} (m : M W A) (s s' : state W) (o : outcome A) :
  spawns_only (λ _, False) m → m s = (o, s') → spawned s' = spawned s.
Proof.
  intros Hm Hrun. destruct (spawns_run _ _ _ _ _ Hm Hrun) as ([|c cmds] & -> & HP).
  - by rewrite app_nil_r.
  - by apply Forall_cons in HP as [[] _].
Qed.

Lemma spawns_get_mpact_configs P a : spawns_only P (get_mpact_configs a).
Proof. unfold get_mpact_configs. spawns. Qed.

Lemma spawns_checkout_git_commit a b : spawns_only is_git (checkout_git_commit a b).
Proof. unfold checkout_git_commit. spawns; by apply spawns_subprocess_run. Qed.

Lemma spawns_get_targets limit target :
  spawns_only (λ c, c = query_cmd) (get_targets limit target).
Proof. unfold get_targets. spawns; by apply spawns_subprocess_run. Qed.

Lemma spawns_build_targets targets : spawns_only is_bazel (build_targets targets).
Proof. unfold build_targets. spawns; by apply spawns_subprocess_run. Qed.

Lemma spawns_get_elf_source_path target : spawns_only is_bazel (get_elf_source_path target).
Proof. unfold get_elf_source_path. spawns; by apply spawns_subprocess_run. Qed.

Lemma spawns_get_riscv_test_artifacts : spawns_only is_bazel get_riscv_test_artifacts.
Proof. unfold get_riscv_test_artifacts. spawns; by apply spawns_subprocess_run. Qed.

Lemma spawns_resolve_standard target std acc :
  spawns_only is_bazel (resolve_standard target std acc).
Proof.
  revert acc. induction std as [|t rest IH]; intros acc; cbn [resolve_standard];
    spawns; auto using spawns_get_elf_source_path.
Qed.

Lemma spawns_prepare_tests a std : spawns_only is_bazel (prepare_tests a std).
Proof.
  unfold prepare_tests. spawns;
    auto using spawns_build_targets, spawns_get_riscv_test_artifacts, spawns_resolve_standard.
Qed.

Lemma spawns_build_spike : spawns_only is_bazel build_spike.
Proof. unfold build_spike. spawns; by apply spawns_subprocess_run. Qed.

Lemma spawns_get_entry_point P elf_path : spawns_only P (get_entry_point elf_path).
Proof. unfold get_entry_point. spawns. Qed.

Lemma spawns_copy_artifact P a b : spawns_only P (copy_artifact a b).
Proof. unfold copy_artifact. spawns. Qed.

Lemma spawns_generate_spike_log spike_bin elf_path log_path entry_point timeout :
  spawns_only (is_spike_run spike_bin)
    (generate_spike_log spike_bin elf_path log_path entry_point timeout).
Proof.
  unfold generate_spike_log, spike_with_body. spawns.
  apply spawns_record_spawn. by eexists _, _.
Qed.

Lemma spawns_spike_check_loop spike_bin temp_elf_dir tests failed :
  spawns_only (is_spike_run spike_bin) (spike_check_loop spike_bin temp_elf_dir tests failed).
Proof.
  revert failed. induction tests as [|[target src_elf] rest IH]; intros failed;
    cbn [spike_check_loop]; spawns;
    auto using spawns_copy_artifact, spawns_get_entry_point, spawns_generate_spike_log.
Qed.

Lemma spike_cmd_not_make (spike_bin : str) (cmd : list str) :
  is_spike_run spike_bin cmd → ¬ is_uvm_make cmd.
Proof. intros (elf & entry & ->). unfold is_uvm_make, spike_cmd. cbn [take]. by intros [= _ ?]. Qed.

(** Every way [run_spike_timeout_check] ends. *)
Lemma spike_check_loop_returns spike_bin temp_elf_dir tests failed (s : state W) :
  ∃ failed' s', spike_check_loop spike_bin temp_elf_dir tests failed s = (Ret failed', s').
Proof.
  revert failed s. induction tests as [|[target src_elf] rest IH]; intros failed s;
    cbn [spike_check_loop]; [by eexists _, _|].
  rewrite bind_run.
  destruct (if truthy (Some src_elf) then ask (sys_exists src_elf) else ret false)
    as [[[]|e] s1] eqn:E.
  - rewrite bind_run.
    match goal with
    | |- context [try_except is_Exception ?m ?h s1] =>
        assert (no_exit m) as Hne
          by (no_exit; auto using no_exit_copy_artifact, no_exit_get_entry_point,
                no_exit_generate_spike_log);
        destruct (try_except_total m h Hne
                    (λ e s0, ex_intro _ true (ex_intro _ s0 eq_refl)) s1)
          as (failed1 & s2 & ->)
    end.
    apply IH.
  - apply IH.
  - by destruct (truthy (Some src_elf)).
Qed.

(** X9.  [run_spike_timeout_check] always returns: a test case whose
    artifact cannot be prepared, or on which the reference simulator
    fails or times out, is counted as failed and the check goes on.
    It starts no other process than the reference simulator and
    writes no report. *)
Theorem run_spike_timeout_check_total (tests_to_run : list (str * str))
    (spike_bin temp_elf_dir : str) (s : state W) :
  ∃ s' cmds,
    run_spike_timeout_check tests_to_run spike_bin temp_elf_dir s = (Ret (), s')
    ∧ spawned s' = spawned s ++ cmds
    ∧ Forall (is_spike_run spike_bin) cmds
    ∧ reports s' = reports s.
Proof.
  destruct (spike_check_loop_returns spike_bin temp_elf_dir tests_to_run [] s)
    as (failed & s' & Hloop).
  destruct (spawns_run _ _ _ _ _
              (spawns_spike_check_loop spike_bin temp_elf_dir tests_to_run []) Hloop)
    as (cmds & Hs & HP).
  exists s', cmds. split_and!; [|done|done|].
  - unfold run_spike_timeout_check. by rewrite bind_run, Hloop.
  - eapply keeps_run, Hloop. apply keeps_spike_check_loop.
Qed.

(** X10.  With [--check-spike-timeouts], [main] never touches the
    device simulator: every process it starts is git, bazel or the
    reference simulator, none is a [make -C tests/uvm], and no report
    is written. *)
Theorem main_check_spike_timeouts (a : args) (s s' : state W) (o : outcome unit) :
  arg_check_spike_timeouts a = true →
  main a s = (o, s') →
  ∃ cmds,
    spawned s' = spawned s ++ cmds
    ∧ Forall (λ c, is_git c ∨ is_bazel c ∨ ∃ spike_bin, is_spike_run spike_bin c) cmds
    ∧ Forall (λ c, ¬ is_uvm_make c) cmds
    ∧ reports s' = reports s.
Proof.
  intros Hcheck Hrun.
  assert (spawns_only (λ c, is_git c ∨ is_bazel c ∨ ∃ spike_bin, is_spike_run spike_bin c)
            (main a)) as Hmain.
  { unfold main. rewrite Hcheck. spawns.
    - apply spawns_get_mpact_configs.
    - eapply spawns_mono, spawns_checkout_git_commit. auto.
    - eapply spawns_mono, spawns_checkout_git_commit. auto.
    - eapply spawns_mono, spawns_get_targets. intros c ->. right; by left.
    - eapply spawns_mono, spawns_prepare_tests. auto.
    - eapply spawns_mono, spawns_build_spike. auto.
    - unfold run_spike_timeout_check. spawns.
      eapply spawns_mono, spawns_spike_check_loop. eauto. }
  destruct (spawns_run _ _ _ _ _ Hmain Hrun) as (cmds & Hs & HP).
  exists cmds. split_and!; [done | done | |].
  - eapply Forall_impl; [exact HP|]. intros c [Hc | [Hc | [sb Hc]]].
    + unfold is_git in Hc. unfold is_uvm_make. destruct c as [|x c]; [done|].
      injection Hc as ->. by destruct c as [|? [|? ?]].
    + unfold is_bazel in Hc. unfold is_uvm_make. destruct c as [|x c]; [done|].
      injection Hc as ->. by destruct c as [|? [|? ?]].
    + by eapply spike_cmd_not_make.
  - assert (keeps_reports (main a)) as Hkeeps.
    { unfold main. rewrite Hcheck. keeps; auto using keeps_get_mpact_configs,
        keeps_checkout_git_commit, keeps_get_targets, keeps_prepare_tests, keeps_build_spike,
        keeps_run_spike_timeout_check. }
    by eapply keeps_run.
Qed.

(** X11.  With [--list-targets], [main] stops after discovery: apart
    from the git commands of the requested checkouts it starts one
    process at most, the query of the build graph; nothing is built,
    no simulator is started and no report is written. *)
Theorem main_list_targets (a : args) (s s' : state W) (o : outcome unit) :
  arg_list_targets a = true →
  main a s = (o, s') →
  ∃ cmds,
    spawned s' = spawned s ++ cmds
    ∧ Forall (λ c, is_git c ∨ c = query_cmd) cmds
    ∧ reports s' = reports s.
Proof.
  intros Hlist Hrun.
  assert (spawns_only (λ c, is_git c ∨ c = query_cmd) (main a)) as Hmain.
  { unfold main. rewrite Hlist. spawns.
    - apply spawns_get_mpact_configs.
    - eapply spawns_mono, spawns_checkout_git_commit. auto.
    - eapply spawns_mono, spawns_checkout_git_commit. auto.
    - eapply spawns_mono, spawns_get_targets. auto. }
  destruct (spawns_run _ _ _ _ _ Hmain Hrun) as (cmds & Hs & HP).
  exists cmds. split_and!; [done | done |].
  assert (keeps_reports (main a)) as Hkeeps.
  { unfold main. rewrite Hlist. keeps; auto using keeps_get_mpact_configs,
      keeps_checkout_git_commit, keeps_get_targets. }
  by eapply keeps_run.
Qed.

End Children.

Lemma run_check_spike_timeouts :
  (main (Sys0 := sim_sys failed_build) check_spike_timeouts_args failed_build_start).1 = Ret ()
  ∧ length (spawned (main (Sys0 := sim_sys failed_build) check_spike_timeouts_args
                       failed_build_start).2) = 9%nat.
Proof. by vm_compute. Qed.

Lemma main_check_spike_timeouts_witness :
  ∃ cmds,
    spawned (main (Sys0 := sim_sys failed_build) check_spike_timeouts_args
               failed_build_start).2
    = spawned failed_build_start ++ cmds
    ∧ Forall (λ c, is_git c ∨ is_bazel c ∨ ∃ spike_bin, is_spike_run spike_bin c) cmds
    ∧ Forall (λ c, ¬ is_uvm_make c) cmds
    ∧ reports (main (Sys0 := sim_sys failed_build) check_spike_timeouts_args
                 failed_build_start).2
      = reports failed_build_start.
Proof.
  apply (main_check_spike_timeouts (Sys0 := sim_sys failed_build) check_spike_timeouts_args
           failed_build_start _
           (main (Sys0 := sim_sys failed_build) check_spike_timeouts_args failed_build_start).1).
  - reflexivity.
  - by vm_compute.
Defined.

Lemma run_list_targets :
  main (Sys0 := sim_sys failed_build) list_targets_args failed_build_start
  = (Ret (),
     mkState (mkSim (sim_files (world failed_build_start))
                (tail (sim_runs (world failed_build_start))) [])
       [query_cmd] []).
Proof. by vm_compute. Qed.

Lemma main_list_targets_witness :
  ∃ cmds,
    spawned (main (Sys0 := sim_sys failed_build) list_targets_args failed_build_start).2
    = spawned failed_build_start ++ cmds
    ∧ Forall (λ c, is_git c ∨ c = query_cmd) cmds
    ∧ reports (main (Sys0 := sim_sys failed_build) list_targets_args failed_build_start).2
      = reports failed_build_start.
Proof.
  apply (main_list_targets (Sys0 := sim_sys failed_build) list_targets_args
           failed_build_start _
           (main (Sys0 := sim_sys failed_build) list_targets_args failed_build_start).1).
  - reflexivity.
  - by vm_compute.
Defined.

(** ** The orchestrator, continued *)

Section MainMore.
Context {W : Type} `{!Sys W}.

Lemma with_Ret_inv {A B} (enter : M W A) (leave : A → M W unit) (body : A → M W B)
    (s s' : state W) (b : B) :
  with_ enter leave body s = (Ret b, s') →
  ∃ a s1 s2, enter s = (Ret a, s1) ∧ body a s1 = (Ret b, s2) ∧ leave a s2 = (Ret (), s').
Proof.
  unfold with_. intros (a & s1 & He & Hrun)%bind_Ret_inv. exists a, s1.
  destruct (body a s1) as [[b'|e] s2]; destruct (leave a s2) as [[[]|e'] s3] eqn:El;
    try done.
  injection Hrun as <- <-. by exists s2.
Qed.

(** *** The exit status *)

Lemma exits_no_exit {A} code (m : M W A) : no_exit m → exits_with code m.
Proof. intros Hm s c s' Hrun. by apply Hm in Hrun. Qed.

Lemma exits_raise {A} code : exits_with code (W := W) (A := A) (raise (SystemExit code)).
Proof. by intros s c s' [= <- _]. Qed.

Lemma exits_bind {A B} code (m : M W A) (k : A → M W B) :
  exits_with code m → (∀ a, exits_with code (k a)) → exits_with code (m ≫= k).
Proof.
  intros Hm Hk s c s'.
  intros [(e & Hrun & [= <-]) | (a & s1 & _ & Hrun)]%bind_inv; [by eapply Hm | by eapply Hk].
Qed.

Lemma exits_try_except {A} code (catches : exn → bool) (m : M W A) (h : exn → M W A) :
  exits_with code m → (∀ e, exits_with code (h e)) → exits_with code (try_except catches m h).
Proof.
  intros Hm Hh s c s'. unfold try_except.
  destruct (m s) as [[a|e] s1] eqn:E; [done|].
  destruct (catches e); [apply Hh|]. intros [= -> <-]. by eapply Hm.
Qed.

Lemma exits_with_ {A B} code (enter : M W A) (leave : A → M W unit) (body : A → M W B) :
  exits_with code enter → (∀ a, exits_with code (leave a)) → (∀ a, exits_with code (body a)) →
  exits_with code (with_ enter leave body).
Proof.
  intros He Hl Hb. unfold with_. apply exits_bind; [done|]. intros a s c s'.
  specialize (Hb a s). specialize (Hl a).
  destruct (body a s) as [[b|e1] s1]; specialize (Hl s1);
    destruct (leave a s1) as [[[]|e2] s2]; intros [=]; subst; eauto.
Qed.

Lemma exits_when code (b : bool) (m : M W unit) : exits_with code m → exits_with code (when_ b m).
Proof. destruct b; [done|]. intros _. by apply exits_no_exit, no_exit_ret. Qed.

Lemma no_exit_get_targets limit target : no_exit (get_targets limit target).
Proof. unfold get_targets. no_exit; apply no_exit_subprocess_run. Qed.

Lemma no_exit_get_elf_source_path target : no_exit (get_elf_source_path target).
Proof. unfold get_elf_source_path. no_exit; apply no_exit_subprocess_run. Qed.

Lemma no_exit_resolve_standard target std acc : no_exit (resolve_standard target std acc).
Proof.
  revert acc. induction std as [|t rest IH]; intros acc; cbn [resolve_standard];
    no_exit; auto using no_exit_get_elf_source_path.
Qed.

Lemma no_exit_prepare_tests a std : no_exit (prepare_tests a std).
Proof.
  unfold prepare_tests, build_targets, get_riscv_test_artifacts.
  no_exit; auto using no_exit_subprocess_run, no_exit_resolve_standard.
Qed.

Lemma no_exit_build_spike : no_exit (W := W) build_spike.
Proof. unfold build_spike. no_exit; apply no_exit_subprocess_run. Qed.

Lemma no_exit_get_mpact_configs a : no_exit (get_mpact_configs a).
Proof. unfold get_mpact_configs. no_exit. Qed.

Lemma exits_checkout_git_commit a b : exits_with 1 (checkout_git_commit a b).
Proof.
  unfold checkout_git_commit. apply exits_bind; [apply exits_no_exit, no_exit_ask|].
  intros is_repo. destruct (negb is_repo); [apply exits_raise|].
  apply exits_try_except; [|intros _; apply exits_raise].
  apply exits_no_exit. no_exit; apply no_exit_subprocess_run.
Qed.

Lemma exits_run_full_regression tests spike_bin mpact_root mpact_riscv_root temp_elf_dir :
  exits_with 1
    (run_full_regression tests spike_bin mpact_root mpact_riscv_root temp_elf_dir).
Proof.
  unfold run_full_regression.
  apply exits_bind; [apply exits_no_exit, no_exit_build_simulator|].
  intros built. destruct (negb built); [apply exits_raise|].
  apply exits_bind; [apply exits_no_exit, no_exit_ask|]. intros timestamp. cbv zeta.
  apply exits_bind; [apply exits_no_exit, no_exit_call|]. intros _.
  apply exits_bind; [apply exits_no_exit, no_exit_regression_loop|]. intros [results st].
  apply exits_bind; [apply exits_no_exit, no_exit_call|]. intros _.
  apply exits_bind; [by apply exits_no_exit|]. intros _.
  apply exits_bind; [apply exits_no_exit, no_exit_call|]. intros _.
  destruct st as [[]|]; try apply exits_raise; try (apply exits_no_exit, no_exit_ret).
  by apply exits_no_exit, no_exit_raise.
Qed.

Lemma exits_main a : exits_with 1 (main a).
Proof.
  unfold main.
  apply exits_bind; [apply exits_no_exit, no_exit_get_mpact_configs|].
  intros [mpact_root mpact_riscv_root].
  apply exits_bind; [apply exits_when, exits_checkout_git_commit|]. intros _.
  apply exits_bind; [apply exits_when, exits_checkout_git_commit|]. intros _.
  apply exits_bind; [apply exits_no_exit, no_exit_get_targets|]. intros std.
  destruct (arg_list_targets a); [apply exits_no_exit, no_exit_ret|].
  apply exits_bind; [apply exits_no_exit, no_exit_prepare_tests|]. intros tests.
  apply exits_bind; [apply exits_no_exit, no_exit_build_spike|]. intros spike_bin.
  apply exits_bind.
  { apply exits_no_exit. destruct (truthy spike_bin); [apply no_exit_ask | apply no_exit_ret]. }
  intros usable. destruct (negb usable); [apply exits_raise|]. cbv zeta.
  apply exits_with_; [apply exits_no_exit, no_exit_call | |].
  - intros d. apply exits_no_exit, no_exit_call.
  - intros d. destruct (arg_check_spike_timeouts a); [|apply exits_run_full_regression].
    apply exits_no_exit, no_exit_total. intros s.
    destruct (spike_check_loop_returns (default [] spike_bin) d tests [] s) as (f & s' & Hl).
    exists (), s'. unfold run_spike_timeout_check. by rewrite bind_run, Hl.
Qed.


(** *** What a run of [main] leaves *)

(** The ways for [main] to end. *)
Lemma main_inv (a : args) (s s' : state W) (o : outcome unit) :
  main a s = (o, s') →
  (reports s' = reports s
   ∧ (o = Ret () → arg_list_targets a = true ∨ arg_check_spike_timeouts a = true))
  ∨ ∃ s1 std s2 tests s3 spike_bin mpact_root mpact_riscv_root temp_elf_dir s4 o1 s5,
      get_targets (arg_limit a) (arg_target a) s1 = (Ret std, s2)
      ∧ prepare_tests a std s2 = (Ret tests, s3)
      ∧ run_full_regression tests spike_bin mpact_root mpact_riscv_root temp_elf_dir s4
        = (o1, s5)
      ∧ reports s4 = reports s ∧ reports s' = reports s5
      ∧ (o = Ret () → o1 = Ret ()).
Proof.
  unfold main.
  intros [(e & Hc & ->) | ([mpact_root mpact_riscv_root] & s1 & Hc & Hrun)]%bind_inv.
  { left. split; [|done]. eapply keeps_run, Hc. apply keeps_get_mpact_configs. }
  apply keeps_run in Hc as <-; [|apply keeps_get_mpact_configs].
  apply bind_inv in Hrun as [(e & Hc & ->) | ([] & s2 & Hc & Hrun)].
  { left. split; [|done]. eapply keeps_run, Hc. apply keeps_when, keeps_checkout_git_commit. }
  apply keeps_run in Hc as <-; [|apply keeps_when, keeps_checkout_git_commit].
  apply bind_inv in Hrun as [(e & Hc & ->) | ([] & s3 & Hc & Hrun)].
  { left. split; [|done]. eapply keeps_run, Hc. apply keeps_when, keeps_checkout_git_commit. }
  apply keeps_run in Hc as <-; [|apply keeps_when, keeps_checkout_git_commit].
  apply bind_inv in Hrun as [(e & Hc & ->) | (std & s4 & Hstd & Hrun)].
  { left. split; [|done]. eapply keeps_run, Hc. apply keeps_get_targets. }
  pose proof (keeps_run _ _ _ _ (keeps_get_targets _ _) Hstd) as Hr4.
  destruct (arg_list_targets a); [injection Hrun as <- <-; left; auto|].
  apply bind_inv in Hrun as [(e & Hc & ->) | (tests & s5 & Htests & Hrun)].
  { left. split; [|done]. rewrite <- Hr4. eapply keeps_run, Hc. apply keeps_prepare_tests. }
  pose proof (keeps_run _ _ _ _ (keeps_prepare_tests _ _) Htests) as Hr5.
  apply bind_inv in Hrun as [(e & Hc & ->) | (spike_bin & s6 & Hc & Hrun)].
  { left. split; [|done]. rewrite <- Hr4, <- Hr5. eapply keeps_run, Hc. apply keeps_build_spike. }
  apply keeps_run in Hc as Hr6; [|apply keeps_build_spike].
  apply bind_inv in Hrun as [(e & Hc' & ->) | (usable & s7 & Hc' & Hrun)].
  { left. split; [|done]. rewrite <- Hr4, <- Hr5, <- Hr6. eapply keeps_run, Hc'.
    destruct (truthy spike_bin); [apply keeps_ask | apply keeps_ret]. }
  apply keeps_run in Hc' as Hr7;
    [|destruct (truthy spike_bin); [apply keeps_ask | apply keeps_ret]].
  destruct usable; cbn [negb] in Hrun; [|injection Hrun as <- <-; left; split; [congruence|done]].
  cbv zeta in Hrun.
  assert (reports s7 = reports s3) as Hr by congruence.
  destruct o as [[]|e].
  - apply with_Ret_inv in Hrun as (d & s8 & s9 & Hd & Hbody & Hleave).
    apply keeps_run in Hd as Hr8; [|apply keeps_call].
    apply keeps_run in Hleave as Hr9; [|apply keeps_call].
    destruct (arg_check_spike_timeouts a).
    + left. split; [|auto]. rewrite Hr9, <- Hr, <- Hr8.
      eapply keeps_run, Hbody. apply keeps_run_spike_timeout_check.
    + right. exists s3, std, s4, tests, s5, (default [] spike_bin), mpact_root,
        mpact_riscv_root, d, s8, (Ret ()), s9.
      split_and!; [done | done | done | congruence | done | done].
  - apply with_inv in Hrun as [(e' & Hd) | (d & s8 & o1 & s9 & Hd & Hbody & Hr9)];
      [| |intros ?; apply keeps_call].
    { left. split; [|done]. rewrite <- Hr. eapply keeps_run, Hd. apply keeps_call. }
    apply keeps_run in Hd as Hr8; [|apply keeps_call].
    destruct (arg_check_spike_timeouts a).
    + left. split; [|done]. rewrite Hr9, <- Hr, <- Hr8.
      eapply keeps_run, Hbody. apply keeps_run_spike_timeout_check.
    + right. exists s3, std, s4, tests, s5, (default [] spike_bin), mpact_root,
        mpact_riscv_root, d, s8, o1, s9.
      split_and!; [done | done | done | congruence | done | done].
Qed.

(** X13.  In the regression mode, the exit status 0 says that a
    report was written and that its last row is not [FAIL]: a normal
    return of [main] without [--list-targets] and
    [--check-spike-timeouts] leaves one new report, which has a last
    row, whose status is not [FAIL]. *)
Theorem main_exit_zero (a : args) (s s' : state W) :
  arg_list_targets a = false →
  arg_check_spike_timeouts a = false →
  main a s = (Ret (), s') →
  ∃ rows r, reports s' = reports s ++ [rows] ∧ last_item rows = Some r ∧ Status r ≠ FAIL.
Proof.
  intros Hlist Hcheck Hrun.
  apply main_inv in Hrun as [[_ Hmode] | Hrun].
  { destruct (Hmode eq_refl); congruence. }
  destruct Hrun as (s1 & std & s2 & tests & s3 & spike_bin & mpact_root & mpact_riscv_root
                    & d & s4 & o1 & s5 & _ & _ & Hreg & Hr4 & Hr5 & Ho).
  rewrite (Ho eq_refl) in Hreg.
  apply run_full_regression_normal_return in Hreg as (rows & r & Hrep & Hlast & Hst).
  exists rows, r. split_and!; [congruence | done | done].
Qed.

(** *** Selecting and limiting the test cases *)

Lemma resolve_standard_target (target : option str) (std : list str)
    (acc tests : list (str * str)) (s s' : state W) :
  truthy target = true →
  resolve_standard target std acc s = (Ret tests, s') →
  (∀ p, p ∈ acc → p.1 = default [] target) →
  ∀ p, p ∈ tests → p.1 = default [] target.
Proof.
  intros Htarget. revert acc s.
  induction std as [|t rest IH]; intros acc s; cbn [resolve_standard].
  - by intros [= <- <-].
  - rewrite Htarget. cbn [andb]. case_bool_decide as Ht; cbn [negb].
    + intros (elf & s1 & _ & Hrun)%bind_Ret_inv Hacc.
      destruct (truthy elf); eapply IH; try exact Hrun; [|done].
      intros p [?| ->%list_elem_of_singleton]%elem_of_app; [auto | done].
    + intros Hrun Hacc. by eapply IH.
Qed.

Lemma prepare_tests_target (a : args) (std : list str) (tests : list (str * str))
    (s s' : state W) :
  truthy (arg_target a) = true →
  prepare_tests a std s = (Ret tests, s') →
  ∀ p, p ∈ tests → p.1 = default [] (arg_target a).
Proof.
  intros Htarget. unfold prepare_tests.
  intros (_ & s1 & _ & (riscv & s2 & Hriscv & (all & s3 & Hstd & Hlimit)%bind_Ret_inv)
            %bind_Ret_inv)%bind_Ret_inv p Hp.
  assert (p ∈ all) as Hall.
  { destruct (truthy_int (arg_limit a)); injection Hlimit as <- <-; [|done].
    by eapply slice_to_elem. }
  eapply resolve_standard_target; [done | exact Hstd | | done].
  intros q Hq. destruct (negb (arg_skip_riscv_tests a)).
  - apply bind_Ret_inv in Hriscv as (arts & s4 & _ & [= <- <-]).
    apply list_elem_of_filter in Hq as [Hq _].
    destruct (decide (default [] (arg_target a) = q.1)) as [|Hne]; [done|].
    destruct Hq. by rewrite Htarget.
  - injection Hriscv as <- <-. by apply elem_of_nil in Hq.
Qed.

Lemma prepare_tests_limit (a : args) (std : list str) (tests : list (str * str))
    (s s' : state W) (n : Z) :
  arg_limit a = Some n → (0 < n)%Z →
  prepare_tests a std s = (Ret tests, s') →
  (length tests ≤ Z.to_nat n)%nat.
Proof.
  intros Hlimit Hn. unfold prepare_tests.
  intros (_ & s1 & _ & (riscv & s2 & _ & (all & s3 & _ & Hrun)%bind_Ret_inv)
            %bind_Ret_inv)%bind_Ret_inv.
  rewrite Hlimit in Hrun. cbn [truthy_int default] in Hrun.
  destruct (Z.eqb_spec n 0) as [|_]; [lia|]. cbn [negb] in Hrun.
  injection Hrun as <- <-. unfold slice_to.
  destruct (Z.leb_spec 0 n); [|lia]. rewrite length_take. lia.
Qed.

(** The rows of the report that [main] writes, and the test cases
    they come from. *)
Lemma main_rows (a : args) (s s' : state W) (o : outcome unit) :
  main a s = (o, s') →
  reports s' = reports s
  ∨ ∃ s1 std s2 tests s3 rows,
      get_targets (arg_limit a) (arg_target a) s1 = (Ret std, s2)
      ∧ prepare_tests a std s2 = (Ret tests, s3)
      ∧ reports s' = reports s ++ [rows]
      ∧ Target <$> rows = tests.*1.
Proof.
  intros [[Hrep _] | Hrun]%main_inv; [by left|].
  destruct Hrun as (s1 & std & s2 & tests & s3 & spike_bin & mpact_root & mpact_riscv_root
                    & d & s4 & o1 & s5 & Hstd & Htests & Hreg & Hr4 & Hr5 & _).
  apply run_full_regression_report in Hreg as [Hrep | (rows & Hrep & Hrows)].
  - left. congruence.
  - right. exists s1, std, s2, tests, s3, rows. split_and!; [done | done | congruence | done].
Qed.

(** X14.  With [--target T], every row of the report is a row of
    [T]: discovery is not asked, and neither a test of the
    conformance suite nor a standard target with another name is
    run. *)
Theorem main_target_rows (a : args) (s s' : state W) (o : outcome unit) :
  truthy (arg_target a) = true →
  main a s = (o, s') →
  reports s' = reports s
  ∨ ∃ rows, reports s' = reports s ++ [rows]
            ∧ ∀ r, r ∈ rows → Target r = default [] (arg_target a).
Proof.
  intros Htarget [Hrep | Hrun]%main_rows; [by left|].
  destruct Hrun as (s1 & std & s2 & tests & s3 & rows & _ & Htests & Hrep & Hrows).
  right. exists rows. split; [done|]. intros r Hr.
  assert (Target r ∈ tests.*1) as (p & -> & Hp)%list_elem_of_fmap.
  { rewrite <- Hrows. apply list_elem_of_fmap. eauto. }
  by eapply prepare_tests_target.
Qed.

(** X15.  With [--limit n] for a positive [n], the report has at
    most [n] rows. *)
Theorem main_limit_rows (a : args) (n : Z) (s s' : state W) (o : outcome unit) :
  arg_limit a = Some n → (0 < n)%Z →
  main a s = (o, s') →
  reports s' = reports s
  ∨ ∃ rows, reports s' = reports s ++ [rows] ∧ (length rows ≤ Z.to_nat n)%nat.
Proof.
  intros Hlimit Hn [Hrep | Hrun]%main_rows; [by left|].
  destruct Hrun as (s1 & std & s2 & tests & s3 & rows & _ & Htests & Hrep & Hrows).
  right. exists rows. split; [done|].
  apply (f_equal length) in Hrows. rewrite !length_fmap in Hrows. rewrite Hrows.
  by eapply prepare_tests_limit.
Qed.

End MainMore.


Lemma main_exit_zero_witness :
  ∃ rows r,
    reports (main (Sys0 := sim_sys failed_build) default_args failed_build_start).2
    = reports failed_build_start ++ [rows]
    ∧ last_item rows = Some r ∧ Status r ≠ FAIL.
Proof.
  apply (main_exit_zero (Sys0 := sim_sys failed_build) default_args failed_build_start).
  - reflexivity.
  - reflexivity.
  - by vm_compute.
Defined.

Lemma run_single_target :
  ∃ s', main (Sys0 := sim_sys failed_build) single_target_args single_target_start
        = (Ret (), s')
        ∧ reports s'
          = [[ {| Target := pystr "//t:b"; Status := PASS; Reason := pystr "None";
                  Log_Path := pystr "logs/t_b.log" |} ]].
Proof. eexists. split; by vm_compute. Qed.

Lemma main_target_rows_witness :
  reports (main (Sys0 := sim_sys failed_build) single_target_args single_target_start).2
  = reports single_target_start
  ∨ ∃ rows,
      reports (main (Sys0 := sim_sys failed_build) single_target_args single_target_start).2
      = reports single_target_start ++ [rows]
      ∧ ∀ r, r ∈ rows → Target r = default [] (arg_target single_target_args).
Proof.
  apply (main_target_rows (Sys0 := sim_sys failed_build) single_target_args
           single_target_start _
           (main (Sys0 := sim_sys failed_build) single_target_args single_target_start).1).
  - reflexivity.
  - by vm_compute.
Defined.

Lemma run_limit_two :
  (λ rows : list row, Target <$> rows) <$> reports
    (main (Sys0 := sim_sys failed_build) limit_two_args failed_build_start).2
  = [[pystr "//third_party/riscv-tests:rv32ui-p-add"; pystr "//t:a"]].
Proof. by vm_compute. Qed.

Lemma main_limit_rows_witness :
  reports (main (Sys0 := sim_sys failed_build) limit_two_args failed_build_start).2
  = reports failed_build_start
  ∨ ∃ rows,
      reports (main (Sys0 := sim_sys failed_build) limit_two_args failed_build_start).2
      = reports failed_build_start ++ [rows]
      ∧ (length rows ≤ Z.to_nat 2)%nat.
Proof.
  apply (main_limit_rows (Sys0 := sim_sys failed_build) limit_two_args 2 failed_build_start _
           (main (Sys0 := sim_sys failed_build) limit_two_args failed_build_start).1).
  - reflexivity.
  - lia.
  - by vm_compute.
Defined.

(** ** File names of the test cases *)

Lemma replace_fuel_enough (n m : nat) (old new t : str) :
  (length t ≤ n)%nat → (length t ≤ m)%nat → old ≠ [] →
  replace_fuel n old new t = replace_fuel m old new t.
Proof.
  intros Hn Hm Hold. revert m t Hn Hm.
  induction n as [|n IH]; intros m t Hn Hm.
  - destruct t; [|cbn in Hn; lia]. destruct m as [|m]; [done|]. cbn [replace_fuel].
    destruct (strip_prefix old []) as [t'|] eqn:E; [|done].
    apply strip_prefix_Some in E. by destruct old.
  - destruct m as [|m].
    + destruct t; [|cbn in Hm; lia]. cbn [replace_fuel].
      destruct (strip_prefix old []) as [t'|] eqn:E; [|done].
      apply strip_prefix_Some in E. by destruct old.
    + cbn [replace_fuel]. destruct (strip_prefix old t) as [t'|] eqn:E.
      * apply strip_prefix_Some in E as ->. rewrite length_app in Hn, Hm.
        destruct old; [done|]. cbn in Hn, Hm. f_equal. apply IH; lia.
      * destruct t as [|c t]; [done|]. cbn in Hn, Hm. f_equal. apply IH; lia.
Qed.

(** Removing [//] works on both sides of a character that cannot be
    part of a [//]. *)
Lemma replace_slashes_app_fuel (n : nat) (a b : str) (c : char) :
  c ≠ slash ∨ (last a ≠ Some slash ∧ head b ≠ Some slash) →
  (length (a ++ c :: b) < n)%nat →
  replace_fuel n (pystr "//") [] (a ++ c :: b)
  = replace_fuel n (pystr "//") [] a ++ c :: replace_fuel n (pystr "//") [] b.
Proof.
  change (pystr "//") with [slash; slash].
  intros Hc. revert a Hc. induction n as [|n IH]; intros a Hc Hn; [lia|].
  assert (Hb : replace_fuel n [slash; slash] [] b = replace_fuel (S n) [slash; slash] [] b).
  { apply replace_fuel_enough; [| |done]; rewrite length_app in Hn; cbn in Hn; lia. }
  assert (Hhead : replace_fuel (S n) [slash; slash] [] (c :: b)
                  = c :: replace_fuel (S n) [slash; slash] [] b).
  { rewrite <- Hb. cbn [replace_fuel strip_prefix app].
    destruct (N.eqb_spec slash c) as [<-|Hne]; [|done].
    destruct Hc as [Hc | [_ Hc]]; [done|].
    destruct b as [|d b]; [done|].
    destruct (N.eqb_spec slash d) as [<-|Hne]; [by destruct Hc | done]. }
  destruct a as [|x a]; [done|].
  rewrite length_app in Hn. cbn [length] in Hn.
  assert (Htail : replace_fuel n [slash; slash] [] (a ++ c :: b)
                  = replace_fuel n [slash; slash] [] a
                    ++ c :: replace_fuel (S n) [slash; slash] [] b).
  { destruct a as [|y a].
    - cbn [app]. destruct n as [|n]; [cbn in Hn; lia|].
      rewrite (replace_fuel_enough (S n) (S (S n))) by (cbn in *; done || lia).
      rewrite Hhead. by cbn.
    - rewrite IH, Hb; [done| |rewrite length_app; cbn [length] in *; lia].
      destruct Hc as [?|[Ha ?]]; [by left | right]. split; [|done]. by destruct a. }
  cbn [app replace_fuel strip_prefix].
  destruct (N.eqb_spec slash x) as [<-|Hx].
  - destruct a as [|y a].
    + cbn [app] in *. destruct (N.eqb_spec slash c) as [<-|Hne].
      * destruct Hc as [Hc | [Hc _]]; [done | by destruct Hc].
      * by rewrite Htail.
    + cbn [app] in *. destruct (N.eqb_spec slash y) as [<-|Hy].
      * rewrite IH; [by rewrite Hb| |rewrite length_app; cbn [length] in *; lia].
        destruct Hc as [?|[Ha ?]]; [by left | right]. split; [|done].
        by destruct a.
      * by rewrite Htail.
  - by rewrite Htail.
Qed.

Lemma replace_slashes_app (a b : str) (c : char) :
  c ≠ slash ∨ (last a ≠ Some slash ∧ head b ≠ Some slash) →
  replace (pystr "//") [] (a ++ c :: b)
  = replace (pystr "//") [] a ++ c :: replace (pystr "//") [] b.
Proof.
  intros Hc. unfold replace. rewrite replace_slashes_app_fuel; [|done|lia].
  rewrite length_app. cbn [length]. f_equal; [|f_equal].
  - apply replace_fuel_enough; [lia | lia | done].
  - apply replace_fuel_enough; [lia | lia | done].
Qed.

(** X16.  The safe name of a target has no [/] and no [:], so the
    log of a test case is a file of the log directory itself: its path
    is the directory, a separator unless the directory ends with one
    or is empty, and the safe name with [.log]. *)
Theorem safe_target_name_flat (target logs_dir : str) :
  (slash ∉ safe_target_name target)
  ∧ (colon ∉ safe_target_name target)
  ∧ (os_path_join logs_dir (safe_target_name target ++ pystr ".log")
     = logs_dir ++ safe_target_name target ++ pystr ".log"
     ∨ os_path_join logs_dir (safe_target_name target ++ pystr ".log")
       = logs_dir ++ [slash] ++ safe_target_name target ++ pystr ".log").
Proof.
  assert (Hslash : slash ∉ safe_target_name target).
  { unfold safe_target_name. by apply replace_char_gone. }
  split_and!; [done | |].
  - unfold safe_target_name.
    intros [H|H]%replace_char_elem; [discriminate H|].
    by apply replace_char_gone in H.
  - unfold os_path_join.
    assert (startswith (safe_target_name target ++ pystr ".log") [slash] = false) as ->.
    { destruct (safe_target_name target) as [|c t]; [by vm_compute|].
      unfold startswith. cbn [app strip_prefix].
      destruct (N.eqb_spec slash c) as [<-|Hne].
      - destruct Hslash. apply elem_of_cons. by left.
      - apply bool_decide_eq_false. by intros [? [=]]. }
    destruct (bool_decide (logs_dir = []) || endswith logs_dir [slash]); [by left | by right].
Qed.

(** X17.  The safe name does not tell [:], [/] and [_] apart: two
    targets that differ by one of these characters in one place (a [/]
    not next to another one) have the same safe name, and so the same
    log file and the same copy of the artifact. *)
Theorem safe_target_name_collision (a b : str) (c1 c2 : char) :
  c1 ∈ [colon; slash; underscore] → c2 ∈ [colon; slash; underscore] →
  last a ≠ Some slash → head b ≠ Some slash →
  safe_target_name (a ++ c1 :: b) = safe_target_name (a ++ c2 :: b).
Proof.
  intros H1 H2 Ha Hb.
  assert (∀ c, c ∈ [colon; slash; underscore] →
            safe_target_name (a ++ c :: b)
            = safe_target_name a ++ underscore :: safe_target_name b) as Hsafe.
  { intros c Hc. unfold safe_target_name.
    rewrite replace_slashes_app by (by right).
    rewrite !replace_char_app. f_equal. cbn [replace_char fmap list_fmap]. f_equal.
    apply elem_of_cons in Hc as [->|Hc]; [done|].
    apply elem_of_cons in Hc as [->|Hc]; [done|].
    by apply list_elem_of_singleton in Hc as ->. }
  by rewrite !Hsafe.
Qed.

Lemma safe_target_name_collision_witness :
  safe_target_name (pystr "//tests" ++ slash :: pystr "foo_bar")
  = safe_target_name (pystr "//tests" ++ colon :: pystr "foo_bar").
Proof.
  apply (safe_target_name_collision (pystr "//tests") (pystr "foo_bar") slash colon).
  - apply (bool_decide_unpack _). by vm_compute.
  - apply (bool_decide_unpack _). by vm_compute.
  - by vm_compute.
  - by vm_compute.
Defined.

(** ** The catalog, continued *)

Global Instance str_le_antisymm : AntiSymm (=) str_le.
Proof.
  intros a. unfold str_le. induction a as [|x a IH]; intros [|y b]; cbn; try done.
  rewrite (N.eqb_sym y x). destruct (N.eqb_spec x y) as [->|Hne].
  - intros Hab Hba. f_equal. by apply IH.
  - intros H1%N.ltb_lt H2%N.ltb_lt. lia.
Qed.

(** The loop over the rules keeps the names of the kept rules, in
    the order of the rules. *)
Lemma collect_targets_filter (rules : list rule) (acc : list str) :
  collect_targets rules acc = acc ++ (rule_name <$> filter kept rules).
Proof.
  revert acc. induction rules as [|r rules IH]; intros acc; cbn [collect_targets].
  - by rewrite app_nil_r.
  - rewrite filter_cons. destruct (decide (kept r)) as [[Hdeny Hls]|Hn].
    + rewrite bool_decide_eq_false_2, Hls, bool_decide_eq_true_2 by done.
      by rewrite IH, <- (assoc_L (++)).
    + case_bool_decide as Hdeny; [apply IH|].
      destruct (rule_linker_script r) as [ls|] eqn:Els; [|apply IH].
      case_bool_decide as Hls; [|apply IH].
      destruct Hn. split; [done | by rewrite Els, Hls].
Qed.

(** X18.  The catalog does not depend on the order in which the build
    system lists the rules: it is the sorted list of the names of the
    rules that are not denylisted and declare the default linker
    script, a name as many times as such rules have it. *)
Theorem catalog_order_independent (rules rules' : list rule) :
  rules ≡ₚ rules' →
  sorted_str (collect_targets rules []) = sorted_str (collect_targets rules' [])
  ∧ sorted_str (collect_targets rules []) ≡ₚ rule_name <$> filter kept rules.
Proof.
  intros Hperm.
  assert (∀ rs, sorted_str (collect_targets rs []) ≡ₚ rule_name <$> filter kept rs) as Hcat.
  { intros rs. unfold sorted_str. by rewrite merge_sort_Permutation, collect_targets_filter. }
  split; [|done].
  apply (StronglySorted_unique str_le); [apply sorted_str_sorted | apply sorted_str_sorted |].
  by rewrite !Hcat, Hperm.
Qed.

Lemma catalog_order_independent_witness :
  sorted_str (collect_targets (sc_rules failed_build) [])
  = sorted_str (collect_targets (reverse (sc_rules failed_build)) [])
  ∧ sorted_str (collect_targets (sc_rules failed_build) [])
    ≡ₚ rule_name <$> filter kept (sc_rules failed_build).
Proof.
  apply (catalog_order_independent (sc_rules failed_build) (reverse (sc_rules failed_build))).
  symmetry. apply reverse_Permutation.
Defined.

(** ** The test cases, continued *)

Lemma rstrip_nonspace_end (a : str) (c : char) :
  is_space c = false → rstrip (a ++ [c]) = a ++ [c].
Proof.
  intros Hc. unfold rstrip. rewrite reverse_app, reverse_singleton. cbn [app lstrip].
  by rewrite Hc, reverse_cons, reverse_involutive.
Qed.

Lemma endswith_app (a p : str) : endswith (a ++ p) p = true.
Proof.
  unfold endswith, startswith. rewrite reverse_app, strip_prefix_app_same.
  by apply bool_decide_eq_true.
Qed.

Lemma endswith_inv (t p : str) : endswith t p = true → ∃ a, t = a ++ p.
Proof.
  unfold endswith, startswith. intros [x Hx]%bool_decide_eq_true.
  apply strip_prefix_Some in Hx. exists (reverse x).
  by rewrite <- (reverse_involutive t), Hx, reverse_app, reverse_involutive.
Qed.

(** Trimming keeps what lies between two characters that are not
    whitespace. *)
Lemma strip_app_nonspace (a b : str) (c d : char) :
  is_space c = false → is_space d = false →
  ∃ w, strip (a ++ c :: b ++ [d]) = w ++ c :: b ++ [d].
Proof.
  intros Hc Hd. unfold strip.
  destruct (lstrip_app_head a (b ++ [d]) c Hc) as [w ->]. exists w.
  assert (w ++ c :: b ++ [d] = (w ++ c :: b) ++ [d]) as ->
    by (by rewrite <- (assoc_L (++))).
  by apply rstrip_nonspace_end.
Qed.

Lemma strip_keeps_elf (line : str) :
  endswith line (pystr ".elf") = true → endswith (strip line) (pystr ".elf") = true.
Proof.
  intros [a ->]%endswith_inv.
  destruct (strip_app_nonspace a (pystr "el") 46 102 eq_refl eq_refl) as [w Hw].
  replace (strip (a ++ pystr ".elf")) with (w ++ pystr ".elf")
    by (symmetry; exact Hw).
  apply endswith_app.
Qed.

Lemma first_elf_line_Some (lines : list str) (p : str) :
  first_elf_line lines = Some p →
  ∃ line, line ∈ lines ∧ endswith line (pystr ".elf") = true ∧ p = strip line.
Proof.
  induction lines as [|l lines IH]; [done|]. cbn [first_elf_line].
  destruct (endswith l (pystr ".elf")) eqn:E.
  - intros [= <-]. exists l. split_and!; [by apply elem_of_cons; left | done | done].
  - intros (line & ? & ? & ?)%IH. exists line.
    split_and!; [by apply elem_of_cons; right | done | done].
Qed.

Global Instance pair_le_total : Total pair_le.
Proof.
  intros x y. unfold pair_le, pair_leb.
  case_bool_decide as Hxy.
  - rewrite bool_decide_eq_true_2 by done. apply (total str_le).
  - rewrite bool_decide_eq_false_2 by congruence. apply (total str_le).
Qed.

Global Instance pair_le_trans : Transitive pair_le.
Proof.
  intros x y z. unfold pair_le, pair_leb.
  case_bool_decide as Hxy; case_bool_decide as Hyz.
  - rewrite bool_decide_eq_true_2 by congruence. apply (transitivity (R := str_le)).
  - rewrite bool_decide_eq_false_2 by congruence. by rewrite Hxy.
  - rewrite bool_decide_eq_false_2 by congruence. by rewrite Hyz.
  - intros H1 H2. case_bool_decide as Hxz.
    + destruct Hxy. apply (anti_symm str_le); [done|]. by rewrite Hxz.
    + by apply (transitivity (R := str_le) (y := y.1)).
Qed.

Section TestCases.
Context {W : Type} `{!Sys W}.

(** X19.  The scan of the conformance suite returns a sorted list.
    Each of its test cases is a file [f] found under a directory that
    the build system listed, with a name that starts with [rv32] and
    does not end with [.dump]; its target is
    [//third_party/riscv-tests:f], which is not denylisted, and its
    path is the file in its directory.  When the query of the build
    system fails with a return code, the scan returns no test case
    and raises nothing. *)
Theorem get_riscv_test_artifacts_shape (s : state W) :
  (∀ artifacts s',
     get_riscv_test_artifacts s = (Ret artifacts, s') →
     StronglySorted pair_le artifacts
     ∧ ∀ p, p ∈ artifacts →
         ∃ root f,
           p = (pystr "//third_party/riscv-tests:" ++ f, os_path_join root f)
           ∧ startswith f (pystr "rv32") = true
           ∧ endswith f (pystr ".dump") = false
           ∧ p.1 ∉ DENYLIST)
  ∧ (∀ returncode stdout stderr w,
       sys_run [pystr "bazel"; pystr "cquery"; pystr "//third_party/riscv-tests:all_files";
                pystr "--output=files"] [] (world s)
       = (Ok (returncode, stdout, stderr), w) →
       returncode ≠ 0%Z →
       ∃ s', get_riscv_test_artifacts s = (Ret [], s')).
Proof.
  split.
  - intros artifacts s'.
    unfold get_riscv_test_artifacts, subprocess_run. munfold.
    destruct (sys_run _ [] (world s)) as [[[[rc out] err]|t] w]; munfold; [|done].
    destruct (rc =? 0)%Z; munfold; intros [= <- <-].
    2:{ split; [constructor | by intros p []%elem_of_nil]. }
    split; [apply StronglySorted_merge_sort; apply _|]. intros p.
    unfold sorted_pairs. rewrite merge_sort_Permutation.
    intros (d & Hp & _)%list_elem_of_bind.
    destruct (sys_isdir (strip d) w); [|by apply elem_of_nil in Hp]. cbn [negb] in Hp.
    apply list_elem_of_bind in Hp as ([root files] & Hp & _).
    apply list_elem_of_omap in Hp as (f & _ & Hf).
    unfold riscv_file_artifact in Hf.
    destruct (endswith f (pystr ".dump")) eqn:Edump; [done|].
    destruct (startswith f (pystr "rv32")) eqn:Erv; [|done].
    case_bool_decide as Hdeny; [done|]. injection Hf as <-. by exists root, f.
  - intros rc out err w Hrun Hrc.
    unfold get_riscv_test_artifacts, subprocess_run. munfold. rewrite Hrun. munfold.
    destruct (Z.eqb_spec rc 0); [done|]. munfold. by eexists.
Qed.

(** X20.  The artifact path that [get_elf_source_path] returns ends
    with [.elf] - so it is not empty, and the target becomes a test
    case - and is a line of the answer of the build system, trimmed.
    When the build system answers with a return code that is not 0,
    the function returns [None] and raises nothing. *)
Theorem get_elf_source_path_elf (target : str) (s : state W) :
  (∀ p s', get_elf_source_path target s = (Ret (Some p), s') →
     endswith p (pystr ".elf") = true ∧ truthy (Some p) = true)
  ∧ (∀ returncode stdout stderr w,
       sys_run [pystr "bazel"; pystr "cquery"; pystr "--output=files"; target] []
         (world s)
       = (Ok (returncode, stdout, stderr), w) →
       returncode ≠ 0%Z →
       ∃ s', get_elf_source_path target s = (Ret None, s')).
Proof.
  split.
  - intros p s'. unfold get_elf_source_path, subprocess_run. munfold.
    destruct (sys_run _ [] (world s)) as [[[[rc out] err]|t] w]; munfold; [|done].
    destruct (rc =? 0)%Z; munfold; [|done]. intros [= Hline <-].
    apply first_elf_line_Some in Hline as (line & _ & Hline & ->).
    apply strip_keeps_elf in Hline. split; [done|].
    apply endswith_inv in Hline as [a ->]. by destruct a.
  - intros rc out err w Hrun Hrc.
    unfold get_elf_source_path, subprocess_run. munfold. cbn [fmap list_fmap app].
    rewrite Hrun. munfold.
    destruct (Z.eqb_spec rc 0); [done|]. munfold. by eexists.
Qed.

(** X21.  [checkout_git_commit] returns only after [git fetch] and
    [git checkout] both ran, in that order.  When it ends the process
    the exit status is 1, and then either the directory is no git
    repository and nothing was started, or [git fetch] failed and
    [git checkout] was not started, or [git checkout] failed. *)
Theorem checkout_git_commit_outcome (repo_root commit : str) (s s' : state W)
    (o : outcome unit) :
  checkout_git_commit repo_root commit s = (o, s') →
  (o = Ret ()
   → spawned s' = spawned s ++ [ [pystr "git"; pystr "-C"; repo_root; pystr "fetch"];
                                 [pystr "git"; pystr "-C"; repo_root; pystr "checkout"; commit] ])
  ∧ (∀ code, o = Raise (SystemExit code) →
       code = 1%Z
       ∧ (spawned s' = spawned s
            ∧ sys_isdir (os_path_join repo_root (pystr ".git")) (world s) = false
          ∨ spawned s' = spawned s ++ [ [pystr "git"; pystr "-C"; repo_root; pystr "fetch"] ]
          ∨ spawned s'
            = spawned s ++ [ [pystr "git"; pystr "-C"; repo_root; pystr "fetch"];
                             [pystr "git"; pystr "-C"; repo_root; pystr "checkout"; commit] ])).
Proof.
  unfold checkout_git_commit, subprocess_run. munfold.
  destruct (sys_isdir _ (world s)) eqn:Hdir; munfold.
  2:{ intros [= <- <-]. split; [done|]. intros code [= <-]. split; [done|]. by left. }
  destruct (sys_run _ [] (world s)) as [[[[rc1 out1] err1]|t1] w1]; munfold.
  2:{ intros [= <- <-]. by split. }
  destruct (rc1 =? 0)%Z; munfold.
  2:{ intros [= <- <-]. split; [done|]. intros code [= <-]. split; [done|]. right. by left. }
  destruct (sys_run _ [] w1) as [[[[rc2 out2] err2]|t2] w2]; munfold.
  2:{ intros [= <- <-]. by split. }
  destruct (rc2 =? 0)%Z; munfold; intros [= <- <-].
  - split; [|done]. intros _. by rewrite <- (assoc_L (++)).
  - split; [done|]. intros code [= <-]. split; [done|]. right. right.
    by rewrite <- (assoc_L (++)).
Qed.

End TestCases.

Lemma get_riscv_test_artifacts_shape_witness :
  StronglySorted pair_le
    [(pystr "//third_party/riscv-tests:rv32ui-p-add", pystr "/out/riscv/rv32ui-p-add")]
  ∧ ∀ p,
      p ∈ [(pystr "//third_party/riscv-tests:rv32ui-p-add", pystr "/out/riscv/rv32ui-p-add")] →
      ∃ root f,
        p = (pystr "//third_party/riscv-tests:" ++ f, os_path_join root f)
        ∧ startswith f (pystr "rv32") = true
        ∧ endswith f (pystr ".dump") = false
        ∧ p.1 ∉ DENYLIST.
Proof.
  apply (proj1 (get_riscv_test_artifacts_shape (Sys0 := sim_sys failed_build) suite_scan_start)
           _ (get_riscv_test_artifacts (Sys0 := sim_sys failed_build) suite_scan_start).2).
  by vm_compute.
Defined.

Lemma get_elf_source_path_elf_witness :
  endswith (pystr "/out/b.elf") (pystr ".elf") = true
  ∧ truthy (Some (pystr "/out/b.elf")) = true.
Proof.
  apply (proj1 (get_elf_source_path_elf (Sys0 := sim_sys failed_build) (pystr "//t:b")
                  resolved_start)
           _ (get_elf_source_path (Sys0 := sim_sys failed_build) (pystr "//t:b")
                resolved_start).2).
  by vm_compute.
Defined.

Lemma run_checkout_fails :
  checkout_git_commit (Sys0 := sim_sys git_repo) (pystr "/m") (pystr "abc")
    checkout_fails_start
  = (Raise (SystemExit 1),
     mkState (mkSim [] [] [])
       [ [pystr "git"; pystr "-C"; pystr "/m"; pystr "fetch"];
         [pystr "git"; pystr "-C"; pystr "/m"; pystr "checkout"; pystr "abc"] ] []).
Proof. by vm_compute. Qed.

Lemma checkout_git_commit_outcome_witness :
  ((Raise (SystemExit 1) : outcome unit) = Ret ()
   → spawned (checkout_git_commit (Sys0 := sim_sys git_repo) (pystr "/m") (pystr "abc")
                checkout_fails_start).2
     = spawned checkout_fails_start
       ++ [ [pystr "git"; pystr "-C"; pystr "/m"; pystr "fetch"];
            [pystr "git"; pystr "-C"; pystr "/m"; pystr "checkout"; pystr "abc"] ])
  ∧ (∀ code, (Raise (SystemExit 1) : outcome unit) = Raise (SystemExit code) →
       code = 1%Z
       ∧ (spawned (checkout_git_commit (Sys0 := sim_sys git_repo) (pystr "/m") (pystr "abc")
                     checkout_fails_start).2
          = spawned checkout_fails_start
            ∧ sys_isdir (Sys := sim_sys git_repo) (os_path_join (pystr "/m") (pystr ".git"))
                (world checkout_fails_start) = false
          ∨ spawned (checkout_git_commit (Sys0 := sim_sys git_repo) (pystr "/m") (pystr "abc")
                       checkout_fails_start).2
            = spawned checkout_fails_start
              ++ [ [pystr "git"; pystr "-C"; pystr "/m"; pystr "fetch"] ]
          ∨ spawned (checkout_git_commit (Sys0 := sim_sys git_repo) (pystr "/m") (pystr "abc")
                       checkout_fails_start).2
            = spawned checkout_fails_start
              ++ [ [pystr "git"; pystr "-C"; pystr "/m"; pystr "fetch"];
                   [pystr "git"; pystr "-C"; pystr "/m"; pystr "checkout"; pystr "abc"] ])).
Proof.
  apply (checkout_git_commit_outcome (Sys0 := sim_sys git_repo) (pystr "/m") (pystr "abc")
           checkout_fails_start).
  by vm_compute.
Defined.

(** ** The reference simulator and the denylist of its targets *)

Section SpikeDenylist.
Context {W : Type} `{!Sys W}.

Lemma spike_stage_denylisted (spike_bin target safe_name elf_to_run temp_elf_dir logs_dir : str)
    (entry_point : Z) :
  target ∈ SPIKE_DENYLIST →
  spike_stage spike_bin target safe_name elf_to_run temp_elf_dir logs_dir entry_point
  = ret None.
Proof.
  intros Hdeny. unfold spike_stage. rewrite bool_decide_eq_true_2 by done.
  by destruct (truthy (Some spike_bin)).
Qed.

(** X22.  For a target of [SPIKE_DENYLIST] the reference simulator is
    not started: whatever happens, the only processes that the test
    case starts are the attempts of the device simulator, at most
    three, on the copy of the artifact and without a reference log. *)
Theorem spike_denylist_no_reference (spike_bin mpact_root temp_elf_dir logs_dir : str)
    (target src_elf : str) (s s' : state W) (o : outcome result) :
  target ∈ SPIKE_DENYLIST →
  process_test spike_bin mpact_root temp_elf_dir logs_dir (target, src_elf) s = (o, s') →
  ∃ n w,
    (n ≤ 3)%nat
    ∧ spawned s'
      = spawned s
        ++ replicate n
             (uvm_cmd w (os_path_join temp_elf_dir (safe_target_name target ++ pystr ".elf"))
                None (Some target)).
Proof.
  intros Hdeny. unfold process_test. rewrite bind_run.
  assert ((if truthy (Some src_elf) then ask (sys_exists src_elf) else ret false) s
          = (Ret (truthy (Some src_elf) && sys_exists src_elf (world s)), s)) as ->.
  { by destruct (truthy (Some src_elf)). }
  destruct (truthy (Some src_elf) && sys_exists src_elf (world s)).
  2:{ intros [= <- <-]. exists 0%nat, (world s). split; [lia|]. by rewrite app_nil_r. }
  set (dest_elf := os_path_join temp_elf_dir (safe_target_name target ++ pystr ".elf")).
  assert (∀ o2 s2,
            (copy_artifact src_elf dest_elf;;
             entry_point ← get_entry_point dest_elf;
             spike_log_path ←
               spike_stage spike_bin target (safe_target_name target ++ pystr ".elf")
                 dest_elf temp_elf_dir logs_dir entry_point;
             run_uvm dest_elf spike_log_path (Some target) mpact_root) s = (o2, s2) →
            ∃ n w, (n ≤ 3)%nat
                   ∧ spawned s2 = spawned s ++ replicate n (uvm_cmd w dest_elf None (Some target)))
    as Hbody.
  { intros o2 s2.
    intros [(e & Hc & _) | ([] & sa & Hc & Hrun)]%bind_inv.
    { exists 0%nat, (world s). split; [lia|]. rewrite app_nil_r.
      eapply spawns_none, Hc. apply spawns_copy_artifact. }
    apply spawns_none in Hc; [|apply spawns_copy_artifact]. rewrite <- Hc.
    apply bind_inv in Hrun as [(e & He & _) | (entry & sb & He & Hrun)].
    { exists 0%nat, (world s). split; [lia|]. rewrite app_nil_r.
      eapply spawns_none, He. apply spawns_get_entry_point. }
    apply spawns_none in He; [|apply spawns_get_entry_point]. rewrite <- He.
    rewrite spike_stage_denylisted in Hrun by done.
    apply bind_inv in Hrun as [(e & [=] & _) | (sl & sc & [= <- <-] & Hrun)].
    destruct (run_uvm_result dest_elf None (Some target) mpact_root sb)
      as (r & s3 & n & Hrun' & Hn & Hsp & _).
    rewrite Hrun in Hrun'. injection Hrun' as -> ->. by exists n, (world sb). }
  unfold try_except.
  match goal with |- context [match ?m s with _ => _ end] => destruct (m s) as [[r|e] s2] eqn:E end.
  - intros [= <- <-]. by eapply Hbody.
  - destruct (is_Exception e); intros [= <- <-]; by eapply Hbody.
Qed.

End SpikeDenylist.

Lemma spike_denylist_no_reference_witness :
  ∃ n w,
    (n ≤ 3)%nat
    ∧ spawned (process_test (Sys0 := sim_sys failed_build) spike_path
                 (pystr "/tmp/copybara-mpact") (pystr "/tmp/uvm_reg_") (pystr "out/logs")
                 (pystr "//tests/cocotb:registers", pystr "/out/r.elf")
                 spike_denylisted_start).2
      = spawned spike_denylisted_start
        ++ replicate n
             (uvm_cmd (Sys0 := sim_sys failed_build) w
                (os_path_join (pystr "/tmp/uvm_reg_")
                   (safe_target_name (pystr "//tests/cocotb:registers") ++ pystr ".elf"))
                None (Some (pystr "//tests/cocotb:registers"))).
Proof.
  apply (spike_denylist_no_reference (Sys0 := sim_sys failed_build) spike_path
           (pystr "/tmp/copybara-mpact") (pystr "/tmp/uvm_reg_") (pystr "out/logs")
           (pystr "//tests/cocotb:registers") (pystr "/out/r.elf") spike_denylisted_start _
           (process_test (Sys0 := sim_sys failed_build) spike_path
              (pystr "/tmp/copybara-mpact") (pystr "/tmp/uvm_reg_") (pystr "out/logs")
              (pystr "//tests/cocotb:registers", pystr "/out/r.elf")
              spike_denylisted_start).1).
  - apply (bool_decide_unpack _). by vm_compute.
  - by vm_compute.
Defined.

Lemma run_spike_denylisted :
  (process_test (Sys0 := sim_sys failed_build) spike_path
     (pystr "/tmp/copybara-mpact") (pystr "/tmp/uvm_reg_") (pystr "out/logs")
     (pystr "//tests/cocotb:registers", pystr "/out/r.elf") spike_denylisted_start).1
  = Ret (PASS, pystr "None", zero_summary).
Proof. by vm_compute. Qed.

(** ** The default linker script *)

Lemma split_nonempty (sep : char) (t : str) : split sep t ≠ [].
Proof.
  induction t as [|c t IH]; [done|]. cbn [split].
  destruct (c =? sep); [done|]. by destruct (split sep t).
Qed.

Lemma split_app_sep (sep : char) (a b : str) :
  split sep (a ++ sep :: b) = split sep a ++ split sep b.
Proof.
  induction a as [|c a IH]; cbn [app split].
  - by rewrite N.eqb_refl.
  - destruct (c =? sep); [by rewrite IH|]. rewrite IH.
    pose proof (split_nonempty sep a). by destruct (split sep a).
Qed.

Lemma split_none (sep : char) (t : str) : sep ∉ t → split sep t = [t].
Proof.
  induction t as [|c t IH]; [done|]. intros [Hc Ht]%not_elem_of_cons. cbn [split].
  destruct (N.eqb_spec c sep) as [->|_]; [done|]. by rewrite IH.
Qed.

Lemma contains_char (c : char) (t : str) : contains [c] t = true ↔ c ∈ t.
Proof.
  induction t as [|d t IH]; cbn [contains].
  - split; [done | by intros []%elem_of_nil].
  - unfold startswith at 1. cbn [strip_prefix]. rewrite elem_of_cons, <- IH.
    destruct (N.eqb_spec c d) as [->|Hne].
    + split; [by left | done].
    + rewrite bool_decide_eq_false_2 by (by intros [? [=]]). cbn [orb].
      split; [by right | by intros [?|?]].
Qed.

(** X6.  The linker script that a kept target must declare is its
    own label with [.ld]: [pkg:name.ld] for a target [pkg:name], and
    [dir/name:name.ld] for a target [dir/name] written without a
    colon. *)
Theorem expected_linker_script_label (pkg name : str) :
  colon ∉ pkg → colon ∉ name →
  expected_linker_script (pkg ++ colon :: name) = (pkg ++ colon :: name) ++ pystr ".ld"
  ∧ (slash ∉ name →
     expected_linker_script (pkg ++ slash :: name)
     = (pkg ++ slash :: name) ++ colon :: name ++ pystr ".ld").
Proof.
  intros Hpkg Hname. split.
  - unfold expected_linker_script.
    assert (contains [colon] (pkg ++ colon :: name) = true) as ->.
    { apply contains_char, elem_of_app. right. by apply elem_of_cons; left. }
    rewrite split_app_sep, !split_none by done. cbn.
    by rewrite <- (assoc_L (++)).
  - intros Hslash. unfold expected_linker_script.
    assert (contains [colon] (pkg ++ slash :: name) = false) as ->.
    { apply not_true_is_false. rewrite contains_char.
      intros [?|[[=]|?]%elem_of_cons]%elem_of_app; done. }
    rewrite split_app_sep, (split_none slash name) by done.
    unfold last_item. by rewrite last_snoc.
Qed.

Lemma expected_linker_script_label_witness :
  expected_linker_script (pystr "//tests/cocotb" ++ colon :: pystr "align_test")
  = (pystr "//tests/cocotb" ++ colon :: pystr "align_test") ++ pystr ".ld"
  ∧ expected_linker_script (pystr "//tests/cocotb" ++ slash :: pystr "align_test")
    = (pystr "//tests/cocotb" ++ slash :: pystr "align_test")
      ++ colon :: pystr "align_test" ++ pystr ".ld".
Proof.
  destruct (expected_linker_script_label (pystr "//tests/cocotb") (pystr "align_test"))
    as [Hcolon Hslash].
  - apply (bool_decide_unpack _). by vm_compute.
  - apply (bool_decide_unpack _). by vm_compute.
  - split; [exact Hcolon|]. apply Hslash.
    apply (bool_decide_unpack _). by vm_compute.
Defined.
